(** * Audio production pipeline: planner, synthesis runner, assembler

    Shallow embedding of the three scripts of the audiobook pipeline
    ([prepare-audio-chunks.js], [generate-chapter-audio.js],
    [concat-chapter-audio.js]), of their [main]s and of the script that
    runs them in a row ([build-reiki-audiobook.js]), with the properties of
    their manifests, retries, concat lists, files and exit statuses.

    JavaScript strings are sequences of UTF-16 code units ([list N]);
    JavaScript numbers that carry a duration are binary64 floats; the
    file system is a finite map from paths to nodes.  The scripts act on a
    [world]: the files, a trace of what they did (files written, commands
    run, requests sent, sleeps, the [console.error] lines that name a
    failure of the runner or the assembler) and the number of requests
    sent.  The synthesis service and ffmpeg are parameters; ffmpeg touches
    no file but its output operand.  A function that may not end takes the
    number of loop turns it is allowed and has no result when they do not
    suffice.

    Left out: the [console.log] progress lines and the syntax of JSON: the
    functions of the stages are given what their input file parses to, and
    where a script is modelled with its reading and writing the parsers
    and the serializer are parameters.  Paths are joined with a separator
    and not normalised, which is [path.join] for the plain segments the
    scripts join; the properties that tell the clips from the other files
    are stated for ids with no separator in them, as the planner makes
    them. *)

From Stdlib Require Import Floats ZArith DecimalString DecimalFacts DecimalNat.
From stdpp Require Import gmap list strings.

Set Warnings "-inexact-float".

(** ** JavaScript strings *)

Abbreviation jsstring := (list N).

(** An ASCII literal as a sequence of code units. *)
Definition u (s : string) : jsstring :=
  map Stdlib.Strings.Ascii.N_of_ascii (Stdlib.Strings.String.list_ascii_of_string s).

(** [String(n)] and [`${n}`] for a non-negative integer. *)
Definition showNat (n : nat) : jsstring :=
  u (NilZero.string_of_uint (Nat.to_uint n)).

(** [s.padStart(len, c)] for a one-unit pad string. *)
Definition padStart (len : nat) (c : N) (s : jsstring) : jsstring :=
  replicate (len - length s) c ++ s.

Fixpoint startsWith (p s : jsstring) : bool :=
  match p, s with
  | [], _ => true
  | a :: p', b :: s' => (a =? b)%N && startsWith p' s'
  | _ :: _, [] => false
  end.

(** [s.includes(p)] *)
Fixpoint includes (s p : jsstring) : bool :=
  startsWith p s ||
  match s with
  | [] => false
  | _ :: s' => includes s' p
  end.

(** The remainder of [s] after the literal [p], when [s] starts with it. *)
Fixpoint stripPrefix (p s : jsstring) : option jsstring :=
  match p, s with
  | [], _ => Some s
  | a :: p', b :: s' => if (a =? b)%N then stripPrefix p' s' else None
  | _ :: _, [] => None
  end.

(** The longest prefix whose units all satisfy [f], and the rest: what a
    greedy character class [[...]*] consumes. *)
Fixpoint span (f : N -> bool) (s : jsstring) : jsstring * jsstring :=
  match s with
  | [] => ([], [])
  | c :: s' =>
      if f c then let '(a, b) := span f s' in (c :: a, b) else ([], s)
  end.

Fixpoint dropWhile (f : N -> bool) (s : jsstring) : jsstring :=
  match s with
  | [] => []
  | c :: s' => if f c then dropWhile f s' else s
  end.

(** The class [\s] of a regular expression without the unicode flag, which
    is also the set that [trim] removes: WhiteSpace and LineTerminator. *)
Definition isSpace (c : N) : bool :=
  ((9 <=? c) && (c <=? 13) || (c =? 32) || (c =? 160) || (c =? 0x1680)
   || (0x2000 <=? c) && (c <=? 0x200a) || (c =? 0x2028) || (c =? 0x2029)
   || (c =? 0x202f) || (c =? 0x205f) || (c =? 0x3000) || (c =? 0xfeff))%N.

(** [s.trim()] *)
Definition trim (s : jsstring) : jsstring :=
  reverse (dropWhile isSpace (reverse (dropWhile isSpace s))).

(** White space in a text that is single: each white space unit is U+0020
    and is not followed by another. *)
Fixpoint spacesOk (r : jsstring) : Prop :=
  match r with
  | [] => True
  | c :: r' =>
      (isSpace c = true ->
       c = 32%N /\ forall d, head r' = Some d -> isSpace d = false)
      /\ spacesOk r'
  end.

(** [s.replace(/re/g, ...)]: scan from the left; where the matcher succeeds
    emit its replacement and go on after the match, otherwise copy one unit.
    A matcher returns the replacement and the input left after the match;
    every matcher below consumes at least one unit, so [length s] steps
    are enough. *)
Fixpoint replaceAll_fuel (m : jsstring -> option (jsstring * jsstring))
    (fuel : nat) (s : jsstring) : jsstring :=
  match fuel with
  | O => s
  | S fuel' =>
      match m s with
      | Some (out, rest) => out ++ replaceAll_fuel m fuel' rest
      | None =>
          match s with
          | [] => []
          | c :: s' => c :: replaceAll_fuel m fuel' s'
          end
      end
  end.

Definition replaceAll (m : jsstring -> option (jsstring * jsstring))
    (s : jsstring) : jsstring :=
  replaceAll_fuel m (S (length s)) s.

Definition rbrace : N := 125.
Definition vbar : N := 124.

(** [/\{term:([^}|]+)(?:\|([^}]+))?\}/] with the replacer
    [customText || termId]. *)
Definition matchTerm (s : jsstring) : option (jsstring * jsstring) :=
  match stripPrefix (u "{term:") s with
  | None => None
  | Some s1 =>
      let '(termId, s2) :=
        span (fun c => negb (c =? rbrace)%N && negb (c =? vbar)%N) s1 in
      match termId, s2 with
      | _ :: _, c :: s3 =>
          if (c =? rbrace)%N then Some (termId, s3)
          else
            let '(customText, s4) := span (fun c => negb (c =? rbrace)%N) s3 in
            match customText, s4 with
            | _ :: _, _ :: s5 => Some (customText, s5)
            | _, _ => None
            end
      | _, _ => None
      end
  end.

(** [/\{ref:([^}]+)\}/] replaced by the empty string. *)
Definition matchRef (s : jsstring) : option (jsstring * jsstring) :=
  match stripPrefix (u "{ref:") s with
  | None => None
  | Some s1 =>
      let '(ref, s2) := span (fun c => negb (c =? rbrace)%N) s1 in
      match ref, s2 with
      | _ :: _, _ :: s3 => Some ([], s3)
      | _, _ => None
      end
  end.

(** A literal pattern replaced by the empty string. *)
Definition matchLiteral (p : jsstring) (s : jsstring)
    : option (jsstring * jsstring) :=
  match stripPrefix p s with
  | Some rest => Some ([], rest)
  | None => None
  end.

(** [/\s+/] replaced by one space. *)
Definition matchSpaces (s : jsstring) : option (jsstring * jsstring) :=
  let '(ws, rest) := span isSpace s in
  match ws with
  | [] => None
  | _ :: _ => Some (u " ", rest)
  end.

(** The value of a code unit as a digit of the radix: [0-9], then [a-z]
    and [A-Z] from ten on. *)
Definition digitOf (radix : Z) (c : N) : option Z :=
  let value :=
    if ((48 <=? c) && (c <=? 57))%N then Some (Z.of_N c - 48)%Z
    else if ((97 <=? c) && (c <=? 122))%N then Some (Z.of_N c - 97 + 10)%Z
    else if ((65 <=? c) && (c <=? 90))%N then Some (Z.of_N c - 65 + 10)%Z
    else None in
  match value with
  | Some d => if (d <? radix)%Z then Some d else None
  | None => None
  end.

(** The number the longest prefix of digits of [s] denotes, after the
    digits that gave [acc]. *)
Fixpoint digitsFrom (radix acc : Z) (s : jsstring) : Z :=
  match s with
  | [] => acc
  | c :: s' =>
      match digitOf radix c with
      | Some d => digitsFrom radix (acc * radix + d) s'
      | None => acc
      end
  end.

(** [parseInt(s)] with no radix given: leading white space is skipped, a
    sign is read, [0x] or [0X] selects radix sixteen, and the longest
    prefix of digits is the result; [None] is [NaN].  The result is the
    mathematical value: the Number is its rounding to binary64, which
    compares with 1 and with 11 as the value itself does. *)
Definition parseInt (s : jsstring) : option Z :=
  let s := dropWhile isSpace s in
  let '(sign, s) :=
    match s with
    | c :: s' =>
        if (c =? 45)%N then ((-1)%Z, s')
        else if (c =? 43)%N then (1%Z, s') else (1%Z, s)
    | [] => (1%Z, [])
    end in
  let '(radix, s) :=
    match s with
    | 48%N :: x :: s' =>
        if ((x =? 120) || (x =? 88))%N then (16%Z, s') else (10%Z, s)
    | _ => (10%Z, s)
    end in
  match s with
  | c :: _ =>
      match digitOf radix c with
      | Some _ => Some (sign * digitsFrom radix 0 s)%Z
      | None => None
      end
  | [] => None
  end.

(** ** The planner: prepare-audio-chunks.js *)

Module PAUSES.
Definition afterTitle : float := 2.0%float.
Definition afterParagraph : float := 0.8%float.
Definition afterQuote : float := 1.5%float.
Definition afterSection : float := 2.5%float.
Definition endChapter : float := 3.0%float.
End PAUSES.

Definition cleanText (text : jsstring) : jsstring :=
  match text with
  | [] => []
  | _ :: _ =>
      let text := replaceAll matchTerm text in
      let text := replaceAll matchRef text in
      let text := replaceAll (matchLiteral (u "<em>")) text in
      let text := replaceAll (matchLiteral (u "</em>")) text in
      let text := replaceAll (matchLiteral (u "<strong>")) text in
      let text := replaceAll (matchLiteral (u "</strong>")) text in
      trim (replaceAll matchSpaces text)
  end.

(** A content block of a section of the chapter document. *)
Module Block.
Record t := mk { type : jsstring; text : jsstring }.
End Block.

Record section := { content : list Block.t }.

Record chapter := {
  numberText : jsstring;
  title : jsstring;
  sections : list section
}.

(** A narration unit of the manifest. *)
Module Chunk.
Record t := mk {
  id : jsstring;
  type : jsstring;
  text : jsstring;
  pauseAfter : float
}.
End Chunk.

(** The manifest, [chunks.json]. *)
Module Manifest.
Record t := mk {
  chapter : nat;
  title : jsstring;
  lang : jsstring;
  totalChunks : Z;
  chunks : list Chunk.t
}.
End Manifest.

(** [`ch${chapterNum}-chunk-${String(chunkIndex).padStart(3, '0')}`] *)
Definition chunkId (chapterNum chunkIndex : nat) : jsstring :=
  u "ch" ++ showNat chapterNum ++ u "-chunk-" ++ padStart 3 48 (showNat chunkIndex).

(** [l.forEach((x, index) => ...)] threading the variables the callback
    assigns. *)
Fixpoint forEach_from {A St : Type} (f : St -> A -> nat -> St) (l : list A)
    (index : nat) (s : St) : St :=
  match l with
  | [] => s
  | x :: l' => forEach_from f l' (S index) (f s x index)
  end.

Definition forEach {A St : Type} (f : St -> A -> nat -> St) (l : list A)
    (s : St) : St :=
  forEach_from f l 0 s.

(** The state the two nested loops of [prepareChapterChunks] update: the
    array [chunks] and the counter [chunkIndex]. *)
Definition planState : Type := list Chunk.t * nat.

Definition planBlock (chapterNum : nat) (isLastSection : bool) (nblocks : nat)
    (st : planState) (block : Block.t) (blockIndex : nat) : planState :=
  let '(chunks, chunkIndex) := st in
  let isLastBlock := (Z.of_nat blockIndex =? Z.of_nat nblocks - 1)%Z in
  let cleanedText := cleanText (Block.text block) in
  match cleanedText with
  | [] => st
  | _ :: _ =>
      let pauseAfter := PAUSES.afterParagraph in
      let pauseAfter :=
        if bool_decide (Block.type block = u "quote") then PAUSES.afterQuote
        else pauseAfter in
      let pauseAfter :=
        if isLastBlock && isLastSection then PAUSES.endChapter
        else if isLastBlock then PAUSES.afterSection
        else pauseAfter in
      (chunks ++ [Chunk.mk (chunkId chapterNum chunkIndex) (Block.type block)
                    cleanedText pauseAfter],
       S chunkIndex)
  end.

Definition planSection (chapterNum : nat) (nsections : nat)
    (st : planState) (sec : section) (sectionIndex : nat) : planState :=
  let isLastSection := (Z.of_nat sectionIndex =? Z.of_nat nsections - 1)%Z in
  forEach (planBlock chapterNum isLastSection (length (content sec)))
    (content sec) st.

Definition introChunk (chapterNum : nat) (ch : chapter) : Chunk.t :=
  Chunk.mk (chunkId chapterNum 0) (u "intro")
    (numberText ch ++ u ". " ++ title ch) PAUSES.afterTitle.

(** [prepareChapterChunks(chapterNum, lang)] on the parsed chapter file:
    the [chunksData] it saves as [chunks.json] and returns. *)
Definition prepareChapterChunks (chapterNum : nat) (lang : jsstring)
    (ch : chapter) : Manifest.t :=
  let chunks := [introChunk chapterNum ch] in
  let chunkIndex := 1 in
  let '(chunks, _) :=
    forEach (planSection chapterNum (length (sections ch))) (sections ch)
      (chunks, chunkIndex) in
  Manifest.mk chapterNum (title ch) lang (Z.of_nat (length chunks)) chunks.

(** *** The pause policy, by position in the document *)

(** A content block with its place in the document: whether it is the last
    block of its section, and whether that section is the last one. *)
Record placed := {
  block : Block.t;
  isLastBlock : bool;
  isLastSection : bool
}.

(** Every content block of the chapter in reading order, with its place. *)
Definition placedBlocks (ch : chapter) : list placed :=
  concat
    (imap (fun j sec =>
             imap (fun k b =>
                     {| block := b;
                        isLastBlock := bool_decide (S k = length (content sec));
                        isLastSection := bool_decide (S j = length (sections ch)) |})
               (content sec))
       (sections ch)).

(** A block survives cleaning when its cleaned text is not empty. *)
Definition survives (p : placed) : bool :=
  negb (bool_decide (cleanText (Block.text (block p)) = [])).

Definition survivors (ch : chapter) : list placed :=
  filter (fun p => survives p = true) (placedBlocks ch).

(** The pause by the type of the block: medium after a quote, short after
    anything else. *)
Definition basePause (b : Block.t) : float :=
  if bool_decide (Block.type b = u "quote") then 1.5%float else 0.8%float.

(** The precedence of the pauses: chapter end, then section boundary, then
    the type of the block. *)
Definition pausePolicy (p : placed) : float :=
  if isLastBlock p && isLastSection p then 3.0%float
  else if isLastBlock p then 2.5%float
  else basePause (block p).

(** The unit of a surviving block that is given the ordinal [chunkIndex]. *)
Definition unitOf (chapterNum chunkIndex : nat) (p : placed) : Chunk.t :=
  Chunk.mk (chunkId chapterNum chunkIndex) (Block.type (block p))
    (cleanText (Block.text (block p))) (pausePolicy p).

(** The blocks of one section with their places, the first of them at
    index [k]. *)
Definition placedFrom (ls : bool) (nb k : nat) (bs : list Block.t) : list placed :=
  imap (fun j b => {| block := b; isLastBlock := bool_decide (S (k + j) = nb);
                      isLastSection := ls |}) bs.

(** The blocks of the sections from index [j] on, with their places. *)
Definition placedSections (ns j : nat) (secs : list section) : list placed :=
  concat (imap (fun j' sec =>
                  placedFrom (bool_decide (S (j + j') = ns))
                    (length (content sec)) 0 (content sec)) secs).

(** ** The file system and the outside world *)

Inductive node :=
  | Dir
  | File (data : list N).

Abbreviation disk := (gmap (list N) node).

(** The answer of the synthesis service to one request: a status code with
    the response body, or a transport error. *)
Inductive httpResult :=
  | Response (statusCode : nat) (body : list N)
  | RequestError (message : jsstring).

(** What a run of ffmpeg did: it completed and wrote its output file, or it
    failed, possibly leaving a partly written output file behind. *)
Inductive ffmpegResult :=
  | FfmpegDone (stdout : jsstring) (output : list N)
  | FfmpegFailed (message : jsstring) (partial : option (list N)).

(** The [console.error] lines that name what failed. *)
Inductive errorLine :=
  | ChunksFileNotFound (chunksFile : jsstring)
  | ChunksDirNotFound (chunksDir : jsstring)
  | SilenceFileNotFound (silenceFile : jsstring)
  | SilenceFailed (message : jsstring)
  | MissingChunks (count : nat)
  | MissingChunk (id : jsstring)
  | SynthesisError (message : jsstring)
  | FfmpegError (message : jsstring).

Inductive event :=
  | EvWrite (path : jsstring) (data : list N)
  | EvExec (command : jsstring)
  | EvRequest (text voiceId : jsstring) (answer : httpResult)
  | EvSleep (ms : Z)
  | EvConsoleError (line : errorLine).

(** The state the scripts act on: the files, the trace of what was done so
    far, and the number of requests sent to the synthesis service. *)
Record world := {
  files : disk;
  trace : list event;
  requests : nat
}.

(** How a function ends: it returns, it throws an [Error] with a message,
    or it calls [process.exit]. *)
Inductive completion (A : Type) :=
  | Return (a : A)
  | Throw (message : jsstring)
  | Exit (code : Z).
Arguments Return {A} a.
Arguments Throw {A} message.
Arguments Exit {A} code.

Definition existsSync (w : world) (p : jsstring) : bool :=
  bool_decide (is_Some (files w !! p)).

Definition emit (e : event) (w : world) : world :=
  {| files := files w; trace := trace w ++ [e]; requests := requests w |}.

Definition mkdirSync (p : jsstring) (w : world) : world :=
  {| files := <[p := Dir]> (files w); trace := trace w; requests := requests w |}.

Definition writeFileSync (p : jsstring) (data : list N) (w : world) : world :=
  emit (EvWrite p data)
    {| files := <[p := File data]> (files w); trace := trace w;
       requests := requests w |}.

(** [if (!fs.existsSync(dir)) fs.mkdirSync(dir, { recursive: true })] *)
Definition ensureDir (dir : jsstring) (w : world) : world :=
  if existsSync w dir then w else mkdirSync dir w.

Definition sleep (ms : Z) (w : world) : world := emit (EvSleep ms) w.

Definition consoleError (line : errorLine) (w : world) : world :=
  emit (EvConsoleError line) w.

(** The number of requests in a trace that the service answered with the
    status 429, too many requests. *)
Definition isThrottled (e : event) : bool :=
  match e with
  | EvRequest _ _ (Response statusCode _) => bool_decide (statusCode = 429)
  | _ => false
  end.

Definition count429 (t : list event) : nat :=
  length (filter (fun e => isThrottled e = true) t).

Definition isRequest (e : event) : bool :=
  match e with
  | EvRequest _ _ _ => true
  | _ => false
  end.

(** [path.join(dir, name)] for a plain segment [name]: a name with no
    separator in it that is neither [.] nor [..], which [path.join] leaves
    as it is after [dir] and a separator.  The names the scripts join are
    constants, the language, [ch] and the number of the chapter, and the
    id of a unit with [.mp3] after it; the last one is a plain segment
    when the id holds no separator. *)
Definition join (dir name : jsstring) : jsstring := dir ++ u "/" ++ name.

(** No separator [/] is in the name. *)
Definition plainName (name : jsstring) : bool :=
  forallb (fun c => negb (c =? 47)%N) name.

(** The variables of the loop of [generateChapterAudio]. *)
Module Loop.
Record t := mk { i : Z; successCount : nat; errorCount : nat }.
End Loop.

(** What [generateChapterAudio] returns. *)
Module Result.
Record t := mk { successCount : nat; errorCount : nat; total : Z }.
End Result.

Definition DELAY_BETWEEN_REQUESTS : Z := 500.

Definition durations : list float :=
  [0.8; 1.5; 2.0; 2.5; 3.0]%float.

(** ** Sample documents, services and worlds *)

Definition paragraph (text : string) : Block.t := Block.mk (u "paragraph") (u text).
Definition quote (text : string) : Block.t := Block.mk (u "quote") (u text).

(** A chapter with two sections: two paragraphs, then one paragraph. *)
Definition twoSections : chapter :=
  {| numberText := u "One";
     title := u "Origins";
     sections :=
       [ {| content := [paragraph "Reiki is a {term:practice}."; paragraph "It is old."] |};
         {| content := [paragraph "It is <em>simple</em>."] |} ] |}.

(** A chapter whose last block is only a reference marker, and so cleans to
    the empty text; the second block of the first section is empty too. *)
Definition emptyTail : chapter :=
  {| numberText := u "Two";
     title := u "Practice";
     sections :=
       [ {| content := [paragraph "Sit."; paragraph " "; quote "Breathe."] |};
         {| content := [paragraph "Rest."; paragraph "{ref:n1}"] |} ] |}.

(** The manifest of the first chapter: four units. *)
Definition sampleManifest : Manifest.t := prepareChapterChunks 1 (u "en") twoSections.

Definition sampleRoot : jsstring := u "/book".

(** The numbers used in the samples, as JavaScript prints them in a
    template literal. *)
Definition sampleNumberToString (x : float) : jsstring :=
  if PrimFloat.eqb x 0.8 then u "0.8"
  else if PrimFloat.eqb x 1.5 then u "1.5"
  else if PrimFloat.eqb x 2 then u "2"
  else if PrimFloat.eqb x 2.5 then u "2.5"
  else if PrimFloat.eqb x 3 then u "3"
  else u "0".

Definition sampleKey : option jsstring := Some (u "secret").
Definition sampleVoice : option jsstring := None.

(** A service that answers every request with the status 429. *)
Definition alwaysThrottled (n : nat) (text voiceId : jsstring) : httpResult :=
  Response 429 (u "Too Many Requests").

(** A service that answers the first request with the status 429 and every
    later one with audio. *)
Definition throttledOnce (n : nat) (text voiceId : jsstring) : httpResult :=
  match n with
  | O => Response 429 (u "Too Many Requests")
  | S _ => Response 200 [73; 68; 51]%N
  end.

Definition ffmpegDone (command : jsstring) (d : disk) : ffmpegResult :=
  FfmpegDone [] [255; 251]%N.

(** An ffmpeg that fails after it has started to write its output. *)
Definition ffmpegBroken (command : jsstring) (d : disk) : ffmpegResult :=
  FfmpegFailed (u "Command failed: ffmpeg") (Some [255]%N).

Definition sampleChunksDir : jsstring := u "/book/audio/en/ch1/chunks".
Definition sampleChunksFile : jsstring := u "/book/audio/en/ch1/chunks.json".
Definition sampleSilencesDir : jsstring := u "/book/audio/silences".
Definition sampleOutputFile : jsstring := u "/book/audio/en/ch1/ch1-en.mp3".
Definition sampleConcatList : jsstring := u "/book/audio/en/ch1/concat-list.txt".

Definition clipOf (id : string) : jsstring :=
  u "/book/audio/en/ch1/chunks/" ++ u id ++ u ".mp3".

Definition silenceOf (duration : string) : jsstring :=
  u "/book/audio/silences/silence-" ++ u duration ++ u "s.mp3".

(** A world with the given directories and (empty) files, where nothing
    has happened yet. *)
Definition worldOf (dirs present : list jsstring) : world :=
  {| files := list_to_map (map (fun p => (p, Dir)) dirs
                           ++ map (fun p => (p, File [])) present);
     trace := [];
     requests := 0 |}.

Definition allSilences : list jsstring :=
  [silenceOf "0.8"; silenceOf "1.5"; silenceOf "2"; silenceOf "2.5"; silenceOf "3"].

(** Every clip and every silence is there. *)
Definition sampleReady : world :=
  worldOf [sampleChunksDir; sampleSilencesDir]
    (sampleChunksFile ::
     clipOf "ch1-chunk-000" :: clipOf "ch1-chunk-001" ::
     clipOf "ch1-chunk-002" :: clipOf "ch1-chunk-003" :: allSilences).

(** The silences are there, no clip is. *)
Definition sampleNoClips : world :=
  worldOf [sampleChunksDir; sampleSilencesDir] (sampleChunksFile :: allSilences).

(** The clip of the last unit is missing. *)
Definition sampleLastMissing : world :=
  worldOf [sampleChunksDir; sampleSilencesDir]
    (sampleChunksFile ::
     clipOf "ch1-chunk-000" :: clipOf "ch1-chunk-001" ::
     clipOf "ch1-chunk-002" :: allSilences).

(** Only the clip of the intro is there, and no silence. *)
Definition sampleNoSilences : world :=
  worldOf [sampleChunksDir] [sampleChunksFile; clipOf "ch1-chunk-000"].

(** Nothing is there but the manifest and the directories. *)
Definition sampleEmpty : world :=
  worldOf [sampleChunksDir; sampleSilencesDir] [sampleChunksFile].

(** Everything is there, and so is the final file of an earlier run. *)
Definition samplePrior : world :=
  {| files := <[sampleOutputFile := File [73; 68; 51; 4; 0]%N]> (files sampleReady);
     trace := [];
     requests := 0 |}.

(** A service that answers every request with audio. *)
Definition alwaysAudio (n : nat) (text voiceId : jsstring) : httpResult :=
  Response 200 [73; 68; 51]%N.

(** A service that answers every request with the status 500. *)
Definition serverError (n : nat) (text voiceId : jsstring) : httpResult :=
  Response 500 (u "Internal Server Error").

(** A gateway that answers 502 and quotes the status of its upstream. *)
Definition gatewayBusy (n : nat) (text voiceId : jsstring) : httpResult :=
  Response 502 (u "upstream answered 429").

(** A parser that reads the first sample chapter in every file that is not
    empty; a serializer that keeps the number of the chapter only, and a
    parser that reads the manifest of the sample chapter with that number
    back. *)
Definition sampleParse (text : jsstring) : option chapter :=
  match text with
  | [] => None
  | _ :: _ => Some twoSections
  end.

Definition sampleStringify (chunksData : Manifest.t) : jsstring :=
  showNat (Manifest.chapter chunksData).

Definition sampleParseManifest (text : jsstring) : option Manifest.t :=
  match text with
  | [] => None
  | _ :: _ =>
      Some (prepareChapterChunks (Z.to_nat (digitsFrom 10 0 text)) (u "en")
              twoSections)
  end.

Definition sampleChapterFile (chapterNum : nat) : jsstring :=
  u "/book/i18n/en/chapters/ch" ++ showNat chapterNum ++ u ".json".

(** A world with the given files, each holding an opening brace. *)
Definition sourcesOf (present : list jsstring) : world :=
  {| files := list_to_map (map (fun p => (p, File [123%N])) present);
     trace := [];
     requests := 0 |}.

(** The file of the first chapter only, and the files of all eleven. *)
Definition sampleSource : world := sourcesOf [sampleChapterFile 1].
Definition sampleLibrary : world := sourcesOf (map sampleChapterFile (seq 1 11)).

(** The world a process that ends leaves. *)
Definition worldAt {A : Type} (run : option (A * world)) : world :=
  match run with
  | Some (_, w) => w
  | None => {| files := ∅; trace := []; requests := 0 |}
  end.

(** The world a run ends in. *)
Definition worldAfter {A : Type} (run : option (completion A * world)) : world :=
  match run with
  | Some (_, w) => w
  | None => worldOf [] []
  end.

(** The message of the error [textToSpeech] rejects with for an answer of
    the service, if it does. *)
Definition errorOf (answer : httpResult) : option jsstring :=
  match answer with
  | Response statusCode body =>
      if bool_decide (statusCode = 200) then None
      else Some (u "API Error " ++ showNat statusCode ++ u ": " ++ body)
  | RequestError message => Some message
  end.

(** *** Views of a trace *)

(** The texts sent to the synthesis service, in the order of the
    requests. *)
Definition requestTexts (t : list event) : list jsstring :=
  flat_map (fun e => match e with
                     | EvRequest text _ _ => [text]
                     | _ => []
                     end) t.

(** The sleeps of five seconds that precede a retry. *)
Definition isRetrySleep (e : event) : bool :=
  match e with
  | EvSleep ms => bool_decide (ms = 5000%Z)
  | _ => false
  end.

Definition retrySleeps (t : list event) : nat :=
  length (filter (fun e => isRetrySleep e = true) t).

(** The sleeps between two requests. *)
Definition isPacingSleep (e : event) : bool :=
  match e with
  | EvSleep ms => bool_decide (ms = DELAY_BETWEEN_REQUESTS)
  | _ => false
  end.

Definition pacingSleeps (t : list event) : nat :=
  length (filter (fun e => isPacingSleep e = true) t).

(** An event of the provisioning: a command run or a console error. *)
Definition isToolEvent (e : event) : bool :=
  match e with
  | EvExec _ | EvConsoleError _ => true
  | _ => false
  end.

(** From [w] to [w'] the trace only grew by commands and console errors. *)
Definition toolsOnly (w w' : world) : Prop :=
  exists t, trace w' = trace w ++ t /\ Forall (fun e => isToolEvent e = true) t.

(** *** The command line *)

(** [['en', 'es'].includes(lang)] *)
Definition knownLang (lang : jsstring) : bool :=
  bool_decide (lang = u "en") || bool_decide (lang = u "es").

(** The chapter number [parseInt] reads in the first argument, when
    [isNaN(chapterNum) || chapterNum < 1 || chapterNum > 11] is false. *)
Definition chapterOf (arg : jsstring) : option nat :=
  match parseInt arg with
  | Some chapterNum =>
      if ((chapterNum <? 1) || (chapterNum >? 11))%Z then None
      else Some (Z.to_nat chapterNum)
  | None => None
  end.

(** How [main] ends: with the usage, with one of the two lines that reject
    an argument (each of the three with status one), or after the call of
    the stage the script is for, with the status of the process. *)
Inductive ending :=
  | UsageShown
  | ChapterRejected
  | LanguageRejected
  | Ended (status : Z).

Definition statusOf (e : ending) : Z :=
  match e with
  | Ended status => status
  | _ => 1
  end.

Section Scripts.

(** The parent of the scripts directory, [path.join(__dirname, '..')]. *)
Variable root : jsstring.
(** The conversion of a number to a string in a template literal. *)
Variable numberToString : float -> jsstring.
(** [process.env.FISH_API_KEY] and [process.env.FISH_VOICE_ID]. *)
Variable FISH_API_KEY : option jsstring.
Variable FISH_VOICE_ID : option jsstring.
(** The synthesis service: its answer to the n-th request sent. *)
Variable fishAudio : nat -> jsstring -> jsstring -> httpResult.
(** The ffmpeg program run on a command line, reading the files. *)
Variable ffmpeg : jsstring -> disk -> ffmpegResult.

(** [execSync(command)] for an ffmpeg command whose output operand is
    [outputPath]: the standard output, or the message of the error
    thrown. *)
Definition execSync (command outputPath : jsstring) (w : world)
    : (jsstring + jsstring) * world :=
  let w := emit (EvExec command) w in
  match ffmpeg command (files w) with
  | FfmpegDone stdout output =>
      (inl stdout,
       {| files := <[outputPath := File output]> (files w);
          trace := trace w; requests := requests w |})
  | FfmpegFailed message None => (inr message, w)
  | FfmpegFailed message (Some output) =>
      (inr message,
       {| files := <[outputPath := File output]> (files w);
          trace := trace w; requests := requests w |})
  end.

Definition audioDirOf (chapterNum : nat) (lang : jsstring) : jsstring :=
  join (join (join root (u "audio")) lang) (u "ch" ++ showNat chapterNum).

Definition silencesDirOf (audioDir : jsstring) : jsstring :=
  join audioDir (u "silences").

Definition silencePath (silencesDir : jsstring) (duration : float) : jsstring :=
  join silencesDir (u "silence-" ++ numberToString duration ++ u "s.mp3").

Definition chunkPath (chunksDir : jsstring) (chunk : Chunk.t) : jsstring :=
  join chunksDir (Chunk.id chunk ++ u ".mp3").

(** *** The synthesis runner: generate-chapter-audio.js *)

Definition silenceCommand (duration : float) (outputPath : jsstring) : jsstring :=
  u "ffmpeg -f lavfi -i anullsrc=r=44100:cl=stereo -t "
    ++ numberToString duration
    ++ u " -q:a 9 -acodec libmp3lame " ++ [34%N] ++ outputPath ++ [34%N]
    ++ u " -y 2>/dev/null".

Definition generateSilence (duration : float) (outputPath : jsstring)
    (w : world) : completion unit * world :=
  if existsSync w outputPath then (Return tt, w)
  else
    match execSync (silenceCommand duration outputPath) outputPath w with
    | (inl _, w) => (Return tt, w)
    | (inr message, w) => (Throw message, consoleError (SilenceFailed message) w)
    end.

Fixpoint generateSilences (silencesDir : jsstring) (ds : list float)
    (w : world) : completion unit * world :=
  match ds with
  | [] => (Return tt, w)
  | duration :: ds' =>
      match generateSilence duration (silencePath silencesDir duration) w with
      | (Return _, w) => generateSilences silencesDir ds' w
      | r => r
      end
  end.

Definition generateAllSilences (audioDir : jsstring) (w : world)
    : completion unit * world :=
  let silencesDir := silencesDirOf audioDir in
  let w := ensureDir silencesDir w in
  generateSilences silencesDir durations w.

(** [textToSpeech(text, outputPath, voiceId)]: the path written, or the
    message of the error the promise is rejected with. *)
Definition textToSpeech (text outputPath voiceId : jsstring) (w : world)
    : (jsstring + jsstring) * world :=
  match FISH_API_KEY with
  | None | Some [] =>
      (inr (u "FISH_API_KEY environment variable is required"), w)
  | Some (_ :: _) =>
      let answer := fishAudio (requests w) text voiceId in
      let w := emit (EvRequest text voiceId answer)
                 {| files := files w; trace := trace w;
                    requests := S (requests w) |} in
      match answer with
      | Response statusCode body =>
          if bool_decide (statusCode = 200) then
            (inl outputPath, writeFileSync outputPath body w)
          else
            (inr (u "API Error " ++ showNat statusCode ++ u ": " ++ body), w)
      | RequestError message => (inr message, w)
      end
  end.

Definition lookupZ {A : Type} (l : list A) (k : Z) : option A :=
  if (k <? 0)%Z then None else l !! Z.to_nat k.

(** One turn of the [for] loop: the body, then [i++]. *)
Definition loopBody (chunksData : Manifest.t) (chunksDir voiceId : jsstring)
    (st : Loop.t) (w : world) : completion Loop.t * world :=
  let '(Loop.mk i successCount errorCount) := st in
  match lookupZ (Manifest.chunks chunksData) i with
  | None =>
      (Throw (u "Cannot read properties of undefined (reading 'id')"), w)
  | Some chunk =>
      let outputPath := chunkPath chunksDir chunk in
      if existsSync w outputPath then
        (Return (Loop.mk (i + 1) (S successCount) errorCount), w)
      else
        match textToSpeech (Chunk.text chunk) outputPath voiceId w with
        | (inl _, w) =>
            let w :=
              if (i <? Manifest.totalChunks chunksData - 1)%Z
              then sleep DELAY_BETWEEN_REQUESTS w else w in
            (Return (Loop.mk (i + 1) (S successCount) errorCount), w)
        | (inr message, w) =>
            let w := consoleError (SynthesisError message) w in
            if includes message (u "429") then
              let w := sleep 5000 w in
              (Return (Loop.mk (i - 1 + 1) successCount (S errorCount)), w)
            else
              (Return (Loop.mk (i + 1) successCount (S errorCount)), w)
        end
  end.

(** The [for] loop, run for at most [fuel] turns; [None] when the loop is
    still running after them. *)
Fixpoint forLoop (fuel : nat) (chunksData : Manifest.t)
    (chunksDir voiceId : jsstring) (st : Loop.t) (w : world)
    : option (completion Loop.t * world) :=
  match fuel with
  | O => None
  | S fuel' =>
      if (Loop.i st <? Z.of_nat (length (Manifest.chunks chunksData)))%Z then
        match loopBody chunksData chunksDir voiceId st w with
        | (Return st', w') => forLoop fuel' chunksData chunksDir voiceId st' w'
        | r => Some r
        end
      else Some (Return st, w)
  end.

Definition voiceIdOf : jsstring :=
  match FISH_VOICE_ID with
  | Some (c :: v) => c :: v
  | _ => u "f53102becdf94a51af6d64010bc658f2"
  end.

(** [generateChapterAudio(chapterNum, lang)], where [chunksData] is what
    [chunks.json] parses to. *)
Definition generateChapterAudio (fuel : nat) (chapterNum : nat)
    (lang : jsstring) (chunksData : Manifest.t) (w : world)
    : option (completion Result.t * world) :=
  let audioDir := audioDirOf chapterNum lang in
  let chunksFile := join audioDir (u "chunks.json") in
  if negb (existsSync w chunksFile) then
    Some (Exit 1, consoleError (ChunksFileNotFound chunksFile) w)
  else
    let chunksDir := join audioDir (u "chunks") in
    let w := ensureDir chunksDir w in
    match generateAllSilences (join root (u "audio")) w with
    | (Return _, w) =>
        match forLoop fuel chunksData chunksDir voiceIdOf (Loop.mk 0 0 0) w with
        | None => None
        | Some (Return st, w) =>
            Some (Return (Result.mk (Loop.successCount st) (Loop.errorCount st)
                            (Manifest.totalChunks chunksData)), w)
        | Some (Throw message, w) => Some (Throw message, w)
        | Some (Exit code, w) => Some (Exit code, w)
        end
    | (Throw message, w) => Some (Throw message, w)
    | (Exit code, w) => Some (Exit code, w)
    end.

(** The exit status [main] of generate-chapter-audio.js ends the process
    with. *)
Definition generateExitStatus (r : completion Result.t) : Z :=
  match r with
  | Return result => if bool_decide (Result.errorCount result = 0) then 0 else 1
  | Throw _ => 1
  | Exit code => code
  end.

(** *** The assembler: concat-chapter-audio.js *)

Definition concatLine (file : jsstring) : jsstring :=
  u "file '" ++ file ++ u "'" ++ [10%N].

(** The [for ... of] loop over the chunks, from the values of [concatList]
    and [missingChunks] so far. *)
Fixpoint concatLoop (chunksDir silencesDir : jsstring) (chunks : list Chunk.t)
    (concatList : jsstring) (missingChunks : list jsstring) (w : world)
    : completion (jsstring * list jsstring) * world :=
  match chunks with
  | [] => (Return (concatList, missingChunks), w)
  | chunk :: rest =>
      let chunkFile := chunkPath chunksDir chunk in
      if negb (existsSync w chunkFile) then
        concatLoop chunksDir silencesDir rest concatList
          (missingChunks ++ [Chunk.id chunk]) w
      else
        let concatList := concatList ++ concatLine chunkFile in
        if PrimFloat.ltb 0 (Chunk.pauseAfter chunk) then
          let silenceFile := silencePath silencesDir (Chunk.pauseAfter chunk) in
          if negb (existsSync w silenceFile) then
            (Exit 1, consoleError (SilenceFileNotFound silenceFile) w)
          else
            concatLoop chunksDir silencesDir rest
              (concatList ++ concatLine silenceFile) missingChunks w
        else concatLoop chunksDir silencesDir rest concatList missingChunks w
  end.

Definition concatCommand (concatListPath outputFile : jsstring) : jsstring :=
  u "ffmpeg -f concat -safe 0 -i " ++ [34%N] ++ concatListPath ++ [34%N]
    ++ u " -c copy " ++ [34%N] ++ outputFile ++ [34%N] ++ u " -y 2>&1".

Definition outputFileOf (chapterNum : nat) (lang : jsstring) : jsstring :=
  join (audioDirOf chapterNum lang)
    (u "ch" ++ showNat chapterNum ++ u "-" ++ lang ++ u ".mp3").

Definition concatListPathOf (chapterNum : nat) (lang : jsstring) : jsstring :=
  join (audioDirOf chapterNum lang) (u "concat-list.txt").

(** [concatChapterAudio(chapterNum, lang)], where [chunksData] is what
    [chunks.json] parses to. *)
Definition concatChapterAudio (chapterNum : nat) (lang : jsstring)
    (chunksData : Manifest.t) (w : world) : completion jsstring * world :=
  let audioDir := audioDirOf chapterNum lang in
  let chunksFile := join audioDir (u "chunks.json") in
  let chunksDir := join audioDir (u "chunks") in
  let silencesDir := join (join root (u "audio")) (u "silences") in
  if negb (existsSync w chunksFile) then
    (Exit 1, consoleError (ChunksFileNotFound chunksFile) w)
  else if negb (existsSync w chunksDir) then
    (Exit 1, consoleError (ChunksDirNotFound chunksDir) w)
  else
    let concatListPath := concatListPathOf chapterNum lang in
    match concatLoop chunksDir silencesDir (Manifest.chunks chunksData) [] [] w with
    | (Return (concatList, missingChunks), w) =>
        match missingChunks with
        | _ :: _ =>
            let w := consoleError (MissingChunks (length missingChunks)) w in
            let w := foldl (fun w id => consoleError (MissingChunk id) w) w
                       missingChunks in
            (Exit 1, w)
        | [] =>
            let w := writeFileSync concatListPath concatList w in
            let outputFile := outputFileOf chapterNum lang in
            match execSync (concatCommand concatListPath outputFile) outputFile w with
            | (inl _, w) => (Return outputFile, w)
            | (inr message, w) => (Exit 1, consoleError (FfmpegError message) w)
            end
        end
    | (Throw message, w) => (Throw message, w)
    | (Exit code, w) => (Exit code, w)
    end.

(** The exit status [main] of concat-chapter-audio.js ends the process
    with. *)
Definition concatExitStatus (r : completion jsstring) : Z :=
  match r with
  | Return _ => 0
  | Throw _ => 1
  | Exit code => code
  end.

(** *** The concat list, by the manifest *)

(** The files to join, in manifest order: the clip of each unit, followed
    by the silence of its pause when the pause is positive. *)
Definition concatEntries (chunksDir silencesDir : jsstring)
    (chunks : list Chunk.t) : list jsstring :=
  flat_map (fun chunk =>
              chunkPath chunksDir chunk ::
              if PrimFloat.ltb 0 (Chunk.pauseAfter chunk)
              then [silencePath silencesDir (Chunk.pauseAfter chunk)]
              else [])
    chunks.

(** The ids of the units whose clip is missing, in manifest order. *)
Definition missingIds (chunksDir : jsstring) (w : world)
    (chunks : list Chunk.t) : list jsstring :=
  map Chunk.id
    (filter (fun chunk => existsSync w (chunkPath chunksDir chunk) = false) chunks).

(** *** Relations between worlds *)

(** From [w] to [w'] no request was sent, the trace only grew by events
    that are not requests, and no file disappeared. *)
Definition noRequest (w w' : world) : Prop :=
  requests w' = requests w
  /\ (exists t, trace w' = trace w ++ t /\ Forall (fun e => isRequest e = false) t)
  /\ (forall q, existsSync w q = true -> existsSync w' q = true).

(** *** The turns of the synthesis loop *)

(** [!apiKey] is false. *)
Definition hasKey : bool :=
  match FISH_API_KEY with
  | Some (_ :: _) => true
  | _ => false
  end.

(** What one turn of the loop does: the unit is skipped, synthesized,
    failed, or left to be retried. *)
Inductive turn (chunksData : Manifest.t) (chunksDir voiceId : jsstring)
    (i : Z) (sc ec : nat) (w : world) (chunk : Chunk.t)
    : completion Loop.t -> world -> Prop :=
  | TurnSkipped :
      existsSync w (chunkPath chunksDir chunk) = true ->
      turn chunksData chunksDir voiceId i sc ec w chunk
        (Return (Loop.mk (i + 1) (S sc) ec)) w
  | TurnSynthesized (body : list N) (w' : world) :
      existsSync w (chunkPath chunksDir chunk) = false ->
      hasKey = true ->
      fishAudio (requests w) (Chunk.text chunk) voiceId = Response 200 body ->
      files w' = <[chunkPath chunksDir chunk := File body]> (files w) ->
      requests w' = S (requests w) ->
      trace w' = trace w ++
                 [EvRequest (Chunk.text chunk) voiceId (Response 200 body);
                  EvWrite (chunkPath chunksDir chunk) body] ++
                 (if (i <? Manifest.totalChunks chunksData - 1)%Z
                  then [EvSleep DELAY_BETWEEN_REQUESTS] else []) ->
      turn chunksData chunksDir voiceId i sc ec w chunk
        (Return (Loop.mk (i + 1) (S sc) ec)) w'
  | TurnFailed (message : jsstring) (sent : list event) (w' : world) :
      existsSync w (chunkPath chunksDir chunk) = false ->
      includes message (u "429") = false ->
      files w' = files w ->
      trace w' = trace w ++ sent ++ [EvConsoleError (SynthesisError message)] ->
      (hasKey = false /\ sent = [] /\ requests w' = requests w
       /\ message = u "FISH_API_KEY environment variable is required"
       \/ hasKey = true
          /\ sent = [EvRequest (Chunk.text chunk) voiceId
                       (fishAudio (requests w) (Chunk.text chunk) voiceId)]
          /\ requests w' = S (requests w)
          /\ errorOf (fishAudio (requests w) (Chunk.text chunk) voiceId)
             = Some message) ->
      turn chunksData chunksDir voiceId i sc ec w chunk
        (Return (Loop.mk (i + 1) sc (S ec))) w'
  | TurnRetried (message : jsstring) (w' : world) :
      existsSync w (chunkPath chunksDir chunk) = false ->
      hasKey = true ->
      errorOf (fishAudio (requests w) (Chunk.text chunk) voiceId) = Some message ->
      includes message (u "429") = true ->
      files w' = files w ->
      requests w' = S (requests w) ->
      trace w' = trace w ++
                 [EvRequest (Chunk.text chunk) voiceId
                    (fishAudio (requests w) (Chunk.text chunk) voiceId);
                  EvConsoleError (SynthesisError message);
                  EvSleep 5000] ->
      turn chunksData chunksDir voiceId i sc ec w chunk
        (Return (Loop.mk i sc (S ec))) w'.

(** *** The scripts as processes *)

(** [JSON.parse] of the text of a chapter file, when it is a chapter
    document, and [JSON.stringify(chunksData, null, 2)]. *)
Variable parseChapter : jsstring -> option chapter.
Variable stringify : Manifest.t -> jsstring.

Definition chapterFileOf (chapterNum : nat) (lang : jsstring) : jsstring :=
  join (join (join (join root (u "i18n")) lang) (u "chapters"))
    (u "ch" ++ showNat chapterNum ++ u ".json").

(** [fs.readFileSync(p, 'utf8')]: the text, or the message of the error
    thrown. *)
Definition readFileSync (w : world) (p : jsstring) : jsstring + jsstring :=
  match files w !! p with
  | Some (File data) => inl data
  | Some Dir => inr (u "EISDIR: illegal operation on a directory, read")
  | None => inr (u "ENOENT: no such file or directory")
  end.

(** [prepareChapterChunks(chapterNum, lang)] with its reading and writing:
    the chapter file is read and parsed, the manifest is planned and saved
    as [chunks.json].  The line that names a chapter file that is not
    there is not traced. *)
Definition prepareChapterChunks_files (chapterNum : nat) (lang : jsstring)
    (w : world) : completion Manifest.t * world :=
  let chapterFile := chapterFileOf chapterNum lang in
  if negb (existsSync w chapterFile) then (Exit 1, w)
  else
    match readFileSync w chapterFile with
    | inr message => (Throw message, w)
    | inl text =>
        match parseChapter text with
        | None => (Throw (u "Unexpected token in JSON"), w)
        | Some ch =>
            let chunksData := prepareChapterChunks chapterNum lang ch in
            let outputDir :=
              join (join (join root (u "audio")) lang)
                (u "ch" ++ showNat chapterNum) in
            let w := ensureDir outputDir w in
            let chunksFile := join outputDir (u "chunks.json") in
            let w := writeFileSync chunksFile (stringify chunksData) w in
            (Return chunksData, w)
        end
    end.

(** The exit status of the planner after a call of
    [prepareChapterChunks]: an error nobody catches ends the process with
    status one. *)
Definition prepareExitStatus {A : Type} (r : completion A) : Z :=
  match r with
  | Return _ => 0
  | Throw _ => 1
  | Exit code => code
  end.

(** [for (let i = 1; i <= 11; i++) prepareChapterChunks(i, lang)], over the
    chapter numbers left. *)
Fixpoint prepareAll (lang : jsstring) (chapterNums : list nat) (w : world)
    : ending * world :=
  match chapterNums with
  | [] => (Ended 0, w)
  | i :: rest =>
      match prepareChapterChunks_files i lang w with
      | (Return _, w) => prepareAll lang rest w
      | (r, w) => (Ended (prepareExitStatus r), w)
      end
  end.

(** [main] of prepare-audio-chunks.js on [process.argv.slice(2)]. *)
Definition prepareMain (args : list jsstring) (w : world) : ending * world :=
  match args with
  | chapterArg :: lang :: _ =>
      if negb (knownLang lang) then (LanguageRejected, w)
      else if bool_decide (chapterArg = u "all") then prepareAll lang (seq 1 11) w
      else
        match chapterOf chapterArg with
        | None => (ChapterRejected, w)
        | Some chapterNum =>
            let '(r, w) := prepareChapterChunks_files chapterNum lang w in
            (Ended (prepareExitStatus r), w)
        end
  | _ => (UsageShown, w)
  end.

(** [main] of generate-chapter-audio.js, where [chunksData] is what the
    [chunks.json] of the chapter named on the command line parses to. *)
Definition generateMain (fuel : nat) (args : list jsstring)
    (chunksData : Manifest.t) (w : world) : option (ending * world) :=
  match args with
  | arg :: lang :: _ =>
      match chapterOf arg with
      | None => Some (ChapterRejected, w)
      | Some chapterNum =>
          if negb (knownLang lang) then Some (LanguageRejected, w)
          else
            match generateChapterAudio fuel chapterNum lang chunksData w with
            | None => None
            | Some (r, w) => Some (Ended (generateExitStatus r), w)
            end
      end
  | _ => Some (UsageShown, w)
  end.

(** [main] of concat-chapter-audio.js. *)
Definition concatMain (args : list jsstring) (chunksData : Manifest.t)
    (w : world) : ending * world :=
  match args with
  | arg :: lang :: _ =>
      match chapterOf arg with
      | None => (ChapterRejected, w)
      | Some chapterNum =>
          if negb (knownLang lang) then (LanguageRejected, w)
          else
            let '(r, w) := concatChapterAudio chapterNum lang chunksData w in
            (Ended (concatExitStatus r), w)
      end
  | _ => (UsageShown, w)
  end.

(** *** The scripts reading the manifest, and the script that runs them *)

(** [JSON.parse] of the text of a [chunks.json], when it is a manifest. *)
Variable parseManifest : jsstring -> option Manifest.t.

(** [generateChapterAudio(chapterNum, lang)] with its reading of
    [chunks.json]. *)
Definition generateChapterAudio_files (fuel : nat) (chapterNum : nat)
    (lang : jsstring) (w : world) : option (completion Result.t * world) :=
  let chunksFile := join (audioDirOf chapterNum lang) (u "chunks.json") in
  if negb (existsSync w chunksFile) then
    Some (Exit 1, consoleError (ChunksFileNotFound chunksFile) w)
  else
    match readFileSync w chunksFile with
    | inr message => Some (Throw message, w)
    | inl text =>
        match parseManifest text with
        | None => Some (Throw (u "Unexpected token in JSON"), w)
        | Some chunksData => generateChapterAudio fuel chapterNum lang chunksData w
        end
    end.

(** [concatChapterAudio(chapterNum, lang)] with its reading of
    [chunks.json]. *)
Definition concatChapterAudio_files (chapterNum : nat) (lang : jsstring)
    (w : world) : completion jsstring * world :=
  let audioDir := audioDirOf chapterNum lang in
  let chunksFile := join audioDir (u "chunks.json") in
  let chunksDir := join audioDir (u "chunks") in
  if negb (existsSync w chunksFile) then
    (Exit 1, consoleError (ChunksFileNotFound chunksFile) w)
  else if negb (existsSync w chunksDir) then
    (Exit 1, consoleError (ChunksDirNotFound chunksDir) w)
  else
    match readFileSync w chunksFile with
    | inr message => (Throw message, w)
    | inl text =>
        match parseManifest text with
        | None => (Throw (u "Unexpected token in JSON"), w)
        | Some chunksData => concatChapterAudio chapterNum lang chunksData w
        end
    end.

(** The two [main]s as the processes that read the manifest themselves. *)
Definition generateMain_files (fuel : nat) (args : list jsstring) (w : world)
    : option (ending * world) :=
  match args with
  | arg :: lang :: _ =>
      match chapterOf arg with
      | None => Some (ChapterRejected, w)
      | Some chapterNum =>
          if negb (knownLang lang) then Some (LanguageRejected, w)
          else
            match generateChapterAudio_files fuel chapterNum lang w with
            | None => None
            | Some (r, w) => Some (Ended (generateExitStatus r), w)
            end
      end
  | _ => Some (UsageShown, w)
  end.

Definition concatMain_files (args : list jsstring) (w : world) : ending * world :=
  match args with
  | arg :: lang :: _ =>
      match chapterOf arg with
      | None => (ChapterRejected, w)
      | Some chapterNum =>
          if negb (knownLang lang) then (LanguageRejected, w)
          else
            let '(r, w) := concatChapterAudio_files chapterNum lang w in
            (Ended (concatExitStatus r), w)
      end
  | _ => (UsageShown, w)
  end.

(** build-reiki-audiobook.js.  [runCommand] is true when the process it
    runs ends with status zero. *)
Definition succeeded (e : ending) : bool := (statusOf e =? 0)%Z.

(** [buildChapter(chapterNum, lang)]: the three scripts in a row on the
    arguments [`${chapterNum} ${lang}`], for a chapter number and a
    language that [main] let through; a step that fails ends it. *)
Definition buildChapter (fuel : nat) (chapterNum : nat) (lang : jsstring)
    (w : world) : option (bool * world) :=
  let args := [showNat chapterNum; lang] in
  let '(e, w) := prepareMain args w in
  if negb (succeeded e) then Some (false, w)
  else
    match generateMain_files fuel args w with
    | None => None
    | Some (e, w) =>
        if negb (succeeded e) then Some (false, w)
        else
          let '(e, w) := concatMain_files args w in
          if negb (succeeded e) then Some (false, w) else Some (true, w)
    end.

(** [for (let i = 1; i <= 11; i++)] of its [main], over the chapter
    numbers left, from the counts so far. *)
Fixpoint buildAll (fuel : nat) (lang : jsstring) (chapterNums : list nat)
    (successCount failCount : nat) (w : world) : option (nat * nat * world) :=
  match chapterNums with
  | [] => Some (successCount, failCount, w)
  | i :: rest =>
      match buildChapter fuel i lang w with
      | None => None
      | Some (true, w) => buildAll fuel lang rest (S successCount) failCount w
      | Some (false, w) => buildAll fuel lang rest successCount (S failCount) w
      end
  end.

(** [main] of build-reiki-audiobook.js. *)
Definition buildMain (fuel : nat) (args : list jsstring) (w : world)
    : option (ending * world) :=
  match args with
  | chapterArg :: lang :: _ =>
      if negb (knownLang lang) then Some (LanguageRejected, w)
      else if bool_decide (chapterArg = u "all") then
        match buildAll fuel lang (seq 1 11) 0 0 w with
        | None => None
        | Some (_, failCount, w) =>
            Some (Ended (if bool_decide (failCount = 0) then 0 else 1), w)
        end
      else
        match chapterOf chapterArg with
        | None => Some (ChapterRejected, w)
        | Some chapterNum =>
            match buildChapter fuel chapterNum lang w with
            | None => None
            | Some (true, w) => Some (Ended 0, w)
            | Some (false, w) => Some (Ended 1, w)
            end
        end
  | _ => Some (UsageShown, w)
  end.

(** ** The planner *)

Lemma isLastIndex_decide (k n : nat) :
  (Z.of_nat k =? Z.of_nat n - 1)%Z = bool_decide (S k = n).
Proof.
  destruct (Z.eqb_spec (Z.of_nat k) (Z.of_nat n - 1)) as [E | E];
    symmetry; [apply bool_decide_eq_true | apply bool_decide_eq_false]; lia.
Qed.

(** One call of the inner callback either leaves the state alone (the block
    does not survive) or pushes the unit of the block. *)
Lemma planBlock_step chapterNum ls nb chunks idx b k :
  let p := {| block := b; isLastBlock := bool_decide (S k = nb);
              isLastSection := ls |} in
  planBlock chapterNum ls nb (chunks, idx) b k =
  if survives p then (chunks ++ [unitOf chapterNum idx p], S idx)
  else (chunks, idx).
Proof.
  intros p. unfold planBlock, survives, unitOf, pausePolicy, basePause.
  rewrite isLastIndex_decide. subst p. simpl.
  destruct (cleanText (Block.text b)) as [| c t] eqn:E; simpl; [reflexivity |].
  destruct (bool_decide (S k = nb)), ls; reflexivity.
Qed.

Lemma forEach_planBlock chapterNum ls nb bs : forall k chunks idx,
  forEach_from (planBlock chapterNum ls nb) bs k (chunks, idx) =
  (chunks ++ imap (fun m => unitOf chapterNum (idx + m))
               (filter (fun p => survives p = true) (placedFrom ls nb k bs)),
   idx + length (filter (fun p => survives p = true) (placedFrom ls nb k bs))).
Proof.
  induction bs as [| b bs IH]; intros k chunks idx; cbn [forEach_from].
  - simpl. rewrite app_nil_r, Nat.add_0_r. reflexivity.
  - rewrite planBlock_step. unfold placedFrom in *. rewrite imap_cons.
    rewrite Nat.add_0_r.
    assert (Hext : imap ((fun j b0 => {| block := b0;
                          isLastBlock := bool_decide (S (k + j) = nb);
                          isLastSection := ls |}) ∘ S) bs
                   = imap (fun j b0 => {| block := b0;
                          isLastBlock := bool_decide (S (S k + j) = nb);
                          isLastSection := ls |}) bs).
    { apply imap_ext. intros j x _. simpl. do 2 f_equal. 
      apply bool_decide_ext. lia. }
    rewrite Hext. clear Hext.
    set (p := {| block := b; isLastBlock := bool_decide (S k = nb);
                 isLastSection := ls |}).
    destruct (survives p) eqn:Hs.
    + rewrite filter_cons_True by exact Hs.
      rewrite IH. simpl. rewrite <- app_assoc. simpl.
      rewrite Nat.add_0_r. f_equal; [| lia].
      do 2 f_equal. apply imap_ext. intros m x _. simpl. f_equal. lia.
    + rewrite filter_cons_False by (rewrite Hs; discriminate).
      rewrite IH. reflexivity.
Qed.

Lemma forEach_planSection chapterNum ns secs : forall j chunks idx,
  forEach_from (planSection chapterNum ns) secs j (chunks, idx) =
  (chunks ++ imap (fun m => unitOf chapterNum (idx + m))
               (filter (fun p => survives p = true) (placedSections ns j secs)),
   idx + length (filter (fun p => survives p = true) (placedSections ns j secs))).
Proof.
  induction secs as [| sec secs IH]; intros j chunks idx; cbn [forEach_from].
  - simpl. rewrite app_nil_r, Nat.add_0_r. reflexivity.
  - unfold planSection at 2, forEach. rewrite isLastIndex_decide.
    rewrite forEach_planBlock, IH.
    unfold placedSections. rewrite imap_cons. cbn [concat].
    rewrite Nat.add_0_r, filter_app, imap_app, length_app, <- app_assoc.
    assert (Hext : imap ((fun j' sec0 =>
                            placedFrom (bool_decide (S (j + j') = ns))
                              (length (content sec0)) 0 (content sec0)) ∘ S) secs
                   = imap (fun j' sec0 =>
                            placedFrom (bool_decide (S (S j + j') = ns))
                              (length (content sec0)) 0 (content sec0)) secs).
    { apply imap_ext. intros j' x _. simpl. f_equal. apply bool_decide_ext. lia. }
    rewrite Hext. f_equal; [| lia].
    do 2 f_equal. apply imap_ext. intros m x _. simpl. f_equal. lia.
Qed.

Lemma placedBlocks_sections (ch : chapter) :
  placedBlocks ch = placedSections (length (sections ch)) 0 (sections ch).
Proof. reflexivity. Qed.

(** The manifest of a chapter: the intro unit, then the units of the
    surviving blocks in reading order, numbered from one. *)
Lemma prepareChapterChunks_chunks chapterNum lang ch :
  Manifest.chunks (prepareChapterChunks chapterNum lang ch) =
  introChunk chapterNum ch :: imap (fun m => unitOf chapterNum (S m)) (survivors ch).
Proof.
  unfold prepareChapterChunks, forEach. rewrite forEach_planSection.
  rewrite <- placedBlocks_sections. reflexivity.
Qed.

Lemma prepareChapterChunks_total chapterNum lang ch :
  Manifest.totalChunks (prepareChapterChunks chapterNum lang ch) =
  Z.of_nat (length (Manifest.chunks (prepareChapterChunks chapterNum lang ch))).
Proof.
  unfold prepareChapterChunks, forEach. rewrite forEach_planSection. reflexivity.
Qed.

(** A view of the units that does not look at their ids depends on the
    surviving blocks only. *)
Lemma map_imap_unitOf {B : Type} chapterNum (f : Chunk.t -> B) (g : placed -> B)
    (ps : list placed) :
  (forall i p, f (unitOf chapterNum i p) = g p) ->
  forall k, map f (imap (fun m => unitOf chapterNum (k + m)) ps) = map g ps.
Proof.
  intros Hfg. induction ps as [| p ps IH]; intros k; [reflexivity |].
  rewrite imap_cons. cbn [map]. rewrite Hfg. f_equal.
  rewrite <- (IH (S k)). f_equal. apply imap_ext. intros m x _. simpl.
  f_equal. lia.
Qed.

Lemma imap_unitOf_ids chapterNum (ps : list placed) : forall k,
  map Chunk.id (imap (fun m => unitOf chapterNum (k + m)) ps)
  = map (chunkId chapterNum) (seq k (length ps)).
Proof.
  induction ps as [| p ps IH]; intros k; [reflexivity |].
  rewrite imap_cons. cbn [map length seq]. rewrite Nat.add_0_r. f_equal.
  rewrite <- (IH (S k)). f_equal. apply imap_ext. intros m x _. simpl.
  f_equal. lia.
Qed.

Lemma placedFrom_blocks ls nb bs : forall k,
  map block (placedFrom ls nb k bs) = bs.
Proof.
  induction bs as [| b bs IH]; intros k; [reflexivity |].
  unfold placedFrom in *. rewrite imap_cons. cbn [map block]. f_equal.
  rewrite <- (IH (S k)) at 2. f_equal. apply imap_ext. intros j x _. simpl.
  do 2 f_equal. apply bool_decide_ext. lia.
Qed.

Lemma placedSections_blocks ns secs : forall j,
  map block (placedSections ns j secs) = concat (map content secs).
Proof.
  induction secs as [| sec secs IH]; intros j; [reflexivity |].
  unfold placedSections in *. rewrite imap_cons. cbn [concat map].
  rewrite map_app, placedFrom_blocks. f_equal.
  rewrite <- (IH (S j)). do 2 f_equal. apply imap_ext. intros j' x _. simpl.
  f_equal. apply bool_decide_ext. lia.
Qed.

Lemma survivors_texts (ps : list placed) :
  map (fun p => cleanText (Block.text (block p)))
    (filter (fun p => survives p = true) ps)
  = filter (fun t => t <> [])
      (map (fun b => cleanText (Block.text b)) (map block ps)).
Proof.
  induction ps as [| p ps IH]; [reflexivity |].
  cbn [map]. unfold survives at 1.
  destruct (decide (cleanText (Block.text (block p)) = [])) as [E | E].
  - rewrite filter_cons_False.
    2:{ unfold survives. rewrite bool_decide_eq_true_2 by exact E. discriminate. }
    rewrite filter_cons_False by (intros H; apply H; exact E). exact IH.
  - rewrite filter_cons_True.
    2:{ unfold survives. rewrite bool_decide_eq_false_2 by exact E. reflexivity. }
    rewrite filter_cons_True by exact E. cbn [map]. f_equal. exact IH.
Qed.

(** C1: the intro unit gets the 2.0s pause; the unit of a surviving block
    gets 3.0s when the block is the last of the last section, otherwise
    2.5s when it is the last of its section, otherwise 1.5s for a quote and
    0.8s for a paragraph (any block that is not a quote). *)
Theorem planner_pause_precedence (chapterNum : nat) (lang : jsstring) (ch : chapter) :
  map (fun c => (Chunk.type c, Chunk.text c, Chunk.pauseAfter c))
    (Manifest.chunks (prepareChapterChunks chapterNum lang ch))
  = (u "intro", numberText ch ++ u ". " ++ title ch, 2.0%float) ::
    map (fun p =>
           (Block.type (block p), cleanText (Block.text (block p)),
            if isLastBlock p && isLastSection p then 3.0%float
            else if isLastBlock p then 2.5%float
            else if bool_decide (Block.type (block p) = u "quote") then 1.5%float
            else 0.8%float))
      (survivors ch).
Proof.
  rewrite prepareChapterChunks_chunks. cbn [map]. f_equal.
  apply (map_imap_unitOf chapterNum _ _ (survivors ch)) with (k := 1).
  intros i p. reflexivity.
Qed.

(** C6: the ids of the emitted units are the consecutive ordinals 0, 1, 2,
    ... with no gap, and the emitted texts are the intro followed by exactly
    the non-empty cleaned texts of the blocks, in reading order: a block
    whose cleaned text is empty emits no unit and consumes no id. *)
Theorem planner_ids_consecutive (chapterNum : nat) (lang : jsstring) (ch : chapter) :
  let chunks := Manifest.chunks (prepareChapterChunks chapterNum lang ch) in
  map Chunk.id chunks = map (chunkId chapterNum) (seq 0 (length chunks))
  /\ map Chunk.text chunks
     = (numberText ch ++ u ". " ++ title ch) ::
       filter (fun t => t <> [])
         (map (fun b => cleanText (Block.text b)) (concat (map content (sections ch)))).
Proof.
  cbv zeta. rewrite prepareChapterChunks_chunks. split.
  - cbn [map length seq]. f_equal.
    rewrite length_imap. apply (imap_unitOf_ids chapterNum (survivors ch) 1).
  - cbn [map]. f_equal.
    etransitivity;
      [apply (map_imap_unitOf chapterNum _
                (fun p => cleanText (Block.text (block p))) (survivors ch))
         with (k := 1); reflexivity |].
    unfold survivors. rewrite survivors_texts, placedBlocks_sections.
    rewrite placedSections_blocks. reflexivity.
Qed.

Lemma placedFrom_elem ls nb k bs (p : placed) :
  p ∈ placedFrom ls nb k bs ->
  exists j x, bs !! j = Some x
    /\ p = {| block := x; isLastBlock := bool_decide (S (k + j) = nb);
              isLastSection := ls |}.
Proof.
  unfold placedFrom. intros H. apply elem_of_lookup_imap in H.
  destruct H as (j & x & -> & Hx). eauto.
Qed.

Lemma placedSections_elem ns j secs (p : placed) :
  p ∈ placedSections ns j secs ->
  exists j' sec, secs !! j' = Some sec
    /\ p ∈ placedFrom (bool_decide (S (j + j') = ns))
             (length (content sec)) 0 (content sec).
Proof.
  unfold placedSections. intros H. apply list_elem_of_In, in_concat in H.
  destruct H as (l & Hl & Hp). apply list_elem_of_In in Hl, Hp.
  apply elem_of_lookup_imap in Hl. destruct Hl as (j' & sec & -> & Hsec).
  eauto.
Qed.

(** A placed block that is the last of the last section is the last block
    of the last section of the document. *)
Lemma last_of_last_is_final (ch : chapter) secs s bs b (p : placed) :
  sections ch = secs ++ [s] -> content s = bs ++ [b] ->
  p ∈ placedBlocks ch ->
  isLastBlock p && isLastSection p = true ->
  block p = b.
Proof.
  intros Hsecs Hbs Hp Hlast. rewrite placedBlocks_sections in Hp.
  apply placedSections_elem in Hp. destruct Hp as (j' & sec & Hsec & Hp).
  apply placedFrom_elem in Hp. destruct Hp as (j & x & Hx & ->).
  cbn [isLastBlock isLastSection block] in *.
  apply andb_true_iff in Hlast. destruct Hlast as [Hb Hs].
  apply bool_decide_eq_true in Hb, Hs.
  rewrite Hsecs, length_app in Hs. cbn [length] in Hs.
  assert (j' = length secs) by lia. subst j'.
  rewrite Hsecs, list_lookup_middle in Hsec by reflexivity.
  injection Hsec as <-. rewrite Hbs in Hx, Hb.
  rewrite length_app in Hb. cbn [length] in Hb.
  assert (j = length bs) by lia. subst j.
  rewrite list_lookup_middle in Hx by reflexivity. congruence.
Qed.

Lemma pause_not_chapter_end (lastBlock quote : bool) :
  (if lastBlock then 2.5%float else if quote then 1.5%float else 0.8%float)
  <> 3.0%float.
Proof.
  intros H. apply (f_equal (fun x => PrimFloat.eqb x 3.0%float)) in H.
  destruct lastBlock, quote; vm_compute in H; discriminate.
Qed.

Lemma title_pause_not_chapter_end : 2.0%float <> 3.0%float.
Proof.
  intros H. apply (f_equal (fun x => PrimFloat.eqb x 3.0%float)) in H.
  vm_compute in H. discriminate.
Qed.

(** C10: when the last block of the last section cleans to the empty text,
    no emitted unit has the 3.0s chapter-end pause: every unit of a block
    keeps the pause of its own place in the document, 2.5s at the end of
    its section and the pause of its type elsewhere. *)
Theorem skipped_final_block_no_chapter_end (chapterNum : nat) (lang : jsstring)
    (ch : chapter) (secs : list section) (s : section) (bs : list Block.t)
    (b : Block.t) :
  sections ch = secs ++ [s] ->
  content s = bs ++ [b] ->
  cleanText (Block.text b) = [] ->
  let chunks := Manifest.chunks (prepareChapterChunks chapterNum lang ch) in
  Forall (fun c => Chunk.pauseAfter c <> 3.0%float) chunks
  /\ map Chunk.pauseAfter chunks
     = 2.0%float ::
       map (fun p =>
              if isLastBlock p then 2.5%float
              else if bool_decide (Block.type (block p) = u "quote") then 1.5%float
              else 0.8%float)
         (survivors ch).
Proof.
  intros Hsecs Hbs Hempty chunks.
  assert (Hpauses : map Chunk.pauseAfter chunks
     = 2.0%float ::
       map (fun p =>
              if isLastBlock p then 2.5%float
              else if bool_decide (Block.type (block p) = u "quote") then 1.5%float
              else 0.8%float)
         (survivors ch)).
  { subst chunks. rewrite prepareChapterChunks_chunks. cbn [map]. f_equal.
    etransitivity;
      [apply (map_imap_unitOf chapterNum _ pausePolicy (survivors ch))
         with (k := 1); reflexivity |].
    apply map_ext_in. intros p Hp. apply list_elem_of_In in Hp.
    unfold survivors in Hp. apply list_elem_of_filter in Hp.
    destruct Hp as [Hsurv Hp]. unfold pausePolicy, basePause.
    destruct (isLastBlock p && isLastSection p) eqn:Hlast; [| reflexivity].
    exfalso.
    pose proof (last_of_last_is_final ch secs s bs b p Hsecs Hbs Hp Hlast) as Hb.
    unfold survives in Hsurv. rewrite Hb, Hempty in Hsurv. discriminate. }
  split; [| exact Hpauses].
  apply (proj1 (Forall_map Chunk.pauseAfter (fun x => x <> 3.0%float) chunks)).
  rewrite Hpauses. constructor.
  - exact title_pause_not_chapter_end.
  - apply Forall_map, Forall_forall. intros p _.
    apply (pause_not_chapter_end (isLastBlock p)).
Qed.

(** ** The silence library *)

Lemma existsSync_insert (w w' : world) (p q : jsstring) (n : node) :
  files w' = <[p := n]> (files w) ->
  existsSync w' q = (bool_decide (p = q) || existsSync w q).
Proof.
  unfold existsSync. intros ->. rewrite lookup_insert.
  destruct (decide (p = q)) as [E | E].
  - rewrite (bool_decide_eq_true_2 (p = q)) by exact E.
    apply bool_decide_eq_true. eauto.
  - rewrite (bool_decide_eq_false_2 (p = q)) by exact E. reflexivity.
Qed.

Lemma existsSync_files (w w' : world) (q : jsstring) :
  files w' = files w -> existsSync w' q = existsSync w q.
Proof. unfold existsSync. intros ->. reflexivity. Qed.

Lemma existsSync_ensureDir (dir : jsstring) (w : world) (q : jsstring) :
  existsSync w q = true -> existsSync (ensureDir dir w) q = true.
Proof.
  intros H. unfold ensureDir. destruct (existsSync w dir); [exact H |].
  rewrite (existsSync_insert w _ dir q Dir) by reflexivity.
  rewrite H. apply orb_true_r.
Qed.

(** What one run of ffmpeg leaves: the command is traced, no request is
    sent, no file disappears, and a completed run leaves its output. *)
Lemma execSync_effect (command outputPath : jsstring) (w : world) r w' :
  execSync command outputPath w = (r, w') ->
  trace w' = trace w ++ [EvExec command]
  /\ requests w' = requests w
  /\ (forall q, existsSync w q = true -> existsSync w' q = true)
  /\ (forall stdout, r = inl stdout -> existsSync w' outputPath = true).
Proof.
  unfold execSync. intros H.
  destruct (ffmpeg command (files (emit (EvExec command) w)))
    as [stdout output | message [output |]];
    injection H as <- <-; cbn [trace requests emit].
  - repeat split.
    + intros q Hq.
      rewrite (existsSync_insert w _ outputPath q (File output)) by reflexivity.
      rewrite Hq. apply orb_true_r.
    + intros _ _.
      rewrite (existsSync_insert w _ outputPath outputPath (File output))
        by reflexivity.
      rewrite bool_decide_eq_true_2 by reflexivity. reflexivity.
  - repeat split.
    + intros q Hq.
      rewrite (existsSync_insert w _ outputPath q (File output)) by reflexivity.
      rewrite Hq. apply orb_true_r.
    + intros stdout' Hr. discriminate.
  - repeat split.
    + intros q Hq. exact Hq.
    + intros stdout' Hr. discriminate.
Qed.

Lemma noRequest_refl (w : world) : noRequest w w.
Proof.
  repeat split; [| auto]. exists []. rewrite app_nil_r. auto.
Qed.

Lemma noRequest_trans (w1 w2 w3 : world) :
  noRequest w1 w2 -> noRequest w2 w3 -> noRequest w1 w3.
Proof.
  intros (Hr1 & (t1 & Ht1 & Hq1) & He1) (Hr2 & (t2 & Ht2 & Hq2) & He2).
  repeat split; [congruence | | auto].
  exists (t1 ++ t2). rewrite Ht2, Ht1, app_assoc. split; [reflexivity |].
  apply Forall_app; auto.
Qed.

Lemma noRequest_ensureDir (dir : jsstring) (w : world) :
  noRequest w (ensureDir dir w).
Proof.
  repeat split.
  - unfold ensureDir. destruct (existsSync w dir); reflexivity.
  - exists []. rewrite app_nil_r. split; [| constructor].
    unfold ensureDir. destruct (existsSync w dir); reflexivity.
  - intros q. apply existsSync_ensureDir.
Qed.

Lemma noRequest_consoleError (line : errorLine) (w : world) :
  noRequest w (consoleError line w).
Proof.
  repeat split; [| auto]. exists [EvConsoleError line]. split; [reflexivity |].
  repeat constructor.
Qed.

Lemma noRequest_execSync (command outputPath : jsstring) (w : world) r w' :
  execSync command outputPath w = (r, w') -> noRequest w w'.
Proof.
  intros H. apply execSync_effect in H. destruct H as (Ht & Hr & He & _).
  repeat split; [exact Hr | | exact He].
  exists [EvExec command]. split; [exact Ht | repeat constructor].
Qed.

Lemma noRequest_count429 (w w' : world) :
  noRequest w w' -> count429 (trace w') = count429 (trace w).
Proof.
  intros (_ & (t & -> & Ht) & _). unfold count429.
  rewrite filter_app, length_app.
  assert (Hnil : filter (fun e => isThrottled e = true) t = []).
  { induction Ht as [| e t He Ht IH]; [reflexivity |].
    rewrite filter_cons_False; [exact IH |].
    destruct e; discriminate. }
  rewrite Hnil. cbn. lia.
Qed.

(** [generateSilence] on a duration whose clip exists does nothing. *)
Lemma generateSilence_exists (duration : float) (outputPath : jsstring) (w : world) :
  existsSync w outputPath = true ->
  generateSilence duration outputPath w = (Return tt, w).
Proof. unfold generateSilence. intros ->. reflexivity. Qed.

(** [generateSilence] on a duration whose clip is missing runs ffmpeg once;
    when ffmpeg completes the clip is there. *)
Lemma generateSilence_creates (duration : float) (outputPath : jsstring)
    (w : world) (stdout : jsstring) (output : list N) :
  existsSync w outputPath = false ->
  ffmpeg (silenceCommand duration outputPath) (files w) = FfmpegDone stdout output ->
  generateSilence duration outputPath w
  = (Return tt,
     {| files := <[outputPath := File output]> (files w);
        trace := trace w ++ [EvExec (silenceCommand duration outputPath)];
        requests := requests w |}).
Proof.
  unfold generateSilence, execSync. intros -> Hff. cbn [emit files].
  rewrite Hff. reflexivity.
Qed.

Lemma generateSilence_effect (duration : float) (outputPath : jsstring)
    (w : world) c w' :
  generateSilence duration outputPath w = (c, w') ->
  noRequest w w' /\ (c = Return tt -> existsSync w' outputPath = true).
Proof.
  unfold generateSilence. destruct (existsSync w outputPath) eqn:Hex.
  - intros H. injection H as <- <-. split; [apply noRequest_refl | auto].
  - destruct (execSync (silenceCommand duration outputPath) outputPath w)
      as [[stdout | message] w1] eqn:Hexec; intros H; injection H as <- <-.
    + split; [eapply noRequest_execSync; eauto |].
      intros _. apply execSync_effect in Hexec.
      destruct Hexec as (_ & _ & _ & Hout). eauto.
    + split; [| discriminate].
      eapply noRequest_trans; [eapply noRequest_execSync; eauto |].
      apply noRequest_consoleError.
Qed.

Lemma generateSilences_effect (silencesDir : jsstring) (ds : list float) :
  forall (w : world) c w',
  generateSilences silencesDir ds w = (c, w') ->
  noRequest w w'
  /\ (c = Return tt ->
      Forall (fun d => existsSync w' (silencePath silencesDir d) = true) ds).
Proof.
  induction ds as [| d ds IH]; intros w c w' H; cbn [generateSilences] in H.
  - injection H as <- <-. split; [apply noRequest_refl | constructor].
  - destruct (generateSilence d (silencePath silencesDir d) w) as [c1 w1] eqn:H1.
    apply generateSilence_effect in H1. destruct H1 as [Hn1 Hex1].
    destruct c1 as [[] | message | code].
    + apply IH in H. destruct H as [Hn2 Hall]. split.
      * eapply noRequest_trans; eauto.
      * intros Hc. constructor; [| auto].
        destruct Hn2 as (_ & _ & Hmono). apply Hmono. auto.
    + injection H as <- <-. split; [exact Hn1 | discriminate].
    + injection H as <- <-. split; [exact Hn1 | discriminate].
Qed.

Lemma generateAllSilences_effect (audioDir : jsstring) (w : world) c w' :
  generateAllSilences audioDir w = (c, w') ->
  noRequest w w'
  /\ (c = Return tt ->
      Forall (fun d => existsSync w' (silencePath (silencesDirOf audioDir) d) = true)
        durations).
Proof.
  unfold generateAllSilences. intros H. apply generateSilences_effect in H.
  destruct H as [Hn Hall]. split; [| exact Hall].
  eapply noRequest_trans; [apply noRequest_ensureDir | exact Hn].
Qed.

(** When ffmpeg completes every command, the provisioning of any list of
    durations returns. *)
Lemma generateSilences_done (silencesDir : jsstring) (ds : list float) :
  (forall command d, exists stdout output,
     ffmpeg command d = FfmpegDone stdout output) ->
  forall w : world, exists w', generateSilences silencesDir ds w = (Return tt, w').
Proof.
  intros Hff. induction ds as [| d ds IH]; intros w; cbn [generateSilences].
  - eauto.
  - unfold generateSilence.
    destruct (existsSync w (silencePath silencesDir d)); [apply IH |].
    unfold execSync.
    destruct (Hff (silenceCommand d (silencePath silencesDir d))
                (files (emit (EvExec (silenceCommand d (silencePath silencesDir d))) w)))
      as (stdout & output & ->).
    apply IH.
Qed.

(** ** The synthesis loop *)

Lemma count429_app (t t' : list event) :
  count429 (t ++ t') = count429 t + count429 t'.
Proof. unfold count429. rewrite filter_app, length_app. reflexivity. Qed.

(** The message of the error for a response with status 429 contains
    "429". *)
Lemma includes_429 (body : list N) :
  includes (u "API Error " ++ showNat 429 ++ u ": " ++ body) (u "429") = true.
Proof. reflexivity. Qed.

(** A turn on a unit whose clip exists counts it and sends nothing. *)
Lemma loopBody_skip (chunksData : Manifest.t) (chunksDir voiceId : jsstring)
    (i : Z) (sc ec : nat) (w : world) (chunk : Chunk.t) :
  lookupZ (Manifest.chunks chunksData) i = Some chunk ->
  existsSync w (chunkPath chunksDir chunk) = true ->
  loopBody chunksData chunksDir voiceId (Loop.mk i sc ec) w
  = (Return (Loop.mk (i + 1) (S sc) ec), w).
Proof. unfold loopBody. intros -> ->. reflexivity. Qed.

(** A turn on a unit whose request is answered with the status 429: the
    error is counted, the loop sleeps five seconds, and the index is the
    one of the same unit again. *)
Lemma loopBody_throttled (chunksData : Manifest.t) (chunksDir voiceId : jsstring)
    (i : Z) (sc ec : nat) (w : world) (chunk : Chunk.t) (c : N) (key body : list N) :
  lookupZ (Manifest.chunks chunksData) i = Some chunk ->
  existsSync w (chunkPath chunksDir chunk) = false ->
  FISH_API_KEY = Some (c :: key) ->
  fishAudio (requests w) (Chunk.text chunk) voiceId = Response 429 body ->
  loopBody chunksData chunksDir voiceId (Loop.mk i sc ec) w
  = (Return (Loop.mk i sc (S ec)),
     {| files := files w;
        trace := trace w ++
                 [EvRequest (Chunk.text chunk) voiceId (Response 429 body);
                  EvConsoleError
                    (SynthesisError (u "API Error 429: " ++ body));
                  EvSleep 5000];
        requests := S (requests w) |}).
Proof.
  unfold loopBody, textToSpeech. intros -> -> -> ->.
  rewrite bool_decide_eq_false_2 by discriminate.
  rewrite includes_429. unfold sleep, consoleError, emit. cbn [files trace requests].
  rewrite <- !app_assoc. cbn [app].
  replace (i - 1 + 1)%Z with i by lia. reflexivity.
Qed.

Lemma lookupZ_of_nat {A : Type} (l : list A) (k : nat) :
  lookupZ l (Z.of_nat k) = l !! k.
Proof.
  unfold lookupZ. destruct (Z.ltb_spec (Z.of_nat k) 0) as [H | H]; [lia |].
  rewrite Nat2Z.id. reflexivity.
Qed.

Lemma lookupZ_Some {A : Type} (l : list A) (i : Z) (x : A) :
  lookupZ l i = Some x -> (0 <= i < Z.of_nat (length l))%Z.
Proof.
  unfold lookupZ. destruct (Z.ltb_spec i 0) as [H | H]; [discriminate |].
  intros Hx. apply lookup_lt_Some in Hx. lia.
Qed.

(** When the clip of every unit exists the loop runs through the units,
    counting each as a success, and leaves the world as it is. *)
Lemma forLoop_skips (chunksData : Manifest.t) (chunksDir voiceId : jsstring)
    (w : world) :
  (forall chunk, chunk ∈ Manifest.chunks chunksData ->
                 existsSync w (chunkPath chunksDir chunk) = true) ->
  forall (n k sc ec fuel : nat),
    k + n = length (Manifest.chunks chunksData) ->
    n < fuel ->
    forLoop fuel chunksData chunksDir voiceId (Loop.mk (Z.of_nat k) sc ec) w
    = Some (Return (Loop.mk (Z.of_nat (length (Manifest.chunks chunksData)))
                      (sc + n) ec), w).
Proof.
  intros Hall. induction n as [| n IH]; intros k sc ec fuel Hk Hfuel;
    (destruct fuel as [| fuel]; [lia |]); cbn [forLoop Loop.i].
  - rewrite Nat.add_0_r in *. subst k. rewrite Z.ltb_irrefl. reflexivity.
  - destruct (Z.ltb_spec (Z.of_nat k)
                (Z.of_nat (length (Manifest.chunks chunksData)))) as [Hlt | Hge];
      [| lia].
    destruct (lookup_lt_is_Some_2 (Manifest.chunks chunksData) k) as [chunk Hchunk];
      [lia |].
    rewrite (loopBody_skip _ _ _ _ _ _ _ chunk).
    + replace (Z.of_nat k + 1)%Z with (Z.of_nat (S k)) by lia.
      rewrite IH by lia. replace (S sc + n) with (sc + S n) by lia. reflexivity.
    + rewrite lookupZ_of_nat. exact Hchunk.
    + apply Hall. eapply list_elem_of_lookup_2. exact Hchunk.
Qed.

(** While the service answers the requests for a unit with the status 429
    the loop stays on that unit: after [n] throttled answers it has not
    ended. *)
Lemma forLoop_throttled (chunksData : Manifest.t) (chunksDir voiceId : jsstring)
    (i : Z) (chunk : Chunk.t) (c : N) (key : list N) :
  lookupZ (Manifest.chunks chunksData) i = Some chunk ->
  FISH_API_KEY = Some (c :: key) ->
  forall (n sc ec : nat) (w : world),
    existsSync w (chunkPath chunksDir chunk) = false ->
    (forall j, j < n ->
       exists body,
         fishAudio (requests w + j) (Chunk.text chunk) voiceId = Response 429 body) ->
    forLoop n chunksData chunksDir voiceId (Loop.mk i sc ec) w = None.
Proof.
  intros Hchunk Hkey. induction n as [| n IH]; intros sc ec w Hex Hthr;
    [reflexivity |].
  cbn [forLoop Loop.i].
  pose proof (lookupZ_Some _ _ _ Hchunk) as Hi.
  destruct (Z.ltb_spec i (Z.of_nat (length (Manifest.chunks chunksData))))
    as [Hlt | Hge]; [| lia].
  destruct (Hthr 0) as [body Hbody]; [lia |]. rewrite Nat.add_0_r in Hbody.
  rewrite (loopBody_throttled _ _ _ _ _ _ _ chunk c key body) by assumption.
  apply IH.
  - rewrite <- Hex. apply existsSync_files. reflexivity.
  - intros j Hj. cbn [requests]. destruct (Hthr (S j)) as [b Hb]; [lia |].
    exists b. rewrite <- Hb. f_equal. lia.
Qed.

(** C3: when the clip of every unit of the manifest exists and the
    silences are provisioned without failure, the run sends no request,
    counts every unit as a success ([successCount] is [totalChunks],
    [errorCount] is zero) and the process ends with status zero. *)
Theorem rerun_with_all_clips (fuel chapterNum : nat) (lang : jsstring)
    (chunksData : Manifest.t) (w w1 : world) :
  existsSync w (join (audioDirOf chapterNum lang) (u "chunks.json")) = true ->
  (forall chunk, chunk ∈ Manifest.chunks chunksData ->
     existsSync w (chunkPath (join (audioDirOf chapterNum lang) (u "chunks")) chunk)
     = true) ->
  generateAllSilences (join root (u "audio"))
    (ensureDir (join (audioDirOf chapterNum lang) (u "chunks")) w) = (Return tt, w1) ->
  Manifest.totalChunks chunksData = Z.of_nat (length (Manifest.chunks chunksData)) ->
  length (Manifest.chunks chunksData) < fuel ->
  exists r,
    generateChapterAudio fuel chapterNum lang chunksData w = Some (Return r, w1)
    /\ noRequest w w1
    /\ Z.of_nat (Result.successCount r) = Manifest.totalChunks chunksData
    /\ Result.errorCount r = 0
    /\ Result.total r = Manifest.totalChunks chunksData
    /\ generateExitStatus (Return r) = 0%Z.
Proof.
  intros Hfile Hclips Hsil Htotal Hfuel.
  exists (Result.mk (length (Manifest.chunks chunksData)) 0
            (Manifest.totalChunks chunksData)).
  pose proof (generateAllSilences_effect _ _ _ _ Hsil) as [Hn _].
  assert (Hn1 : noRequest w w1).
  { eapply noRequest_trans; [apply noRequest_ensureDir | exact Hn]. }
  repeat split; try (apply Hn1); [| cbn [Result.successCount]; congruence].
  unfold generateChapterAudio. rewrite Hfile. cbn [negb]. rewrite Hsil.
  rewrite (forLoop_skips chunksData _ voiceIdOf w1) with
    (n := length (Manifest.chunks chunksData)) (k := 0) (sc := 0) (ec := 0)
    (fuel := fuel); [reflexivity | | reflexivity | exact Hfuel].
  intros chunk Hchunk. destruct Hn1 as (_ & _ & Hmono). apply Hmono. auto.
Qed.

(** C4, as the code has it: a unit whose request is answered with the
    status 429 is retried after a sleep of five seconds, longer than the
    delay between requests, with the index left on the same unit and the
    error counted; there is no bound on the retries: as long as the answers
    are 429 the loop is still on that unit, after any number of turns. *)
Theorem throttled_unit_retried_while_throttled (chunksData : Manifest.t)
    (chunksDir voiceId : jsstring) (i : Z) (sc ec : nat) (w : world)
    (chunk : Chunk.t) (c : N) (key : list N) (n : nat) :
  lookupZ (Manifest.chunks chunksData) i = Some chunk ->
  existsSync w (chunkPath chunksDir chunk) = false ->
  FISH_API_KEY = Some (c :: key) ->
  (forall j, j < S n ->
     exists body,
       fishAudio (requests w + j) (Chunk.text chunk) voiceId = Response 429 body) ->
  (exists body w',
     loopBody chunksData chunksDir voiceId (Loop.mk i sc ec) w
     = (Return (Loop.mk i sc (S ec)), w')
     /\ trace w' = trace w ++
                   [EvRequest (Chunk.text chunk) voiceId (Response 429 body);
                    EvConsoleError (SynthesisError (u "API Error 429: " ++ body));
                    EvSleep 5000]
     /\ files w' = files w
     /\ requests w' = S (requests w))
  /\ (DELAY_BETWEEN_REQUESTS < 5000)%Z
  /\ forLoop (S n) chunksData chunksDir voiceId (Loop.mk i sc ec) w = None.
Proof.
  intros Hchunk Hex Hkey Hthr. split; [| split; [reflexivity |]].
  - destruct (Hthr 0) as [body Hbody]; [lia |]. rewrite Nat.add_0_r in Hbody.
    exists body. eexists. split.
    + apply (loopBody_throttled _ _ _ _ _ _ _ chunk c key body); assumption.
    + repeat split.
  - apply (forLoop_throttled _ _ _ _ chunk c key); assumption.
Qed.

(** A run on a manifest whose first unit has no clip, against a service
    that answers every request with the status 429, never ends. *)
Lemma generateChapterAudio_throttled_forever (chapterNum : nat) (lang : jsstring)
    (chunksData : Manifest.t) (w w1 : world) (chunk : Chunk.t) (c : N)
    (key : list N) :
  existsSync w (join (audioDirOf chapterNum lang) (u "chunks.json")) = true ->
  generateAllSilences (join root (u "audio"))
    (ensureDir (join (audioDirOf chapterNum lang) (u "chunks")) w) = (Return tt, w1) ->
  Manifest.chunks chunksData !! 0 = Some chunk ->
  existsSync w1 (chunkPath (join (audioDirOf chapterNum lang) (u "chunks")) chunk)
  = false ->
  FISH_API_KEY = Some (c :: key) ->
  (forall k text voiceId, exists body, fishAudio k text voiceId = Response 429 body) ->
  forall fuel, generateChapterAudio fuel chapterNum lang chunksData w = None.
Proof.
  intros Hfile Hsil Hchunk Hex Hkey Hthr fuel.
  unfold generateChapterAudio. rewrite Hfile. cbn [negb]. rewrite Hsil.
  rewrite (forLoop_throttled _ _ _ 0%Z chunk c key); auto.
Qed.

Lemma count429_single (e : event) :
  count429 [e] = if isThrottled e then 1 else 0.
Proof. unfold count429. destruct (isThrottled e) eqn:E; cbn; rewrite E; reflexivity. Qed.

(** The message of a response whose status is not 200 contains "429" when
    the status is 429: a turn that does not retry was not answered 429. *)
Lemma not_includes_not_429 (statusCode : nat) (body : list N) :
  includes (u "API Error " ++ showNat statusCode ++ u ": " ++ body) (u "429") = false ->
  statusCode <> 429.
Proof. intros H ->. rewrite includes_429 in H. discriminate. Qed.

(** One turn of the loop never lowers [successCount + errorCount - i] minus
    the number of answers 429, nor [errorCount] minus that number. *)
Lemma loopBody_potential (chunksData : Manifest.t) (chunksDir voiceId : jsstring)
    (st st' : Loop.t) (w w' : world) :
  loopBody chunksData chunksDir voiceId st w = (Return st', w') ->
  (Z.of_nat (Loop.successCount st + Loop.errorCount st) - Loop.i st
     - Z.of_nat (count429 (trace w))
   <= Z.of_nat (Loop.successCount st' + Loop.errorCount st') - Loop.i st'
     - Z.of_nat (count429 (trace w')))%Z
  /\ (Z.of_nat (Loop.errorCount st) - Z.of_nat (count429 (trace w))
      <= Z.of_nat (Loop.errorCount st') - Z.of_nat (count429 (trace w')))%Z.
Proof.
  destruct st as [i sc ec]. unfold loopBody.
  destruct (lookupZ (Manifest.chunks chunksData) i) as [chunk |]; [| discriminate].
  destruct (existsSync w (chunkPath chunksDir chunk)).
  { intros H. injection H as <- <-. cbn [Loop.successCount Loop.errorCount Loop.i].
    lia. }
  unfold textToSpeech.
  destruct FISH_API_KEY as [[| c key] |].
  1, 3: (cbn [includes]; intros H; injection H as <- <-;
         cbn [Loop.successCount Loop.errorCount Loop.i consoleError emit trace];
         rewrite count429_app, count429_single; cbn [isThrottled]; lia).
  destruct (fishAudio (requests w) (Chunk.text chunk) voiceId)
    as [statusCode body | message].
  - destruct (bool_decide (statusCode = 200)) eqn:H200.
    + apply bool_decide_eq_true in H200. subst statusCode.
      destruct (i <? Manifest.totalChunks chunksData - 1)%Z;
        intros H; injection H as <- <-;
        cbn [Loop.successCount Loop.errorCount Loop.i sleep writeFileSync emit trace];
        rewrite !count429_app, !count429_single; cbn [isThrottled];
        rewrite bool_decide_eq_false_2 by lia; lia.
    + destruct (includes _ (u "429")) eqn:Hinc.
      * intros H; injection H as <- <-;
        cbn [Loop.successCount Loop.errorCount Loop.i sleep consoleError emit trace];
        rewrite !count429_app, !count429_single; cbn [isThrottled].
        destruct (bool_decide (statusCode = 429)); lia.
      * apply not_includes_not_429 in Hinc.
        intros H; injection H as <- <-;
        cbn [Loop.successCount Loop.errorCount Loop.i sleep consoleError emit trace];
        rewrite !count429_app, !count429_single; cbn [isThrottled].
        rewrite bool_decide_eq_false_2 by exact Hinc. lia.
  - destruct (includes message (u "429"));
      intros H; injection H as <- <-;
      cbn [Loop.successCount Loop.errorCount Loop.i sleep consoleError emit trace];
      rewrite !count429_app, !count429_single; cbn [isThrottled]; lia.
Qed.

Lemma forLoop_potential (chunksData : Manifest.t) (chunksDir voiceId : jsstring) :
  forall (fuel : nat) (st st' : Loop.t) (w w' : world),
  forLoop fuel chunksData chunksDir voiceId st w = Some (Return st', w') ->
  (Z.of_nat (Loop.successCount st + Loop.errorCount st) - Loop.i st
     - Z.of_nat (count429 (trace w))
   <= Z.of_nat (Loop.successCount st' + Loop.errorCount st') - Loop.i st'
     - Z.of_nat (count429 (trace w')))%Z
  /\ (Z.of_nat (Loop.errorCount st) - Z.of_nat (count429 (trace w))
      <= Z.of_nat (Loop.errorCount st') - Z.of_nat (count429 (trace w')))%Z
  /\ (Z.of_nat (length (Manifest.chunks chunksData)) <= Loop.i st')%Z.
Proof.
  induction fuel as [| fuel IH]; intros st st' w w' H; [discriminate |].
  cbn [forLoop] in H.
  destruct (Z.ltb_spec (Loop.i st) (Z.of_nat (length (Manifest.chunks chunksData))))
    as [Hlt | Hge].
  - destruct (loopBody chunksData chunksDir voiceId st w) as [[st1 | m | c] w1] eqn:Hb;
      try discriminate.
    apply loopBody_potential in Hb. apply IH in H. lia.
  - injection H as <- <-. lia.
Qed.

(** C9: a run that ends after at least one request was answered with the
    status 429 has counted an error for it: [successCount + errorCount]
    exceeds [totalChunks] by at least the number of such answers, and the
    process ends with status one, whatever became of the retries. *)
Theorem throttled_run_exits_nonzero (fuel chapterNum : nat) (lang : jsstring)
    (chunksData : Manifest.t) (w w' : world) (r : Result.t) :
  generateChapterAudio fuel chapterNum lang chunksData w = Some (Return r, w') ->
  count429 (trace w) < count429 (trace w') ->
  Manifest.totalChunks chunksData = Z.of_nat (length (Manifest.chunks chunksData)) ->
  1 <= Result.errorCount r
  /\ (Manifest.totalChunks chunksData
        + Z.of_nat (count429 (trace w') - count429 (trace w))
      <= Z.of_nat (Result.successCount r + Result.errorCount r))%Z
  /\ (Manifest.totalChunks chunksData
      < Z.of_nat (Result.successCount r + Result.errorCount r))%Z
  /\ generateExitStatus (Return r) = 1%Z.
Proof.
  intros Hrun H429 Htotal. unfold generateChapterAudio in Hrun.
  destruct (negb _); [discriminate |].
  destruct (generateAllSilences _ _) as [[[] | m | c] w1] eqn:Hsil; try discriminate.
  apply generateAllSilences_effect in Hsil. destruct Hsil as [Hn _].
  assert (Hc : count429 (trace w1) = count429 (trace w)).
  { apply noRequest_count429.
    eapply noRequest_trans; [apply noRequest_ensureDir | exact Hn]. }
  destruct (forLoop _ _ _ _ _ _) as [[[st | m | c] w2] |] eqn:Hloop;
    try discriminate.
  injection Hrun as <- <-. apply forLoop_potential in Hloop.
  cbn [Loop.successCount Loop.errorCount Loop.i] in Hloop.
  cbn [Result.successCount Result.errorCount generateExitStatus].
  assert (He : 1 <= Loop.errorCount st) by lia.
  repeat split; try lia.
  rewrite bool_decide_eq_false_2 by lia. reflexivity.
Qed.

(** ** The assembler *)

(** A pause that is not negative is zero exactly when it is not positive. *)
Lemma zero_pause_not_positive (p : float) :
  PrimFloat.leb 0 p = true ->
  PrimFloat.eqb p 0 = negb (PrimFloat.ltb 0 p).
Proof.
  rewrite FloatAxioms.leb_spec, FloatAxioms.ltb_spec, FloatAxioms.eqb_spec.
  unfold SFleb, SFltb, SFeqb.
  assert (H0 : Prim2SF 0 = S754_zero false) by reflexivity. rewrite H0.
  destruct (Prim2SF p) as [[] | [] | | [] m e]; cbn; congruence.
Qed.

(** With every clip and every needed silence there, the loop appends the
    lines of the entries of the manifest and reports nothing missing. *)
Lemma concatLoop_present (chunksDir silencesDir : jsstring) (w : world)
    (chunks : list Chunk.t) :
  forall (concatList : jsstring) (missingChunks : list jsstring),
  (forall chunk, chunk ∈ chunks -> existsSync w (chunkPath chunksDir chunk) = true) ->
  (forall chunk, chunk ∈ chunks ->
     PrimFloat.ltb 0 (Chunk.pauseAfter chunk) = true ->
     existsSync w (silencePath silencesDir (Chunk.pauseAfter chunk)) = true) ->
  concatLoop chunksDir silencesDir chunks concatList missingChunks w
  = (Return (concatList
             ++ concat (map concatLine (concatEntries chunksDir silencesDir chunks)),
             missingChunks), w).
Proof.
  induction chunks as [| chunk chunks IH]; intros concatList missingChunks Hc Hs.
  - cbn. rewrite app_nil_r. reflexivity.
  - cbn [concatLoop]. rewrite Hc by left. cbn [negb].
    assert (Hc' : forall c, c ∈ chunks -> existsSync w (chunkPath chunksDir c) = true)
      by (intros c Hin; apply Hc; right; exact Hin).
    assert (Hs' : forall c, c ∈ chunks ->
              PrimFloat.ltb 0 (Chunk.pauseAfter c) = true ->
              existsSync w (silencePath silencesDir (Chunk.pauseAfter c)) = true)
      by (intros c Hin; apply Hs; right; exact Hin).
    unfold concatEntries in *. cbn [flat_map].
    destruct (PrimFloat.ltb 0 (Chunk.pauseAfter chunk)) eqn:Hp.
    + rewrite (Hs chunk) by (left || exact Hp). cbn [negb].
      rewrite IH by assumption. cbn [app map concat].
      rewrite <- !app_assoc. reflexivity.
    + rewrite IH by assumption. cbn [app map concat].
      rewrite <- !app_assoc. reflexivity.
Qed.

(** However the loop ends, it leaves the files alone and traces nothing but
    a console error; it returns the ids of all the missing clips unless it
    exits on a missing silence. *)
Lemma concatLoop_cases (chunksDir silencesDir : jsstring) (w : world)
    (chunks : list Chunk.t) :
  forall (concatList : jsstring) (missingChunks : list jsstring),
  (exists concatList',
     concatLoop chunksDir silencesDir chunks concatList missingChunks w
     = (Return (concatList', missingChunks ++ missingIds chunksDir w chunks), w))
  \/ (exists silenceFile,
        concatLoop chunksDir silencesDir chunks concatList missingChunks w
        = (Exit 1, consoleError (SilenceFileNotFound silenceFile) w)).
Proof.
  induction chunks as [| chunk chunks IH]; intros concatList missingChunks.
  - left. exists concatList. cbn. rewrite app_nil_r. reflexivity.
  - cbn [concatLoop]. unfold missingIds in *.
    destruct (existsSync w (chunkPath chunksDir chunk)) eqn:Hex; cbn [negb].
    + rewrite filter_cons_False by (rewrite Hex; discriminate).
      destruct (PrimFloat.ltb 0 (Chunk.pauseAfter chunk)); [| apply IH].
      destruct (existsSync w (silencePath silencesDir (Chunk.pauseAfter chunk)));
        cbn [negb]; [apply IH | right; eauto].
    + rewrite filter_cons_True by exact Hex. cbn [map].
      destruct (IH concatList (missingChunks ++ [Chunk.id chunk]))
        as [[cl H] | [sf H]]; [left | right; eauto].
      exists cl. rewrite H, <- app_assoc. reflexivity.
Qed.

(** When every present unit has its silence the loop reaches the end. *)
Lemma concatLoop_returns (chunksDir silencesDir : jsstring) (w : world)
    (chunks : list Chunk.t) :
  forall (concatList : jsstring) (missingChunks : list jsstring),
  (forall chunk, chunk ∈ chunks ->
     existsSync w (chunkPath chunksDir chunk) = true ->
     PrimFloat.ltb 0 (Chunk.pauseAfter chunk) = true ->
     existsSync w (silencePath silencesDir (Chunk.pauseAfter chunk)) = true) ->
  exists concatList',
    concatLoop chunksDir silencesDir chunks concatList missingChunks w
    = (Return (concatList', missingChunks ++ missingIds chunksDir w chunks), w).
Proof.
  induction chunks as [| chunk chunks IH]; intros concatList missingChunks Hs.
  - exists concatList. cbn. rewrite app_nil_r. reflexivity.
  - assert (Hs' : forall c, c ∈ chunks ->
              existsSync w (chunkPath chunksDir c) = true ->
              PrimFloat.ltb 0 (Chunk.pauseAfter c) = true ->
              existsSync w (silencePath silencesDir (Chunk.pauseAfter c)) = true)
      by (intros c Hin; apply Hs; right; exact Hin).
    cbn [concatLoop]. unfold missingIds in *.
    destruct (existsSync w (chunkPath chunksDir chunk)) eqn:Hex; cbn [negb].
    + rewrite filter_cons_False by (rewrite Hex; discriminate).
      destruct (PrimFloat.ltb 0 (Chunk.pauseAfter chunk)) eqn:Hp; [| apply IH, Hs'].
      rewrite (Hs chunk) by (left || assumption). cbn [negb]. apply IH, Hs'.
    + rewrite filter_cons_True by exact Hex. cbn [map].
      destruct (IH concatList (missingChunks ++ [Chunk.id chunk]) Hs') as [cl H].
      exists cl. rewrite H, <- app_assoc. reflexivity.
Qed.

Lemma concatEntries_length (chunksDir silencesDir : jsstring) (chunks : list Chunk.t) :
  length (concatEntries chunksDir silencesDir chunks)
  + length (filter (fun chunk => PrimFloat.ltb 0 (Chunk.pauseAfter chunk) = false) chunks)
  = 2 * length chunks.
Proof.
  induction chunks as [| chunk chunks IH]; [reflexivity |].
  unfold concatEntries in *. cbn [flat_map]. rewrite length_app.
  destruct (PrimFloat.ltb 0 (Chunk.pauseAfter chunk)) eqn:Hp.
  - rewrite filter_cons_False by (rewrite Hp; discriminate). cbn [length]. lia.
  - rewrite filter_cons_True by exact Hp. cbn [length]. lia.
Qed.

Lemma zero_pauses_length (chunks : list Chunk.t) :
  Forall (fun chunk => PrimFloat.leb 0 (Chunk.pauseAfter chunk) = true) chunks ->
  length (filter (fun chunk => PrimFloat.eqb (Chunk.pauseAfter chunk) 0 = true) chunks)
  = length (filter (fun chunk => PrimFloat.ltb 0 (Chunk.pauseAfter chunk) = false) chunks).
Proof.
  induction 1 as [| chunk chunks Hp _ IH]; [reflexivity |].
  apply zero_pause_not_positive in Hp.
  destruct (PrimFloat.ltb 0 (Chunk.pauseAfter chunk)) eqn:Hlt; cbn [negb] in Hp.
  - rewrite !filter_cons_False by (rewrite ?Hp, ?Hlt; discriminate). exact IH.
  - rewrite !filter_cons_True by assumption. cbn [length]. lia.
Qed.

(** What [concatChapterAudio] does once its loop has found every clip and
    silence: it writes the concat list and runs ffmpeg on it. *)
Lemma concatChapterAudio_present (chapterNum : nat) (lang : jsstring)
    (chunksData : Manifest.t) (w : world) :
  existsSync w (join (audioDirOf chapterNum lang) (u "chunks.json")) = true ->
  existsSync w (join (audioDirOf chapterNum lang) (u "chunks")) = true ->
  (forall chunk, chunk ∈ Manifest.chunks chunksData ->
     existsSync w (chunkPath (join (audioDirOf chapterNum lang) (u "chunks")) chunk)
     = true) ->
  (forall chunk, chunk ∈ Manifest.chunks chunksData ->
     PrimFloat.ltb 0 (Chunk.pauseAfter chunk) = true ->
     existsSync w (silencePath (join (join root (u "audio")) (u "silences"))
                     (Chunk.pauseAfter chunk)) = true) ->
  concatChapterAudio chapterNum lang chunksData w
  = match execSync
            (concatCommand (concatListPathOf chapterNum lang)
               (outputFileOf chapterNum lang))
            (outputFileOf chapterNum lang)
            (writeFileSync (concatListPathOf chapterNum lang)
               (concat (map concatLine
                  (concatEntries (join (audioDirOf chapterNum lang) (u "chunks"))
                     (join (join root (u "audio")) (u "silences"))
                     (Manifest.chunks chunksData))))
               w) with
    | (inl _, w') => (Return (outputFileOf chapterNum lang), w')
    | (inr message, w') => (Exit 1, consoleError (FfmpegError message) w')
    end.
Proof.
  intros Hfile Hdir Hclips Hsil. unfold concatChapterAudio.
  rewrite Hfile, Hdir. cbn [negb].
  rewrite concatLoop_present by assumption. reflexivity.
Qed.

(** C2: with every clip and every needed silence there, the concat list
    written and then handed to ffmpeg holds, in manifest order, the clip of
    each unit followed by the silence of that unit's own pause when the
    pause is positive; ffmpeg is run once, on the files with that list; and
    the number of entries is twice the number of units less the units
    without a positive pause, which for pauses that are not negative are the
    units with a zero pause. *)
Theorem concat_list_follows_manifest (chapterNum : nat) (lang : jsstring)
    (chunksData : Manifest.t) (w : world) :
  existsSync w (join (audioDirOf chapterNum lang) (u "chunks.json")) = true ->
  existsSync w (join (audioDirOf chapterNum lang) (u "chunks")) = true ->
  (forall chunk, chunk ∈ Manifest.chunks chunksData ->
     existsSync w (chunkPath (join (audioDirOf chapterNum lang) (u "chunks")) chunk)
     = true) ->
  (forall chunk, chunk ∈ Manifest.chunks chunksData ->
     PrimFloat.ltb 0 (Chunk.pauseAfter chunk) = true ->
     existsSync w (silencePath (join (join root (u "audio")) (u "silences"))
                     (Chunk.pauseAfter chunk)) = true) ->
  let chunks := Manifest.chunks chunksData in
  let entries :=
    flat_map (fun chunk =>
                chunkPath (join (audioDirOf chapterNum lang) (u "chunks")) chunk ::
                if PrimFloat.ltb 0 (Chunk.pauseAfter chunk)
                then [silencePath (join (join root (u "audio")) (u "silences"))
                        (Chunk.pauseAfter chunk)]
                else [])
      chunks in
  let concatList := concat (map concatLine entries) in
  let command :=
    concatCommand (concatListPathOf chapterNum lang) (outputFileOf chapterNum lang) in
  (exists r w' t,
     concatChapterAudio chapterNum lang chunksData w = (r, w')
     /\ trace w' = trace w ++
                   EvWrite (concatListPathOf chapterNum lang) concatList ::
                   EvExec command :: t
     /\ Forall (fun e => match e with EvConsoleError _ => True | _ => False end) t
     /\ r = match ffmpeg command
                    (<[concatListPathOf chapterNum lang := File concatList]> (files w))
            with
            | FfmpegDone _ _ => Return (outputFileOf chapterNum lang)
            | FfmpegFailed _ _ => Exit 1
            end)
  /\ length entries
     + length (filter (fun chunk => PrimFloat.ltb 0 (Chunk.pauseAfter chunk) = false)
                 chunks)
     = 2 * length chunks
  /\ (Forall (fun chunk => PrimFloat.leb 0 (Chunk.pauseAfter chunk) = true) chunks ->
      length entries
      + length (filter (fun chunk => PrimFloat.eqb (Chunk.pauseAfter chunk) 0 = true)
                  chunks)
      = 2 * length chunks).
Proof.
  intros Hfile Hdir Hclips Hsil chunks entries concatList command.
  pose proof (concatEntries_length (join (audioDirOf chapterNum lang) (u "chunks"))
                (join (join root (u "audio")) (u "silences")) chunks) as Hlen.
  split; [| split; [exact Hlen |]].
  - rewrite concatChapterAudio_present by assumption.
    unfold execSync, writeFileSync. cbn [emit files trace requests].
    fold chunks. fold (concatEntries (join (audioDirOf chapterNum lang) (u "chunks"))
                (join (join root (u "audio")) (u "silences")) chunks).
    fold concatList. fold command.
    destruct (ffmpeg command _) as [stdout output | message [output |]].
    + do 2 eexists. exists []. split; [reflexivity |].
      split; [cbn [trace]; rewrite <- ?app_assoc; reflexivity |].
      split; [constructor | reflexivity].
    + do 2 eexists. exists [EvConsoleError (FfmpegError message)].
      split; [reflexivity |].
      split; [unfold consoleError, emit; cbn [trace]; rewrite <- ?app_assoc;
              reflexivity |].
      split; [repeat constructor | reflexivity].
    + do 2 eexists. exists [EvConsoleError (FfmpegError message)].
      split; [reflexivity |].
      split; [unfold consoleError, emit; cbn [trace]; rewrite <- ?app_assoc;
              reflexivity |].
      split; [repeat constructor | reflexivity].
  - intros Hnonneg. rewrite zero_pauses_length by exact Hnonneg. exact Hlen.
Qed.

Lemma foldl_consoleError_missing (ids : list jsstring) : forall (w : world),
  files (foldl (fun w id => consoleError (MissingChunk id) w) w ids) = files w
  /\ trace (foldl (fun w id => consoleError (MissingChunk id) w) w ids)
     = trace w ++ map (fun id => EvConsoleError (MissingChunk id)) ids.
Proof.
  induction ids as [| id ids IH]; intros w; cbn [foldl map].
  - rewrite app_nil_r. auto.
  - destruct (IH (consoleError (MissingChunk id) w)) as [Hf Ht].
    rewrite Hf, Ht. cbn [consoleError emit files trace].
    rewrite <- app_assoc. auto.
Qed.

Lemma missingIds_nonempty (chunksDir : jsstring) (w : world)
    (chunks : list Chunk.t) (chunk : Chunk.t) :
  chunk ∈ chunks ->
  existsSync w (chunkPath chunksDir chunk) = false ->
  missingIds chunksDir w chunks <> [].
Proof.
  intros Hin Hex Hnil. unfold missingIds in Hnil.
  apply map_eq_nil in Hnil.
  assert (Hf : chunk ∈ filter (fun c => existsSync w (chunkPath chunksDir c) = false)
                 chunks) by (apply list_elem_of_filter; auto).
  rewrite Hnil in Hf. inversion Hf.
Qed.

(** C5, as the code has it: a run in which the clip of some unit is missing
    exits with status one, leaves every file as it was (no concat list, no
    final file) and runs no command; when the manifest and the clips
    directory exist and every unit whose clip is present has its silence,
    what it reports is the number of missing clips and the id of every one
    of them, in manifest order. *)
Theorem missing_clip_aborts (chapterNum : nat) (lang : jsstring)
    (chunksData : Manifest.t) (w : world) (missing : Chunk.t) :
  missing ∈ Manifest.chunks chunksData ->
  existsSync w (chunkPath (join (audioDirOf chapterNum lang) (u "chunks")) missing)
  = false ->
  (exists w' t,
     concatChapterAudio chapterNum lang chunksData w = (Exit 1, w')
     /\ concatExitStatus (Exit 1) = 1%Z
     /\ files w' = files w
     /\ trace w' = trace w ++ t
     /\ Forall (fun e => match e with EvConsoleError _ => True | _ => False end) t)
  /\ (existsSync w (join (audioDirOf chapterNum lang) (u "chunks.json")) = true ->
      existsSync w (join (audioDirOf chapterNum lang) (u "chunks")) = true ->
      (forall chunk, chunk ∈ Manifest.chunks chunksData ->
         existsSync w (chunkPath (join (audioDirOf chapterNum lang) (u "chunks")) chunk)
         = true ->
         PrimFloat.ltb 0 (Chunk.pauseAfter chunk) = true ->
         existsSync w (silencePath (join (join root (u "audio")) (u "silences"))
                         (Chunk.pauseAfter chunk)) = true) ->
      exists w',
        concatChapterAudio chapterNum lang chunksData w = (Exit 1, w')
        /\ trace w'
           = trace w ++
             EvConsoleError
               (MissingChunks
                  (length (missingIds (join (audioDirOf chapterNum lang) (u "chunks"))
                             w (Manifest.chunks chunksData)))) ::
             map (fun id => EvConsoleError (MissingChunk id))
               (missingIds (join (audioDirOf chapterNum lang) (u "chunks")) w
                  (Manifest.chunks chunksData))).
Proof.
  intros Hin Hmiss.
  pose proof (missingIds_nonempty _ _ _ _ Hin Hmiss) as Hne.
  set (ids := missingIds (join (audioDirOf chapterNum lang) (u "chunks")) w
                (Manifest.chunks chunksData)) in *.
  split.
  - unfold concatChapterAudio.
    destruct (existsSync w (join (audioDirOf chapterNum lang) (u "chunks.json")));
      cbn [negb].
    2:{ do 2 eexists. split; [reflexivity |]. split; [reflexivity |].
        split; [reflexivity |]. split; [reflexivity |]. repeat constructor. }
    destruct (existsSync w (join (audioDirOf chapterNum lang) (u "chunks")));
      cbn [negb].
    2:{ do 2 eexists. split; [reflexivity |]. split; [reflexivity |].
        split; [reflexivity |]. split; [reflexivity |]. repeat constructor. }
    destruct (concatLoop_cases (join (audioDirOf chapterNum lang) (u "chunks"))
                (join (join root (u "audio")) (u "silences")) w
                (Manifest.chunks chunksData) [] []) as [[cl H] | [sf H]];
      rewrite H.
    + cbn [app]. fold ids. destruct ids as [| id ids']; [congruence |].
      destruct (foldl_consoleError_missing (id :: ids')
                  (consoleError (MissingChunks (length (id :: ids'))) w))
        as [Hf Ht].
      do 2 eexists. split; [reflexivity |]. split; [reflexivity |].
      split; [exact Hf |]. rewrite Ht. cbn [consoleError emit trace].
      rewrite <- app_assoc. split; [reflexivity |].
      constructor; [exact I |]. apply Forall_map, Forall_forall. intros; exact I.
    + do 2 eexists. split; [reflexivity |]. split; [reflexivity |].
      split; [reflexivity |]. split; [reflexivity |]. repeat constructor.
  - intros Hfile Hdir Hsil. unfold concatChapterAudio.
    rewrite Hfile, Hdir. cbn [negb].
    destruct (concatLoop_returns (join (audioDirOf chapterNum lang) (u "chunks"))
                (join (join root (u "audio")) (u "silences")) w
                (Manifest.chunks chunksData) [] [] Hsil) as [cl H].
    rewrite H. cbn [app]. fold ids. destruct ids as [| id ids']; [congruence |].
    destruct (foldl_consoleError_missing (id :: ids')
                (consoleError (MissingChunks (length (id :: ids'))) w))
      as [Hf Ht].
    eexists. split; [reflexivity |]. rewrite Ht. cbn [consoleError emit trace].
    rewrite <- app_assoc. reflexivity.
Qed.

Lemma outputFile_not_concatList (chapterNum : nat) (lang : jsstring) :
  concatListPathOf chapterNum lang <> outputFileOf chapterNum lang.
Proof.
  unfold concatListPathOf, outputFileOf, join. intros H.
  apply app_inv_head in H. discriminate H.
Qed.

(** C8, as the code has it: when ffmpeg fails on the concat list the run
    ends with status one; the output operand of the command is the path of
    the final file itself, so what a failed ffmpeg left there is what is
    there afterwards: a partly written file when it left one, and the file
    of before the run only when it wrote nothing. *)
Theorem concat_failure_is_fatal (chapterNum : nat) (lang : jsstring)
    (chunksData : Manifest.t) (w : world) (message : jsstring)
    (partial : option (list N)) :
  existsSync w (join (audioDirOf chapterNum lang) (u "chunks.json")) = true ->
  existsSync w (join (audioDirOf chapterNum lang) (u "chunks")) = true ->
  (forall chunk, chunk ∈ Manifest.chunks chunksData ->
     existsSync w (chunkPath (join (audioDirOf chapterNum lang) (u "chunks")) chunk)
     = true) ->
  (forall chunk, chunk ∈ Manifest.chunks chunksData ->
     PrimFloat.ltb 0 (Chunk.pauseAfter chunk) = true ->
     existsSync w (silencePath (join (join root (u "audio")) (u "silences"))
                     (Chunk.pauseAfter chunk)) = true) ->
  ffmpeg
    (concatCommand (concatListPathOf chapterNum lang) (outputFileOf chapterNum lang))
    (<[concatListPathOf chapterNum lang :=
         File (concat (map concatLine
                 (concatEntries (join (audioDirOf chapterNum lang) (u "chunks"))
                    (join (join root (u "audio")) (u "silences"))
                    (Manifest.chunks chunksData))))]> (files w))
  = FfmpegFailed message partial ->
  exists w',
    concatChapterAudio chapterNum lang chunksData w = (Exit 1, w')
    /\ concatExitStatus (Exit 1) = 1%Z
    /\ files w' !! outputFileOf chapterNum lang
       = match partial with
         | Some output => Some (File output)
         | None => files w !! outputFileOf chapterNum lang
         end.
Proof.
  intros Hfile Hdir Hclips Hsil Hff.
  rewrite concatChapterAudio_present by assumption.
  unfold execSync, writeFileSync. cbn [emit files trace requests].
  rewrite Hff. destruct partial as [output |].
  - eexists. split; [reflexivity |]. split; [reflexivity |].
    cbn [consoleError emit files]. apply lookup_insert_eq.
  - eexists. split; [reflexivity |]. split; [reflexivity |].
    cbn [consoleError emit files]. apply lookup_insert_ne.
    apply outputFile_not_concatList.
Qed.

(** ** Runs that change nothing *)

Lemma ensureDir_exists (dir : jsstring) (w : world) :
  existsSync w dir = true -> ensureDir dir w = w.
Proof. unfold ensureDir. intros ->. reflexivity. Qed.

Lemma generateSilences_noop (silencesDir : jsstring) (ds : list float) (w : world) :
  Forall (fun d => existsSync w (silencePath silencesDir d) = true) ds ->
  generateSilences silencesDir ds w = (Return tt, w).
Proof.
  induction 1 as [| d ds Hd _ IH]; [reflexivity |].
  cbn [generateSilences]. rewrite generateSilence_exists by exact Hd. exact IH.
Qed.

(** With the silences directory and the five silences there, the
    provisioning does nothing. *)
Lemma generateAllSilences_noop (audioDir : jsstring) (w : world) :
  existsSync w (silencesDirOf audioDir) = true ->
  Forall (fun d => existsSync w (silencePath (silencesDirOf audioDir) d) = true)
    durations ->
  generateAllSilences audioDir w = (Return tt, w).
Proof.
  intros Hdir Hall. unfold generateAllSilences. rewrite ensureDir_exists by exact Hdir.
  apply generateSilences_noop. exact Hall.
Qed.

(** ** The turns of the synthesis loop *)

Lemma includes_app_r (a b p : jsstring) :
  includes b p = true -> includes (a ++ b) p = true.
Proof.
  intros H. induction a as [| x a IH]; [exact H |].
  cbn [app includes]. rewrite IH. apply orb_true_r.
Qed.

Lemma loopBody_turn (chunksData : Manifest.t) (chunksDir voiceId : jsstring)
    (i : Z) (sc ec : nat) (w : world) (chunk : Chunk.t) :
  lookupZ (Manifest.chunks chunksData) i = Some chunk ->
  turn chunksData chunksDir voiceId i sc ec w chunk
    (fst (loopBody chunksData chunksDir voiceId (Loop.mk i sc ec) w))
    (snd (loopBody chunksData chunksDir voiceId (Loop.mk i sc ec) w)).
Proof.
  intros Hchunk. unfold loopBody. rewrite Hchunk.
  destruct (existsSync w (chunkPath chunksDir chunk)) eqn:Hex.
  { cbn [fst snd]. apply TurnSkipped. exact Hex. }
  unfold textToSpeech, hasKey.
  destruct FISH_API_KEY as [[| c key] |] eqn:Hkey.
  1, 3: (cbn [fst snd];
         eapply TurnFailed with
           (sent := [])
           (message := u "FISH_API_KEY environment variable is required");
         [exact Hex | reflexivity | reflexivity | reflexivity
         | left; unfold hasKey; rewrite Hkey; auto]).
  assert (Hhas : hasKey = true) by (unfold hasKey; rewrite Hkey; reflexivity).
  destruct (fishAudio (requests w) (Chunk.text chunk) voiceId)
    as [statusCode body | message] eqn:Hanswer.
  - destruct (bool_decide (statusCode = 200)) eqn:H200.
    + apply bool_decide_eq_true in H200. subst statusCode. cbn [fst snd].
      eapply TurnSynthesized with (body := body);
        [exact Hex | exact Hhas | exact Hanswer | | |].
      * destruct (i <? Manifest.totalChunks chunksData - 1)%Z; reflexivity.
      * destruct (i <? Manifest.totalChunks chunksData - 1)%Z; reflexivity.
      * destruct (i <? Manifest.totalChunks chunksData - 1)%Z;
          unfold sleep, writeFileSync, emit; cbn [trace];
          rewrite <- ?app_assoc; reflexivity.
    + assert (Herr : errorOf (Response statusCode body)
                     = Some (u "API Error " ++ showNat statusCode ++ u ": " ++ body))
        by (unfold errorOf; rewrite H200; reflexivity).
      destruct (includes (u "API Error " ++ showNat statusCode ++ u ": " ++ body)
                  (u "429")) eqn:Hinc; cbn [fst snd].
      * replace (i - 1 + 1)%Z with i by lia.
        eapply TurnRetried;
          [exact Hex | exact Hhas | rewrite Hanswer; exact Herr | exact Hinc
          | reflexivity | reflexivity |].
        rewrite Hanswer. unfold sleep, consoleError, emit; cbn [trace].
        rewrite <- !app_assoc. reflexivity.
      * eapply TurnFailed;
          [exact Hex | exact Hinc | reflexivity |
          | right; rewrite Hanswer; repeat split; [exact Hhas | exact Herr]].
        unfold consoleError, emit; cbn [trace]. rewrite <- !app_assoc. reflexivity.
  - destruct (includes message (u "429")) eqn:Hinc; cbn [fst snd].
    + replace (i - 1 + 1)%Z with i by lia.
      eapply TurnRetried;
        [exact Hex | exact Hhas | rewrite Hanswer; reflexivity | exact Hinc
        | reflexivity | reflexivity |].
      rewrite Hanswer. unfold sleep, consoleError, emit; cbn [trace].
      rewrite <- !app_assoc. reflexivity.
    + eapply TurnFailed;
        [exact Hex | exact Hinc | reflexivity |
        | right; rewrite Hanswer; repeat split; exact Hhas].
      unfold consoleError, emit; cbn [trace]. rewrite <- !app_assoc. reflexivity.
Qed.

Lemma turn_index (chunksData : Manifest.t) (chunksDir voiceId : jsstring)
    (i : Z) (sc ec : nat) (w : world) (chunk : Chunk.t) c w' :
  turn chunksData chunksDir voiceId i sc ec w chunk c w' ->
  exists st', c = Return st'
    /\ (Loop.i st' = i \/ Loop.i st' = (i + 1)%Z)
    /\ ec <= Loop.errorCount st'.
Proof.
  intros H. destruct H; eexists; (split; [reflexivity |]);
    cbn [Loop.i Loop.errorCount]; split; auto.
Qed.

(** A property of the loop variables and the world that every turn keeps
    holds when the loop ends, and the loop ends with the index on the
    number of units. *)
Lemma forLoop_invariant (chunksData : Manifest.t) (chunksDir voiceId : jsstring)
    (P : Loop.t -> world -> Prop) :
  (forall i sc ec w chunk st' w',
     lookupZ (Manifest.chunks chunksData) i = Some chunk ->
     P (Loop.mk i sc ec) w ->
     turn chunksData chunksDir voiceId i sc ec w chunk (Return st') w' ->
     P st' w') ->
  forall (fuel : nat) (st : Loop.t) (w : world) c w',
    (0 <= Loop.i st <= Z.of_nat (length (Manifest.chunks chunksData)))%Z ->
    P st w ->
    forLoop fuel chunksData chunksDir voiceId st w = Some (c, w') ->
    exists st', c = Return st' /\ P st' w'
      /\ Loop.i st' = Z.of_nat (length (Manifest.chunks chunksData)).
Proof.
  intros Hstep. induction fuel as [| fuel IH]; intros st w c w' Hi HP Hrun;
    [discriminate |].
  cbn [forLoop] in Hrun.
  destruct (Z.ltb_spec (Loop.i st) (Z.of_nat (length (Manifest.chunks chunksData))))
    as [Hlt | Hge].
  - destruct st as [i sc ec]. cbn [Loop.i] in *.
    destruct (lookup_lt_is_Some_2 (Manifest.chunks chunksData) (Z.to_nat i))
      as [chunk Hchunk]; [lia |].
    assert (Hlook : lookupZ (Manifest.chunks chunksData) i = Some chunk).
    { unfold lookupZ. destruct (Z.ltb_spec i 0); [lia | exact Hchunk]. }
    pose proof (loopBody_turn chunksData chunksDir voiceId i sc ec w chunk Hlook)
      as Hturn.
    destruct (loopBody chunksData chunksDir voiceId (Loop.mk i sc ec) w)
      as [c1 w1]. cbn [fst snd] in Hturn.
    destruct (turn_index _ _ _ _ _ _ _ _ _ _ Hturn) as (st1 & -> & Hi1 & _).
    apply (IH st1 w1 c w'); [lia | | exact Hrun].
    eapply Hstep; eauto.
  - injection Hrun as <- <-. exists st. repeat split; [exact HP | lia].
Qed.

Lemma retrySleeps_app (t t' : list event) :
  retrySleeps (t ++ t') = retrySleeps t + retrySleeps t'.
Proof. unfold retrySleeps. rewrite filter_app, length_app. reflexivity. Qed.

Lemma pacingSleeps_app (t t' : list event) :
  pacingSleeps (t ++ t') = pacingSleeps t + pacingSleeps t'.
Proof. unfold pacingSleeps. rewrite filter_app, length_app. reflexivity. Qed.

Lemma requestTexts_app (t t' : list event) :
  requestTexts (t ++ t') = requestTexts t ++ requestTexts t'.
Proof. unfold requestTexts. apply flat_map_app. Qed.

Lemma retrySleeps_cons (e : event) (t : list event) :
  retrySleeps (e :: t) = (if isRetrySleep e then 1 else 0) + retrySleeps t.
Proof.
  unfold retrySleeps. destruct (isRetrySleep e) eqn:E.
  - rewrite filter_cons_True by exact E. reflexivity.
  - rewrite filter_cons_False by (rewrite E; discriminate). reflexivity.
Qed.

Lemma pacingSleeps_cons (e : event) (t : list event) :
  pacingSleeps (e :: t) = (if isPacingSleep e then 1 else 0) + pacingSleeps t.
Proof.
  unfold pacingSleeps. destruct (isPacingSleep e) eqn:E.
  - rewrite filter_cons_True by exact E. reflexivity.
  - rewrite filter_cons_False by (rewrite E; discriminate). reflexivity.
Qed.

Ltac count_sleeps :=
  rewrite ?retrySleeps_app, ?pacingSleeps_app, ?retrySleeps_cons, ?pacingSleeps_cons;
  cbn [isRetrySleep isPacingSleep];
  change (bool_decide (DELAY_BETWEEN_REQUESTS = 5000%Z)) with false;
  change (bool_decide (5000%Z = DELAY_BETWEEN_REQUESTS)) with false;
  change (bool_decide (5000%Z = 5000%Z)) with true;
  change (bool_decide (DELAY_BETWEEN_REQUESTS = DELAY_BETWEEN_REQUESTS)) with true;
  change (retrySleeps []) with 0; change (pacingSleeps []) with 0;
  cbv beta iota.

(** The trace of a turn has a retry sleep exactly when the unit is left to
    be retried. *)
Lemma turn_accounting (chunksData : Manifest.t) (chunksDir voiceId : jsstring)
    (i : Z) (sc ec : nat) (w : world) (chunk : Chunk.t) st' w' :
  turn chunksData chunksDir voiceId i sc ec w chunk (Return st') w' ->
  (Z.of_nat (Loop.successCount st' + Loop.errorCount st') - Loop.i st'
     - Z.of_nat (retrySleeps (trace w'))
   = Z.of_nat (sc + ec) - i - Z.of_nat (retrySleeps (trace w)))%Z.
Proof.
  intros H. inversion H as
    [Hex | body w1 Hex Hkey Hans Hf Hr Ht | message sent w1 Hex Hinc Hf Ht Hs
    | message w1 Hex Hkey Herr Hinc Hf Hr Ht]; subst;
    cbn [Loop.successCount Loop.errorCount Loop.i].
  - lia.
  - rewrite Ht.
    destruct (i <? Manifest.totalChunks chunksData - 1)%Z; count_sleeps; lia.
  - rewrite Ht.
    destruct Hs as [(_ & -> & _) | (_ & -> & _)]; count_sleeps; lia.
  - rewrite Ht. count_sleeps. lia.
Qed.

(** ** The trace of the provisioning *)

Lemma toolsOnly_refl (w : world) : toolsOnly w w.
Proof. exists []. rewrite app_nil_r. auto. Qed.

Lemma toolsOnly_trans (w1 w2 w3 : world) :
  toolsOnly w1 w2 -> toolsOnly w2 w3 -> toolsOnly w1 w3.
Proof.
  intros (t1 & Ht1 & Hq1) (t2 & Ht2 & Hq2). exists (t1 ++ t2).
  rewrite Ht2, Ht1, app_assoc. split; [reflexivity | apply Forall_app; auto].
Qed.

Lemma toolsOnly_ensureDir (dir : jsstring) (w : world) :
  toolsOnly w (ensureDir dir w).
Proof.
  exists []. rewrite app_nil_r. split; [| constructor].
  unfold ensureDir. destruct (existsSync w dir); reflexivity.
Qed.

Lemma toolsOnly_generateSilence (duration : float) (outputPath : jsstring)
    (w : world) c w' :
  generateSilence duration outputPath w = (c, w') -> toolsOnly w w'.
Proof.
  unfold generateSilence. destruct (existsSync w outputPath).
  - intros H. injection H as <- <-. apply toolsOnly_refl.
  - destruct (execSync (silenceCommand duration outputPath) outputPath w)
      as [[stdout | message] w1] eqn:Hexec; intros H; injection H as <- <-;
      apply execSync_effect in Hexec; destruct Hexec as (Ht & _).
    + exists [EvExec (silenceCommand duration outputPath)].
      split; [exact Ht | repeat constructor].
    + exists [EvExec (silenceCommand duration outputPath);
              EvConsoleError (SilenceFailed message)].
      cbn [consoleError emit trace]. rewrite Ht, <- app_assoc.
      split; [reflexivity | repeat constructor].
Qed.

Lemma toolsOnly_generateSilences (silencesDir : jsstring) (ds : list float) :
  forall (w : world) c w',
  generateSilences silencesDir ds w = (c, w') -> toolsOnly w w'.
Proof.
  induction ds as [| d ds IH]; intros w c w' H; cbn [generateSilences] in H.
  - injection H as <- <-. apply toolsOnly_refl.
  - destruct (generateSilence d (silencePath silencesDir d) w) as [c1 w1] eqn:H1.
    apply toolsOnly_generateSilence in H1.
    destruct c1 as [[] | message | code].
    + eapply toolsOnly_trans; [exact H1 | eapply IH; exact H].
    + injection H as <- <-. exact H1.
    + injection H as <- <-. exact H1.
Qed.

Lemma toolsOnly_generateAllSilences (audioDir : jsstring) (w : world) c w' :
  generateAllSilences audioDir w = (c, w') -> toolsOnly w w'.
Proof.
  unfold generateAllSilences. intros H. apply toolsOnly_generateSilences in H.
  eapply toolsOnly_trans; [apply toolsOnly_ensureDir | exact H].
Qed.

(** Commands and console errors are neither requests nor sleeps. *)
Lemma toolsOnly_views (w w' : world) :
  toolsOnly w w' ->
  requestTexts (trace w') = requestTexts (trace w)
  /\ retrySleeps (trace w') = retrySleeps (trace w)
  /\ pacingSleeps (trace w') = pacingSleeps (trace w).
Proof.
  intros (t & -> & Ht).
  rewrite requestTexts_app, retrySleeps_app, pacingSleeps_app.
  assert (H : requestTexts t = [] /\ retrySleeps t = 0 /\ pacingSleeps t = 0).
  { induction Ht as [| e t He Ht IH]; [auto |].
    destruct IH as (IH1 & IH2 & IH3).
    rewrite retrySleeps_cons, pacingSleeps_cons, IH2, IH3.
    change (requestTexts (e :: t)) with
      ((match e with EvRequest text _ _ => [text] | _ => [] end) ++ requestTexts t).
    rewrite IH1. destruct e; try discriminate He; auto. }
  destruct H as (-> & -> & ->). rewrite app_nil_r, !Nat.add_0_r. auto.
Qed.

(** ** Whole runs of the synthesis *)

(** A run that returns has found the manifest, provisioned the silences and
    run the loop to its end. *)
Lemma generateChapterAudio_returns (fuel chapterNum : nat) (lang : jsstring)
    (chunksData : Manifest.t) (w w' : world) (r : Result.t) :
  generateChapterAudio fuel chapterNum lang chunksData w = Some (Return r, w') ->
  exists w1 st,
    existsSync w (join (audioDirOf chapterNum lang) (u "chunks.json")) = true
    /\ generateAllSilences (join root (u "audio"))
         (ensureDir (join (audioDirOf chapterNum lang) (u "chunks")) w)
       = (Return tt, w1)
    /\ forLoop fuel chunksData (join (audioDirOf chapterNum lang) (u "chunks"))
         voiceIdOf (Loop.mk 0 0 0) w1 = Some (Return st, w')
    /\ r = Result.mk (Loop.successCount st) (Loop.errorCount st)
             (Manifest.totalChunks chunksData).
Proof.
  unfold generateChapterAudio. intros Hrun.
  destruct (existsSync w (join (audioDirOf chapterNum lang) (u "chunks.json")));
    [| discriminate]. cbn [negb] in Hrun.
  destruct (generateAllSilences _ _) as [[[] | m | c] w1] eqn:Hsil; try discriminate.
  destruct (forLoop _ _ _ _ _ _) as [[[st | m | c] w2] |] eqn:Hloop;
    try discriminate.
  injection Hrun as <- <-. exists w1, st. auto.
Qed.

(** X1: in a run that returns, every unit is counted once, as a success or
    as an error, and every retry adds one error: [successCount +
    errorCount] is the number of units plus the number of five-second
    sleeps of the run. *)
Theorem run_counts_units_and_retries (fuel chapterNum : nat) (lang : jsstring)
    (chunksData : Manifest.t) (w w' : world) (r : Result.t) :
  generateChapterAudio fuel chapterNum lang chunksData w = Some (Return r, w') ->
  Result.successCount r + Result.errorCount r + retrySleeps (trace w)
  = length (Manifest.chunks chunksData) + retrySleeps (trace w').
Proof.
  intros Hrun. apply generateChapterAudio_returns in Hrun.
  destruct Hrun as (w1 & st & _ & Hsil & Hloop & ->).
  apply toolsOnly_generateAllSilences in Hsil.
  assert (Hw1 : retrySleeps (trace w1) = retrySleeps (trace w)).
  { apply toolsOnly_views.
    eapply toolsOnly_trans; [apply toolsOnly_ensureDir | exact Hsil]. }
  eapply (forLoop_invariant chunksData _ voiceIdOf
            (fun st w => (Z.of_nat (Loop.successCount st + Loop.errorCount st)
                          - Loop.i st - Z.of_nat (retrySleeps (trace w))
                          = - Z.of_nat (retrySleeps (trace w1)))%Z))
    in Hloop.
  - destruct Hloop as (st' & Hst & HP & Hi). injection Hst as <-.
    cbn [Result.successCount Result.errorCount]. lia.
  - intros i sc ec w0 chunk st' w0' _ HP Hturn.
    apply turn_accounting in Hturn. cbn [Loop.successCount Loop.errorCount Loop.i] in HP.
    lia.
  - cbn [Loop.i]. lia.
  - cbn [Loop.successCount Loop.errorCount Loop.i]. lia.
Qed.

Lemma forLoop_clean_clips (chunksData : Manifest.t) (dir voiceId : jsstring)
    (fuel : nat) (w1 w' : world) (st : Loop.t) :
  forLoop fuel chunksData dir voiceId (Loop.mk 0 0 0) w1 = Some (Return st, w') ->
  Loop.errorCount st = 0 ->
  Loop.successCount st = length (Manifest.chunks chunksData)
  /\ forall chunk, chunk ∈ Manifest.chunks chunksData ->
       existsSync w' (chunkPath dir chunk) = true.
Proof.
  intros Hloop Hclean.
  eapply (forLoop_invariant chunksData dir voiceId
            (fun st w => Loop.errorCount st = 0 ->
               Z.of_nat (Loop.successCount st) = Loop.i st
               /\ forall j chunk, (0 <= j < Loop.i st)%Z ->
                    lookupZ (Manifest.chunks chunksData) j = Some chunk ->
                    existsSync w (chunkPath dir chunk) = true))
    in Hloop.
  - destruct Hloop as (st' & Hst & HP & Hi). injection Hst as <-.
    destruct (HP Hclean) as [Hsc Hall]. split; [lia |].
    intros chunk Hin. apply list_elem_of_lookup in Hin. destruct Hin as [j Hj].
    apply (Hall (Z.of_nat j)).
    + apply lookup_lt_Some in Hj. lia.
    + rewrite lookupZ_of_nat. exact Hj.
  - intros i sc ec w0 chunk st' w0' Hchunk HP Hturn Hec.
    inversion Hturn as
      [Hex | body w2 Hex Hkey Hans Hf Hr Ht | message sent w2 Hex Hinc Hf Ht Hs
      | message w2 Hex Hkey Herr Hinc Hf Hr Ht]; subst;
      cbn [Loop.successCount Loop.errorCount Loop.i] in *; try discriminate.
    + destruct (HP Hec) as [Hsc Hall]. split; [lia |].
      intros j c Hj Hc. destruct (decide (j = i)) as [-> | Hne].
      * rewrite Hchunk in Hc. injection Hc as <-. exact Hex.
      * apply (Hall j c); [lia | exact Hc].
    + destruct (HP Hec) as [Hsc Hall]. split; [lia |].
      intros j c Hj Hc.
      rewrite (existsSync_insert w0 w0' (chunkPath dir chunk) _ (File body) Hf).
      destruct (decide (j = i)) as [-> | Hne].
      * rewrite Hchunk in Hc. injection Hc as <-.
        rewrite bool_decide_eq_true_2 by reflexivity. reflexivity.
      * rewrite (Hall j c); [apply orb_true_r | lia | exact Hc].
  - cbn [Loop.i]. lia.
  - intros _. cbn [Loop.successCount Loop.i]. split; [reflexivity |].
    intros j chunk Hj. lia.
Qed.

(** X2: a run that returns with no error counted has left the clip of every
    unit of the manifest on the disk and counted every unit as a
    success. *)
Theorem clean_run_leaves_every_clip (fuel chapterNum : nat) (lang : jsstring)
    (chunksData : Manifest.t) (w w' : world) (r : Result.t) :
  generateChapterAudio fuel chapterNum lang chunksData w = Some (Return r, w') ->
  Result.errorCount r = 0 ->
  Result.successCount r = length (Manifest.chunks chunksData)
  /\ forall chunk, chunk ∈ Manifest.chunks chunksData ->
       existsSync w' (chunkPath (join (audioDirOf chapterNum lang) (u "chunks")) chunk)
       = true.
Proof.
  intros Hrun Hclean. apply generateChapterAudio_returns in Hrun.
  destruct Hrun as (w1 & st & _ & _ & Hloop & ->).
  cbn [Result.errorCount Result.successCount] in *.
  exact (forLoop_clean_clips _ _ _ _ _ _ _ Hloop Hclean).
Qed.

(** When every turn from a state that satisfies [P] moves to the next unit
    and keeps [P], the loop ends within as many turns as units are left. *)
Lemma forLoop_advancing (chunksData : Manifest.t) (chunksDir voiceId : jsstring)
    (P : Loop.t -> world -> Prop) :
  (forall i sc ec w chunk st' w',
     lookupZ (Manifest.chunks chunksData) i = Some chunk ->
     P (Loop.mk i sc ec) w ->
     turn chunksData chunksDir voiceId i sc ec w chunk (Return st') w' ->
     P st' w' /\ Loop.i st' = (i + 1)%Z) ->
  forall (n fuel : nat) (st : Loop.t) (w : world),
    (0 <= Loop.i st <= Z.of_nat (length (Manifest.chunks chunksData)))%Z ->
    (Z.of_nat (length (Manifest.chunks chunksData)) - Loop.i st <= Z.of_nat n)%Z ->
    n < fuel ->
    P st w ->
    exists st' w',
      forLoop fuel chunksData chunksDir voiceId st w = Some (Return st', w')
      /\ P st' w'
      /\ Loop.i st' = Z.of_nat (length (Manifest.chunks chunksData)).
Proof.
  intros Hstep. induction n as [| n IH]; intros fuel st w Hi Hn Hfuel HP;
    (destruct fuel as [| fuel]; [lia |]); cbn [forLoop].
  - destruct (Z.ltb_spec (Loop.i st)
                (Z.of_nat (length (Manifest.chunks chunksData)))); [lia |].
    exists st, w. repeat split; [exact HP | lia].
  - destruct (Z.ltb_spec (Loop.i st)
                (Z.of_nat (length (Manifest.chunks chunksData)))) as [Hlt | Hge].
    + destruct st as [i sc ec]. cbn [Loop.i] in *.
      destruct (lookup_lt_is_Some_2 (Manifest.chunks chunksData) (Z.to_nat i))
        as [chunk Hchunk]; [lia |].
      assert (Hlook : lookupZ (Manifest.chunks chunksData) i = Some chunk).
      { unfold lookupZ. destruct (Z.ltb_spec i 0); [lia | exact Hchunk]. }
      pose proof (loopBody_turn chunksData chunksDir voiceId i sc ec w chunk Hlook)
        as Hturn.
      destruct (loopBody chunksData chunksDir voiceId (Loop.mk i sc ec) w)
        as [c1 w1]. cbn [fst snd] in Hturn.
      destruct (turn_index _ _ _ _ _ _ _ _ _ _ Hturn) as (st1 & -> & _ & _).
      destruct (Hstep _ _ _ _ _ _ _ Hlook HP Hturn) as [HP1 Hi1].
      apply IH; [lia | lia | lia | exact HP1].
    + exists st, w. repeat split; [exact HP | lia].
Qed.

(** X3: when no error message of the service contains "429" the run ends:
    as many turns as there are units suffice, whatever the service answers
    otherwise; a run that returns has counted every unit exactly once and
    sent at most one request per unit. *)
Theorem run_ends_when_never_throttled (fuel chapterNum : nat) (lang : jsstring)
    (chunksData : Manifest.t) (w : world) :
  (forall n text voiceId message,
     errorOf (fishAudio n text voiceId) = Some message ->
     includes message (u "429") = false) ->
  length (Manifest.chunks chunksData) < fuel ->
  exists c w',
    generateChapterAudio fuel chapterNum lang chunksData w = Some (c, w')
    /\ requests w' <= requests w + length (Manifest.chunks chunksData)
    /\ forall r, c = Return r ->
         Result.successCount r + Result.errorCount r
         = length (Manifest.chunks chunksData).
Proof.
  intros Hnever Hfuel. unfold generateChapterAudio.
  destruct (existsSync w (join (audioDirOf chapterNum lang) (u "chunks.json")));
    cbn [negb].
  2:{ do 2 eexists. split; [reflexivity |]. cbn [consoleError emit requests].
      split; [lia | discriminate]. }
  destruct (generateAllSilences _ _) as [c1 w1] eqn:Hsil.
  apply generateAllSilences_effect in Hsil. destruct Hsil as [Hn _].
  assert (Hreq : requests w1 = requests w).
  { destruct Hn as (Hr & _). rewrite Hr.
    unfold ensureDir. destruct (existsSync w _); reflexivity. }
  destruct c1 as [[] | m | c1].
  2, 3: (do 2 eexists; split; [reflexivity |]; split; [lia | discriminate]).
  set (dir := join (audioDirOf chapterNum lang) (u "chunks")) in *.
  destruct (forLoop_advancing chunksData dir voiceIdOf
              (fun st w0 => (Z.of_nat (Loop.successCount st + Loop.errorCount st)
                             = Loop.i st)%Z
                            /\ (Z.of_nat (requests w0)
                                <= Z.of_nat (requests w1) + Loop.i st)%Z))
    with (n := length (Manifest.chunks chunksData)) (fuel := fuel)
         (st := Loop.mk 0 0 0) (w := w1)
    as (st' & w' & Hloop & [Hcount Hsent] & Hi).
  - intros i sc ec w0 chunk st' w0' _ [Hc Hs] Hturn.
    inversion Hturn as
      [Hex | body w2 Hex Hkey Hans Hf Hr Ht | message sent w2 Hex Hinc Hf Ht Hsent
      | message w2 Hex Hkey Herr Hinc Hf Hr Ht]; subst;
      cbn [Loop.successCount Loop.errorCount Loop.i] in *.
    + repeat split; lia.
    + repeat split; lia.
    + destruct Hsent as [(_ & _ & Hr & _) | (_ & _ & Hr & _)]; repeat split; lia.
    + rewrite (Hnever _ _ _ _ Herr) in Hinc. discriminate.
  - cbn [Loop.i]. lia.
  - cbn [Loop.i]. lia.
  - exact Hfuel.
  - cbn [Loop.successCount Loop.errorCount Loop.i]. lia.
  - rewrite Hloop. do 2 eexists. split; [reflexivity |]. split; [lia |].
    intros r Hr. injection Hr as <-. cbn [Result.successCount Result.errorCount].
    lia.
Qed.

Lemma missingIds_files (chunksDir : jsstring) (w w' : world) (chunks : list Chunk.t) :
  files w' = files w -> missingIds chunksDir w' chunks = missingIds chunksDir w chunks.
Proof.
  intros Hf. unfold missingIds. f_equal.
  induction chunks as [| chunk chunks IH]; [reflexivity |].
  rewrite !filter_cons, IH, (existsSync_files w w' _ Hf). reflexivity.
Qed.

Lemma missingIds_snoc (chunksDir : jsstring) (w : world) (chunks : list Chunk.t)
    (chunk : Chunk.t) :
  missingIds chunksDir w (chunks ++ [chunk])
  = missingIds chunksDir w chunks
    ++ (if existsSync w (chunkPath chunksDir chunk) then [] else [Chunk.id chunk]).
Proof.
  unfold missingIds. rewrite filter_app, map_app. f_equal.
  destruct (existsSync w (chunkPath chunksDir chunk)) eqn:E.
  - rewrite filter_cons_False by (rewrite E; discriminate). reflexivity.
  - rewrite filter_cons_True by exact E. reflexivity.
Qed.

Lemma take_next {A : Type} (l : list A) (i : Z) (x : A) :
  lookupZ l i = Some x ->
  take (Z.to_nat (i + 1)) l = take (Z.to_nat i) l ++ [x].
Proof.
  intros H. pose proof (lookupZ_Some _ _ _ H) as Hi.
  unfold lookupZ in H. destruct (Z.ltb_spec i 0); [lia |].
  replace (Z.to_nat (i + 1)) with (S (Z.to_nat i)) by lia.
  apply take_S_r. exact H.
Qed.

(** X4: without an API key a run that has found the manifest and
    provisioned the silences is not stopped: with more fuel than units it
    returns, having sent no request and left the files as the provisioning
    left them; each unit whose clip exists is counted as a success and each
    of the others as an error, so the number of errors is the number of
    missing clips, and the status is one exactly when a clip is missing. *)
Theorem run_without_key_fails_missing_units (fuel chapterNum : nat)
    (lang : jsstring) (chunksData : Manifest.t) (w w1 : world) :
  hasKey = false ->
  existsSync w (join (audioDirOf chapterNum lang) (u "chunks.json")) = true ->
  generateAllSilences (join root (u "audio"))
    (ensureDir (join (audioDirOf chapterNum lang) (u "chunks")) w)
  = (Return tt, w1) ->
  length (Manifest.chunks chunksData) < fuel ->
  exists r w',
    generateChapterAudio fuel chapterNum lang chunksData w = Some (Return r, w')
    /\ requests w' = requests w
    /\ files w' = files w1
    /\ Result.errorCount r
       = length (missingIds (join (audioDirOf chapterNum lang) (u "chunks")) w'
                   (Manifest.chunks chunksData))
    /\ Result.successCount r + Result.errorCount r
       = length (Manifest.chunks chunksData)
    /\ generateExitStatus (Return r)
       = match missingIds (join (audioDirOf chapterNum lang) (u "chunks")) w'
                 (Manifest.chunks chunksData) with
         | [] => 0%Z
         | _ :: _ => 1%Z
         end.
Proof.
  intros Hkey Hfile Hsil Hfuel. unfold generateChapterAudio.
  rewrite Hfile. cbn [negb]. rewrite Hsil.
  pose proof (generateAllSilences_effect _ _ _ _ Hsil) as [Hn _].
  set (dir := join (audioDirOf chapterNum lang) (u "chunks")) in *.
  assert (Hreq : requests w1 = requests w).
  { destruct Hn as (Hr & _). rewrite Hr.
    unfold ensureDir. destruct (existsSync w dir); reflexivity. }
  destruct (forLoop_advancing chunksData dir voiceIdOf
              (fun st w0 =>
                 files w0 = files w1 /\ requests w0 = requests w1
                 /\ Loop.errorCount st
                    = length (missingIds dir w1
                                (take (Z.to_nat (Loop.i st))
                                   (Manifest.chunks chunksData)))
                 /\ (Z.of_nat (Loop.successCount st + Loop.errorCount st)
                     = Loop.i st)%Z))
    with (n := length (Manifest.chunks chunksData)) (fuel := fuel)
         (st := Loop.mk 0 0 0) (w := w1)
    as (st' & w' & Hloop & (Hf & Hr & Hec & Hsum) & Hi).
  - intros i sc ec w0 chunk st' w0' Hchunk (Hf & Hr & Hec & Hsum) Hturn.
    inversion Hturn as
      [Hex | body w2 Hex Hk Hans Hf2 Hr2 Ht | message sent w2 Hex Hinc Hf2 Ht Hsent
      | message w2 Hex Hk Herr Hinc Hf2 Hr2 Ht]; subst;
      cbn [Loop.successCount Loop.errorCount Loop.i] in *;
      try (rewrite Hkey in Hk; discriminate).
    + rewrite (take_next _ _ _ Hchunk), missingIds_snoc.
      rewrite <- (existsSync_files w1 w0' _ Hf), Hex, app_nil_r.
      repeat split; auto; lia.
    + destruct Hsent as [(_ & _ & Hr2 & _) | (Hk & _)];
        [| rewrite Hkey in Hk; discriminate].
      rewrite (take_next _ _ _ Hchunk), missingIds_snoc.
      rewrite <- (existsSync_files w1 w0 _ Hf), Hex, length_app. cbn [length].
      repeat split; try congruence; lia.
  - cbn [Loop.i]. lia.
  - cbn [Loop.i]. lia.
  - exact Hfuel.
  - cbn [Loop.successCount Loop.errorCount Loop.i]. repeat split.
  - rewrite Hloop. do 2 eexists. split; [reflexivity |].
    cbn [Result.successCount Result.errorCount generateExitStatus].
    rewrite (missingIds_files dir w1 w' _ Hf).
    rewrite Hi, Nat2Z.id, firstn_all in Hec.
    repeat apply conj; [congruence | exact Hf | exact Hec | lia |].
    rewrite Hec.
    destruct (missingIds dir w1 (Manifest.chunks chunksData)); reflexivity.
Qed.

(** X5: the retry is decided on the text of the error alone: an answer of
    any status other than 200 whose body contains "429", or a network
    error whose message does, writes nothing, counts an error, sleeps five
    seconds and leaves the loop on the same unit. *)
Theorem error_text_with_429_is_retried (chunksData : Manifest.t)
    (chunksDir voiceId : jsstring) (i : Z) (sc ec : nat) (w : world)
    (chunk : Chunk.t) :
  lookupZ (Manifest.chunks chunksData) i = Some chunk ->
  existsSync w (chunkPath chunksDir chunk) = false ->
  hasKey = true ->
  match fishAudio (requests w) (Chunk.text chunk) voiceId with
  | Response statusCode body =>
      statusCode <> 200 /\ includes body (u "429") = true
  | RequestError message => includes message (u "429") = true
  end ->
  exists w',
    loopBody chunksData chunksDir voiceId (Loop.mk i sc ec) w
    = (Return (Loop.mk i sc (S ec)), w')
    /\ files w' = files w
    /\ requests w' = S (requests w)
    /\ last (trace w') = Some (EvSleep 5000).
Proof.
  intros Hchunk Hex Hkey Hans.
  pose proof (loopBody_turn chunksData chunksDir voiceId i sc ec w chunk Hchunk)
    as Hturn.
  destruct (loopBody chunksData chunksDir voiceId (Loop.mk i sc ec) w) as [c w'].
  cbn [fst snd] in Hturn. exists w'.
  assert (Htext : forall message,
             errorOf (fishAudio (requests w) (Chunk.text chunk) voiceId) = Some message ->
             includes message (u "429") = true).
  { intros message. unfold errorOf.
    destruct (fishAudio (requests w) (Chunk.text chunk) voiceId) as [s body | m].
    - destruct Hans as [Hs Hbody]. rewrite bool_decide_eq_false_2 by exact Hs.
      intros HH.
      assert (message = (u "API Error " ++ showNat s ++ u ": ") ++ body) as ->
        by (rewrite <- !app_assoc; congruence).
      apply includes_app_r. exact Hbody.
    - intros [= <-]. exact Hans. }
  inversion Hturn as
    [Hex' | body w2 Hex' Hk Hresp Hf Hr Ht | message sent w2 Hex' Hinc Hf Ht Hsent
    | message w2 Hex' Hk Herr Hinc Hf Hr Ht]; subst.
  - congruence.
  - rewrite Hresp in Hans. destruct Hans as [Hs _]. contradiction.
  - destruct Hsent as [(Hk & _) | (_ & _ & _ & Herr)]; [congruence |].
    rewrite (Htext _ Herr) in Hinc. discriminate.
  - repeat split; try assumption. rewrite Ht.
    change [EvRequest (Chunk.text chunk) voiceId
              (fishAudio (requests w) (Chunk.text chunk) voiceId);
            EvConsoleError (SynthesisError message); EvSleep 5000]
      with ([EvRequest (Chunk.text chunk) voiceId
               (fishAudio (requests w) (Chunk.text chunk) voiceId);
             EvConsoleError (SynthesisError message)] ++ [EvSleep 5000]).
    rewrite app_assoc. apply last_snoc.
Qed.

Lemma errorOf_ok (answer : httpResult) (body : jsstring) :
  answer = Response 200 body -> errorOf answer = None.
Proof. intros ->. reflexivity. Qed.

Lemma filter_snoc_clip (chunksDir : jsstring) (w : world) (chunks : list Chunk.t)
    (chunk : Chunk.t) :
  filter (fun c => existsSync w (chunkPath chunksDir c) = false) (chunks ++ [chunk])
  = filter (fun c => existsSync w (chunkPath chunksDir c) = false) chunks
    ++ (if existsSync w (chunkPath chunksDir chunk) then [] else [chunk]).
Proof.
  rewrite filter_app. f_equal.
  destruct (existsSync w (chunkPath chunksDir chunk)) eqn:E.
  - rewrite filter_cons_False by (rewrite E; discriminate). reflexivity.
  - rewrite filter_cons_True by exact E. reflexivity.
Qed.

Lemma lookupZ_NoDup {A B : Type} (f : A -> B) (l : list A) (i j : Z) (x y : A) :
  NoDup (map f l) ->
  lookupZ l i = Some x -> lookupZ l j = Some y -> f x = f y -> i = j.
Proof.
  intros Hnd Hi Hj Hxy.
  pose proof (lookupZ_Some _ _ _ Hi). pose proof (lookupZ_Some _ _ _ Hj).
  unfold lookupZ in Hi, Hj.
  destruct (Z.ltb_spec i 0); [lia |]. destruct (Z.ltb_spec j 0); [lia |].
  assert (E : Z.to_nat i = Z.to_nat j).
  { apply (NoDup_lookup (f <$> l) _ _ (f x)); [exact Hnd | |].
    - rewrite list_lookup_fmap, Hi. reflexivity.
    - rewrite list_lookup_fmap, Hj, Hxy. reflexivity. }
  lia.
Qed.

(** With an API key and a service that answers every request with status
    200 the loop ends without an error, having requested the units whose
    clip was missing, in order. *)
Lemma forLoop_healthy (chunksData : Manifest.t) (dir : jsstring) (fuel : nat)
    (w1 : world) :
  NoDup (map (chunkPath dir) (Manifest.chunks chunksData)) ->
  hasKey = true ->
  (forall n text voiceId, exists body, fishAudio n text voiceId = Response 200 body) ->
  length (Manifest.chunks chunksData) < fuel ->
  exists st' w',
    forLoop fuel chunksData dir voiceIdOf (Loop.mk 0 0 0) w1 = Some (Return st', w')
    /\ Loop.errorCount st' = 0
    /\ Loop.successCount st' = length (Manifest.chunks chunksData)
    /\ requestTexts (trace w')
       = requestTexts (trace w1)
         ++ map Chunk.text
              (filter (fun c => existsSync w1 (chunkPath dir c) = false)
                 (Manifest.chunks chunksData))
    /\ forall chunk, chunk ∈ Manifest.chunks chunksData ->
         existsSync w' (chunkPath dir chunk) = true.
Proof.
  intros Hnd Hkey Hok Hfuel.
  destruct (forLoop_advancing chunksData dir voiceIdOf
              (fun st w0 =>
                 Loop.errorCount st = 0
                 /\ Z.of_nat (Loop.successCount st) = Loop.i st
                 /\ requestTexts (trace w0)
                    = requestTexts (trace w1)
                      ++ map Chunk.text
                           (filter (fun c => existsSync w1 (chunkPath dir c) = false)
                              (take (Z.to_nat (Loop.i st))
                                 (Manifest.chunks chunksData)))
                 /\ (forall j c, (Loop.i st <= j)%Z ->
                       lookupZ (Manifest.chunks chunksData) j = Some c ->
                       existsSync w0 (chunkPath dir c)
                       = existsSync w1 (chunkPath dir c))
                 /\ (forall j c, (j < Loop.i st)%Z ->
                       lookupZ (Manifest.chunks chunksData) j = Some c ->
                       existsSync w0 (chunkPath dir c) = true)))
    with (n := length (Manifest.chunks chunksData)) (fuel := fuel)
         (st := Loop.mk 0 0 0) (w := w1)
    as (st' & w' & Hloop & (Hec & Hsc & Hreq & _ & Hpast) & Hi).
  - intros i sc ec w0 chunk st' w0' Hchunk (Hec & Hsc & Hreq & Hfut & Hpast) Hturn.
    cbn [Loop.successCount Loop.errorCount Loop.i] in Hec, Hsc, Hreq, Hfut, Hpast.
    pose proof (Hfut i chunk (Z.le_refl i) Hchunk) as Hnow.
    inversion Hturn as
      [Hex | body w2 Hex Hk Hans Hf Hr Ht | message sent w2 Hex Hinc Hf Ht Hsent
      | message w2 Hex Hk Herr Hinc Hf Hr Ht]; subst st';
      cbn [Loop.successCount Loop.errorCount Loop.i].
    + subst w0'. split; [| reflexivity].
      rewrite (take_next _ _ _ Hchunk), filter_snoc_clip, <- Hnow, Hex, app_nil_r.
      repeat apply conj; [exact Hec | lia | exact Hreq | |].
      * intros j c Hj Hc. apply (Hfut j c); [lia | exact Hc].
      * intros j c Hj Hc. destruct (Z.eq_dec j i) as [-> | Hne].
        -- rewrite Hchunk in Hc. injection Hc as <-. exact Hex.
        -- apply (Hpast j c); [lia | exact Hc].
    + split; [| reflexivity].
      rewrite (take_next _ _ _ Hchunk), filter_snoc_clip, <- Hnow, Hex.
      repeat apply conj; [exact Hec | lia | | |].
      * rewrite Ht, !requestTexts_app, Hreq, map_app, <- !app_assoc. f_equal. f_equal.
        cbn [map requestTexts flat_map app].
        destruct (i <? Manifest.totalChunks chunksData - 1)%Z; reflexivity.
      * intros j c Hj Hc.
        rewrite (existsSync_insert w0 w0' _ _ _ Hf).
        rewrite bool_decide_eq_false_2.
        -- apply (Hfut j c); [lia | exact Hc].
        -- intros Hsame.
           pose proof (lookupZ_NoDup (chunkPath dir) _ _ _ _ _ Hnd Hchunk Hc Hsame).
           lia.
      * intros j c Hj Hc. rewrite (existsSync_insert w0 w0' _ _ _ Hf).
        destruct (Z.eq_dec j i) as [-> | Hne].
        -- rewrite Hchunk in Hc. injection Hc as <-.
           rewrite bool_decide_eq_true_2 by reflexivity. reflexivity.
        -- rewrite (Hpast j c) by (lia || exact Hc). apply orb_true_r.
    + exfalso. destruct Hsent as [(Hk & _) | (_ & _ & _ & Herr)]; [congruence |].
      destruct (Hok (requests w0) (Chunk.text chunk) voiceIdOf) as [body Hbody].
      rewrite (errorOf_ok _ _ Hbody) in Herr. discriminate.
    + exfalso.
      destruct (Hok (requests w0) (Chunk.text chunk) voiceIdOf) as [body Hbody].
      rewrite (errorOf_ok _ _ Hbody) in Herr. discriminate.
  - cbn [Loop.i]. lia.
  - cbn [Loop.i]. lia.
  - exact Hfuel.
  - cbn [Loop.successCount Loop.errorCount Loop.i].
    repeat apply conj; [reflexivity | reflexivity | | reflexivity |].
    + cbn [Z.to_nat take filter map]. rewrite app_nil_r. reflexivity.
    + intros j c Hj Hc. apply lookupZ_Some in Hc. lia.
  - exists st', w'. split; [exact Hloop |].
    rewrite Hi, Nat2Z.id, firstn_all in Hreq.
    repeat apply conj.
    + exact Hec.
    + lia.
    + exact Hreq.
    + intros chunk Hin. apply list_elem_of_lookup in Hin. destruct Hin as [k Hk].
      apply (Hpast (Z.of_nat k) chunk).
      * apply lookup_lt_Some in Hk. lia.
      * rewrite lookupZ_of_nat. exact Hk.
Qed.


(** ** What the stages leave alone *)

Lemma ensureDir_frame (dir : jsstring) (w : world) (q : jsstring) :
  q <> dir -> files (ensureDir dir w) !! q = files w !! q.
Proof.
  intros Hq. unfold ensureDir. destruct (existsSync w dir); [reflexivity |].
  cbn [mkdirSync files]. apply lookup_insert_ne. congruence.
Qed.

Lemma ensureDir_keeps_files (dir : jsstring) (w : world) (q : jsstring)
    (data : list N) :
  files (ensureDir dir w) !! q = Some (File data) <-> files w !! q = Some (File data).
Proof.
  unfold ensureDir. destruct (existsSync w dir) eqn:E; [reflexivity |].
  cbn [mkdirSync files]. destruct (decide (q = dir)) as [-> | Hne].
  - rewrite lookup_insert_eq. unfold existsSync in E.
    apply bool_decide_eq_false in E.
    split; intros H; [discriminate |]. exfalso. apply E. rewrite H. eauto.
  - rewrite lookup_insert_ne by congruence. reflexivity.
Qed.

Lemma execSync_frame (command outputPath : jsstring) (w : world) r w'
    (q : jsstring) :
  execSync command outputPath w = (r, w') ->
  q <> outputPath -> files w' !! q = files w !! q.
Proof.
  unfold execSync. intros H Hq.
  destruct (ffmpeg command (files (emit (EvExec command) w)))
    as [stdout output | message [output |]];
    injection H as <- <-; cbn [files emit];
    try reflexivity; apply lookup_insert_ne; congruence.
Qed.

Lemma generateSilence_frame (duration : float) (outputPath : jsstring)
    (w : world) c w' (q : jsstring) :
  generateSilence duration outputPath w = (c, w') ->
  q <> outputPath -> files w' !! q = files w !! q.
Proof.
  unfold generateSilence. intros H Hq.
  destruct (existsSync w outputPath); [injection H as <- <-; reflexivity |].
  destruct (execSync _ _ _) as [[stdout | message] w1] eqn:Hexec;
    injection H as <- <-; cbn [consoleError emit files];
    eapply execSync_frame; eassumption.
Qed.

Lemma generateSilences_frame (silencesDir : jsstring) (ds : list float)
    (q : jsstring) :
  q ∉ map (silencePath silencesDir) ds ->
  forall (w : world) c w',
    generateSilences silencesDir ds w = (c, w') ->
    files w' !! q = files w !! q.
Proof.
  induction ds as [| d ds IH]; intros Hq w c w' H.
  - injection H as <- <-. reflexivity.
  - cbn [generateSilences] in H. cbn [map] in Hq.
    apply not_elem_of_cons in Hq. destruct Hq as [Hd Hds].
    destruct (generateSilence d (silencePath silencesDir d) w) as [c1 w1] eqn:Hone.
    pose proof (generateSilence_frame _ _ _ _ _ q Hone Hd) as Hf.
    destruct c1 as [[] | m | k].
    + rewrite (IH Hds _ _ _ H). exact Hf.
    + injection H as <- <-. exact Hf.
    + injection H as <- <-. exact Hf.
Qed.

Lemma turn_files (chunksData : Manifest.t) (chunksDir voiceId : jsstring)
    (i : Z) (sc ec : nat) (w : world) (chunk : Chunk.t) c w' :
  turn chunksData chunksDir voiceId i sc ec w chunk c w' ->
  (forall q, existsSync w q = true -> existsSync w' q = true)
  /\ (forall q, q <> chunkPath chunksDir chunk -> files w' !! q = files w !! q).
Proof.
  intros Hturn. inversion Hturn as
    [Hex | body w2 Hex Hk Hans Hf Hr Ht | message sent w2 Hex Hinc Hf Ht Hsent
    | message w2 Hex Hk Herr Hinc Hf Hr Ht]; subst.
  - split; auto.
  - split; intros q Hq.
    + rewrite (existsSync_insert w w' _ _ _ Hf), Hq. apply orb_true_r.
    + rewrite Hf. apply lookup_insert_ne. congruence.
  - split; intros q Hq.
    + rewrite (existsSync_files w w' q Hf). exact Hq.
    + rewrite Hf. reflexivity.
  - split; intros q Hq.
    + rewrite (existsSync_files w w' q Hf). exact Hq.
    + rewrite Hf. reflexivity.
Qed.

Lemma forLoop_files (chunksData : Manifest.t) (chunksDir voiceId : jsstring)
    (fuel : nat) (st : Loop.t) (w : world) c w' :
  (0 <= Loop.i st <= Z.of_nat (length (Manifest.chunks chunksData)))%Z ->
  forLoop fuel chunksData chunksDir voiceId st w = Some (c, w') ->
  (forall q, existsSync w q = true -> existsSync w' q = true)
  /\ (forall q, q ∉ map (chunkPath chunksDir) (Manifest.chunks chunksData) ->
        files w' !! q = files w !! q).
Proof.
  intros Hi Hloop.
  eapply (forLoop_invariant chunksData chunksDir voiceId
            (fun _ w0 =>
               (forall q, existsSync w q = true -> existsSync w0 q = true)
               /\ (forall q,
                     q ∉ map (chunkPath chunksDir) (Manifest.chunks chunksData) ->
                     files w0 !! q = files w !! q)))
    in Hloop.
  - destruct Hloop as (st' & _ & HP & _). exact HP.
  - intros i sc ec w0 chunk st' w0' Hchunk [Hmono Hframe] Hturn.
    apply turn_files in Hturn. destruct Hturn as [Hm Hf]. split.
    + intros q Hq. apply Hm, Hmono, Hq.
    + intros q Hq. rewrite Hf; [apply Hframe, Hq |].
      intros ->. apply Hq. apply list_elem_of_fmap_2.
      unfold lookupZ in Hchunk. destruct (i <? 0)%Z; [discriminate |].
      eapply list_elem_of_lookup_2. exact Hchunk.
  - exact Hi.
  - split; auto.
Qed.

(** What a run of the runner does to the files. *)
Lemma generateChapterAudio_effect (fuel chapterNum : nat) (lang : jsstring)
    (chunksData : Manifest.t) (w w' : world) (c : completion Result.t) :
  generateChapterAudio fuel chapterNum lang chunksData w = Some (c, w') ->
  (forall q, existsSync w q = true -> existsSync w' q = true)
  /\ (forall q,
        q <> join (audioDirOf chapterNum lang) (u "chunks") ->
        q <> silencesDirOf (join root (u "audio")) ->
        q ∉ map (silencePath (silencesDirOf (join root (u "audio")))) durations ->
        q ∉ map (chunkPath (join (audioDirOf chapterNum lang) (u "chunks")))
              (Manifest.chunks chunksData) ->
        files w' !! q = files w !! q).
Proof.
  unfold generateChapterAudio. intros Hrun.
  destruct (existsSync w (join (audioDirOf chapterNum lang) (u "chunks.json")));
    cbn [negb] in Hrun.
  2:{ injection Hrun as <- <-. split; auto. }
  set (dir := join (audioDirOf chapterNum lang) (u "chunks")) in *.
  destruct (generateAllSilences _ _) as [c1 w1] eqn:Hsil.
  assert (Hprov : (forall q, existsSync w q = true -> existsSync w1 q = true)
                  /\ (forall q, q <> dir ->
                        q <> silencesDirOf (join root (u "audio")) ->
                        q ∉ map (silencePath (silencesDirOf (join root (u "audio"))))
                              durations ->
                        files w1 !! q = files w !! q)).
  { split.
    - pose proof (generateAllSilences_effect _ _ _ _ Hsil) as [(_ & _ & Hm) _].
      intros q Hq. apply Hm, existsSync_ensureDir, Hq.
    - intros q Hd Hs Hq. unfold generateAllSilences in Hsil.
      rewrite (generateSilences_frame _ _ q Hq _ _ _ Hsil).
      rewrite !ensureDir_frame by assumption. reflexivity. }
  destruct Hprov as [Hm1 Hf1].
  destruct c1 as [[] | m | k]; try (injection Hrun as <- <-; split; auto).
  destruct (forLoop fuel chunksData dir voiceIdOf (Loop.mk 0 0 0) w1)
    as [[c2 w2] |] eqn:Hloop; [| discriminate].
  apply forLoop_files in Hloop; [| cbn [Loop.i]; lia].
  destruct Hloop as [Hm2 Hf2].
  assert (w' = w2) as -> by (destruct c2; injection Hrun as _ <-; reflexivity).
  split.
  - intros q Hq. apply Hm2, Hm1, Hq.
  - intros q Hd Hs Hq Hc. rewrite (Hf2 q Hc). apply Hf1; assumption.
Qed.

(** What a run of the assembler does to the files and the requests. *)
Lemma concatChapterAudio_effect (chapterNum : nat) (lang : jsstring)
    (chunksData : Manifest.t) (w w' : world) (c : completion jsstring) :
  concatChapterAudio chapterNum lang chunksData w = (c, w') ->
  requests w' = requests w
  /\ (forall q, existsSync w q = true -> existsSync w' q = true)
  /\ (forall q,
        q <> concatListPathOf chapterNum lang ->
        q <> outputFileOf chapterNum lang ->
        files w' !! q = files w !! q).
Proof.
  unfold concatChapterAudio. intros Hrun.
  destruct (existsSync w (join (audioDirOf chapterNum lang) (u "chunks.json")));
    cbn [negb] in Hrun; [| injection Hrun as <- <-; repeat split; auto].
  destruct (existsSync w (join (audioDirOf chapterNum lang) (u "chunks")));
    cbn [negb] in Hrun; [| injection Hrun as <- <-; repeat split; auto].
  destruct (concatLoop_cases (join (audioDirOf chapterNum lang) (u "chunks"))
              (join (join root (u "audio")) (u "silences")) w
              (Manifest.chunks chunksData) [] [])
    as [[concatList Hloop] | [silenceFile Hloop]]; rewrite Hloop in Hrun.
  2:{ injection Hrun as <- <-. repeat split; auto. }
  cbn [app] in Hrun.
  destruct (missingIds _ w (Manifest.chunks chunksData)) as [| id ids].
  - destruct (execSync _ _ _) as [[stdout | message] w2] eqn:Hexec.
    + injection Hrun as <- <-.
      pose proof (execSync_effect _ _ _ _ _ Hexec) as (_ & Hr & Hm & _).
      repeat split.
      * exact Hr.
      * intros q Hq. apply Hm.
        rewrite (existsSync_insert w _ (concatListPathOf chapterNum lang) q
                   (File concatList)) by reflexivity.
        rewrite Hq. apply orb_true_r.
      * intros q Hl Ho. rewrite (execSync_frame _ _ _ _ _ q Hexec Ho).
        cbn [writeFileSync emit files]. apply lookup_insert_ne. congruence.
    + injection Hrun as <- <-.
      pose proof (execSync_effect _ _ _ _ _ Hexec) as (_ & Hr & Hm & _).
      repeat split.
      * exact Hr.
      * intros q Hq. cbn [consoleError emit]. 
        rewrite (existsSync_files w2 (emit (EvConsoleError (FfmpegError message)) w2))
          by reflexivity.
        apply Hm.
        rewrite (existsSync_insert w _ (concatListPathOf chapterNum lang) q
                   (File concatList)) by reflexivity.
        rewrite Hq. apply orb_true_r.
      * intros q Hl Ho. cbn [consoleError emit files].
        rewrite (execSync_frame _ _ _ _ _ q Hexec Ho).
        cbn [writeFileSync emit files]. apply lookup_insert_ne. congruence.
  - injection Hrun as <- <-.
    assert (Hfold : forall (l : list jsstring) (w0 : world),
               files (foldl (fun w id => consoleError (MissingChunk id) w) w0 l)
               = files w0
               /\ requests (foldl (fun w id => consoleError (MissingChunk id) w) w0 l)
                  = requests w0).
    { induction l as [| x l IH]; intros w0; [split; reflexivity |].
      cbn [foldl]. destruct (IH (consoleError (MissingChunk x) w0)) as [-> ->].
      split; reflexivity. }
    destruct (Hfold (id :: ids)
                (consoleError (MissingChunks (length (id :: ids))) w)) as [Hf Hr].
    repeat split.
    + exact Hr.
    + intros q Hq. exact (eq_trans (existsSync_files w _ q Hf) Hq).
    + intros q _ _. exact (f_equal (fun m => m !! q) Hf).
Qed.

(** ** The silence library in a run *)

(** C7: [generateSilence] is a no-op that writes nothing when the clip of
    the duration exists; when it is missing and ffmpeg completes, the clip
    is created by one run of ffmpeg and a second call is a no-op.
    [generateChapterAudio] provisions the five durations 0.8, 1.5, 2.0, 2.5
    and 3.0 before its loop: when the manifest is there the provisioning
    ends without a request having been sent; if it returns, the five clips
    exist and the run is the loop started from that world, with whatever
    fuel, and if it fails the run ends there.  When ffmpeg completes every
    command the provisioning returns, and when moreover no error of the
    service holds "429", a run with more fuel than units returns, in a
    world where the five clips exist. *)
Theorem silence_provisioning_once :
  (forall (duration : float) (outputPath : jsstring) (w : world),
     existsSync w outputPath = true ->
     generateSilence duration outputPath w = (Return tt, w))
  /\ (forall (duration : float) (outputPath : jsstring) (w : world)
        (stdout : jsstring) (output : list N),
        existsSync w outputPath = false ->
        ffmpeg (silenceCommand duration outputPath) (files w)
        = FfmpegDone stdout output ->
        exists w',
          generateSilence duration outputPath w = (Return tt, w')
          /\ files w' = <[outputPath := File output]> (files w)
          /\ trace w' = trace w ++ [EvExec (silenceCommand duration outputPath)]
          /\ generateSilence duration outputPath w' = (Return tt, w'))
  /\ (forall (chapterNum : nat) (lang : jsstring) (chunksData : Manifest.t)
        (w : world),
        existsSync w (join (audioDirOf chapterNum lang) (u "chunks.json")) = true ->
        exists c w1,
          generateAllSilences (join root (u "audio"))
            (ensureDir (join (audioDirOf chapterNum lang) (u "chunks")) w) = (c, w1)
          /\ noRequest w w1
          /\ match c with
             | Return _ =>
                 Forall (fun d =>
                           existsSync w1
                             (silencePath (join (join root (u "audio")) (u "silences")) d)
                           = true)
                   [0.8; 1.5; 2.0; 2.5; 3.0]%float
                 /\ forall fuel : nat,
                      generateChapterAudio fuel chapterNum lang chunksData w
                      = match forLoop fuel chunksData
                                (join (audioDirOf chapterNum lang) (u "chunks"))
                                voiceIdOf (Loop.mk 0 0 0) w1 with
                        | None => None
                        | Some (Return st, w') =>
                            Some (Return (Result.mk (Loop.successCount st)
                                            (Loop.errorCount st)
                                            (Manifest.totalChunks chunksData)), w')
                        | Some (Throw message, w') => Some (Throw message, w')
                        | Some (Exit code, w') => Some (Exit code, w')
                        end
             | Throw message =>
                 forall fuel : nat,
                   generateChapterAudio fuel chapterNum lang chunksData w
                   = Some (Throw message, w1)
             | Exit code =>
                 forall fuel : nat,
                   generateChapterAudio fuel chapterNum lang chunksData w
                   = Some (Exit code, w1)
             end)
  /\ (forall (fuel chapterNum : nat) (lang : jsstring) (chunksData : Manifest.t)
        (w : world),
        existsSync w (join (audioDirOf chapterNum lang) (u "chunks.json")) = true ->
        (forall command d, exists stdout output,
           ffmpeg command d = FfmpegDone stdout output) ->
        (forall n text voiceId message,
           errorOf (fishAudio n text voiceId) = Some message ->
           includes message (u "429") = false) ->
        length (Manifest.chunks chunksData) < fuel ->
        exists w1 r w',
          generateAllSilences (join root (u "audio"))
            (ensureDir (join (audioDirOf chapterNum lang) (u "chunks")) w)
          = (Return tt, w1)
          /\ requests w1 = requests w
          /\ Forall (fun d =>
                       existsSync w1
                         (silencePath (join (join root (u "audio")) (u "silences")) d)
                       = true)
               [0.8; 1.5; 2.0; 2.5; 3.0]%float
          /\ generateChapterAudio fuel chapterNum lang chunksData w
             = Some (Return r, w')
          /\ Forall (fun d =>
                       existsSync w'
                         (silencePath (join (join root (u "audio")) (u "silences")) d)
                       = true)
               [0.8; 1.5; 2.0; 2.5; 3.0]%float).
Proof.
  split; [exact generateSilence_exists |]. split; [| split].
  - intros duration outputPath w stdout output Hex Hff.
    eexists. split; [eapply generateSilence_creates; eauto |].
    cbn [files trace]. repeat split.
    apply generateSilence_exists.
    rewrite (existsSync_insert w _ outputPath outputPath (File output))
      by reflexivity.
    rewrite bool_decide_eq_true_2 by reflexivity. reflexivity.
  - intros chapterNum lang chunksData w Hfile.
    destruct (generateAllSilences (join root (u "audio"))
                (ensureDir (join (audioDirOf chapterNum lang) (u "chunks")) w))
      as [c w1] eqn:Hsil.
    exists c, w1. split; [reflexivity |].
    pose proof (generateAllSilences_effect _ _ _ _ Hsil) as [Hn Hall].
    split; [eapply noRequest_trans; [apply noRequest_ensureDir | exact Hn] |].
    destruct c as [[] | message | code].
    + split; [apply Hall; reflexivity |].
      intros fuel. unfold generateChapterAudio.
      rewrite Hfile. cbn [negb]. rewrite Hsil. reflexivity.
    + intros fuel. unfold generateChapterAudio.
      rewrite Hfile. cbn [negb]. rewrite Hsil. reflexivity.
    + intros fuel. unfold generateChapterAudio.
      rewrite Hfile. cbn [negb]. rewrite Hsil. reflexivity.
  - intros fuel chapterNum lang chunksData w Hfile Hff Hnever Hfuel.
    set (dir := join (audioDirOf chapterNum lang) (u "chunks")).
    destruct (generateSilences_done (silencesDirOf (join root (u "audio")))
                durations Hff
                (ensureDir (silencesDirOf (join root (u "audio")))
                   (ensureDir dir w))) as [w1 Hsil].
    change (generateAllSilences (join root (u "audio")) (ensureDir dir w)
            = (Return tt, w1)) in Hsil.
    pose proof (generateAllSilences_effect _ _ _ _ Hsil) as [Hn Hall].
    specialize (Hall eq_refl).
    destruct (forLoop_advancing chunksData dir voiceIdOf (fun _ _ => True))
      with (n := length (Manifest.chunks chunksData)) (fuel := fuel)
           (st := Loop.mk 0 0 0) (w := w1)
      as (st' & w' & Hloop & _ & _).
    + intros i sc ec w0 chunk st' w0' _ _ Hturn.
      inversion Hturn as
        [Hex | body w2 Hex Hkey Hans Hf Hr Ht | message sent w2 Hex Hinc Hf Ht Hsent
        | message w2 Hex Hkey Herr Hinc Hf Hr Ht]; subst; cbn [Loop.i];
        try (split; [exact I | reflexivity]).
      rewrite (Hnever _ _ _ _ Herr) in Hinc. discriminate.
    + cbn [Loop.i]. lia.
    + cbn [Loop.i]. lia.
    + exact Hfuel.
    + exact I.
    + exists w1, (Result.mk (Loop.successCount st') (Loop.errorCount st')
                    (Manifest.totalChunks chunksData)), w'.
      split; [exact Hsil |]. split.
      { destruct Hn as (Hr & _). rewrite Hr.
        unfold ensureDir. destruct (existsSync w dir); reflexivity. }
      split; [exact Hall |]. split.
      { unfold generateChapterAudio. rewrite Hfile. cbn [negb].
        fold dir. rewrite Hsil, Hloop. reflexivity. }
      apply forLoop_files in Hloop; [| cbn [Loop.i]; lia].
      destruct Hloop as [Hmono _].
      eapply Forall_impl; [exact Hall |]. intros d Hd. apply Hmono, Hd.
Qed.

(** ** The runner and the assembler together *)

Lemma ensureDir_made (dir : jsstring) (w : world) :
  existsSync (ensureDir dir w) dir = true.
Proof.
  unfold ensureDir. destruct (existsSync w dir) eqn:E; [exact E |].
  rewrite (existsSync_insert w _ dir dir Dir) by reflexivity.
  rewrite bool_decide_eq_true_2 by reflexivity. reflexivity.
Qed.

(** X9: a synthesis run that returns with no error counted leaves all the
    assembler asks for, when every positive pause of the manifest is one of
    the provisioned durations: run on the world the runner leaves, the
    assembler finds the manifest, the clips directory, every clip and
    every silence, so it writes the concat list of the whole manifest and
    hands it to ffmpeg. *)
Theorem clean_synthesis_feeds_assembler (fuel chapterNum : nat) (lang : jsstring)
    (chunksData : Manifest.t) (w w' : world) (r : Result.t) :
  generateChapterAudio fuel chapterNum lang chunksData w = Some (Return r, w') ->
  Result.errorCount r = 0 ->
  (forall chunk, chunk ∈ Manifest.chunks chunksData ->
     PrimFloat.ltb 0 (Chunk.pauseAfter chunk) = true ->
     In (Chunk.pauseAfter chunk) durations) ->
  concatChapterAudio chapterNum lang chunksData w'
  = match execSync
            (concatCommand (concatListPathOf chapterNum lang)
               (outputFileOf chapterNum lang))
            (outputFileOf chapterNum lang)
            (writeFileSync (concatListPathOf chapterNum lang)
               (concat (map concatLine
                  (concatEntries (join (audioDirOf chapterNum lang) (u "chunks"))
                     (join (join root (u "audio")) (u "silences"))
                     (Manifest.chunks chunksData))))
               w') with
    | (inl _, w2) => (Return (outputFileOf chapterNum lang), w2)
    | (inr message, w2) => (Exit 1, consoleError (FfmpegError message) w2)
    end.
Proof.
  intros Hrun Hclean Hpauses. apply generateChapterAudio_returns in Hrun.
  destruct Hrun as (w1 & st & Hfile & Hsil & Hloop & ->).
  cbn [Result.errorCount] in Hclean.
  pose proof (forLoop_clean_clips _ _ _ _ _ _ _ Hloop Hclean) as [_ Hclips].
  apply forLoop_files in Hloop; [| cbn [Loop.i]; lia].
  destruct Hloop as [Hmono _].
  pose proof (generateAllSilences_effect _ _ _ _ Hsil) as [(_ & _ & Hm1) Hprov].
  specialize (Hprov eq_refl).
  apply concatChapterAudio_present.
  - apply Hmono, Hm1, existsSync_ensureDir, Hfile.
  - apply Hmono, Hm1, ensureDir_made.
  - exact Hclips.
  - intros chunk Hin Hpos. apply Hmono.
    rewrite Forall_forall in Hprov. apply Hprov.
    apply list_elem_of_In. apply Hpauses; assumption.
Qed.

(** ** Numbers in names *)

Lemma u_cons (c : Ascii.ascii) (s : string) :
  u (String c s) = Stdlib.Strings.Ascii.N_of_ascii c :: u s.
Proof. reflexivity. Qed.

(** Reading the decimal digits of a number gives the number back. *)
Lemma digitsFrom_uint (d : Decimal.uint) : forall (acc : nat) (rest : jsstring),
  digitsFrom 10 (Z.of_nat acc) (u (NilEmpty.string_of_uint d) ++ rest)
  = digitsFrom 10 (Z.of_nat (Nat.of_uint_acc d acc)) rest.
Proof.
  induction d as [| d IH | d IH | d IH | d IH | d IH | d IH | d IH | d IH | d IH | d IH];
    intros acc rest; [reflexivity | ..];
    cbn [NilEmpty.string_of_uint Nat.of_uint_acc]; rewrite u_cons;
    cbn [app digitsFrom]; rewrite <- IH; rewrite Nat.tail_mul_spec;
    (match goal with
     | |- context [digitOf 10 ?c] =>
         let v := eval vm_compute in (digitOf 10 c) in
         change (digitOf 10 c) with v
     end);
    cbv beta iota; f_equal; lia.
Qed.

Lemma showNat_NilEmpty (n : nat) :
  showNat n = u (NilEmpty.string_of_uint (Nat.to_uint n)).
Proof.
  unfold showNat, NilZero.string_of_uint.
  assert (Hn : Nat.to_uint n <> Decimal.Nil).
  { rewrite <- (DecimalNat.Unsigned.of_to n) at 1.
    rewrite DecimalNat.Unsigned.to_of. apply DecimalFacts.unorm_nonnil. }
  destruct (Nat.to_uint n); [contradiction | reflexivity ..].
Qed.

Lemma digitsFrom_showNat (n : nat) (rest : jsstring) :
  digitsFrom 10 0 (showNat n ++ rest) = digitsFrom 10 (Z.of_nat n) rest.
Proof.
  rewrite showNat_NilEmpty.
  change 0%Z with (Z.of_nat 0) at 1.
  rewrite (digitsFrom_uint (Nat.to_uint n) 0 rest).
  change (Nat.of_uint_acc (Nat.to_uint n) 0) with (Nat.of_uint (Nat.to_uint n)).
  rewrite DecimalNat.Unsigned.of_to. reflexivity.
Qed.

Lemma digitsFrom_zeros (k : nat) (s : jsstring) :
  digitsFrom 10 0 (replicate k 48%N ++ s) = digitsFrom 10 0 s.
Proof. induction k as [| k IH]; [reflexivity | exact IH]. Qed.

Lemma chunkId_inj (chapterNum i j : nat) :
  chunkId chapterNum i = chunkId chapterNum j -> i = j.
Proof.
  unfold chunkId, padStart. intros H.
  do 3 apply app_inv_head in H.
  apply (f_equal (digitsFrom 10 0)) in H.
  rewrite !digitsFrom_zeros in H.
  rewrite <- (app_nil_r (showNat i)), <- (app_nil_r (showNat j)) in H.
  rewrite !digitsFrom_showNat in H. cbn [digitsFrom] in H. lia.
Qed.

Lemma planner_ids (chapterNum : nat) (lang : jsstring) (ch : chapter) :
  map Chunk.id (Manifest.chunks (prepareChapterChunks chapterNum lang ch))
  = map (chunkId chapterNum)
      (seq 0 (length (Manifest.chunks (prepareChapterChunks chapterNum lang ch)))).
Proof.
  rewrite prepareChapterChunks_chunks. cbn [map length seq]. f_equal.
  rewrite length_imap. apply (imap_unitOf_ids chapterNum (survivors ch) 1).
Qed.

Lemma planner_paths_NoDup (chapterNum : nat) (lang : jsstring) (ch : chapter)
    (chunksDir : jsstring) :
  NoDup (map (chunkPath chunksDir)
           (Manifest.chunks (prepareChapterChunks chapterNum lang ch))).
Proof.
  replace (map (chunkPath chunksDir)
             (Manifest.chunks (prepareChapterChunks chapterNum lang ch)))
    with (map (fun id => join chunksDir (id ++ u ".mp3"))
            (map Chunk.id (Manifest.chunks (prepareChapterChunks chapterNum lang ch))))
    by (rewrite map_map; reflexivity).
  apply NoDup_fmap_2.
  - intros a b Hab. unfold join in Hab.
    do 2 apply app_inv_head in Hab. apply app_inv_tail in Hab. exact Hab.
  - rewrite planner_ids. apply NoDup_fmap_2; [| apply NoDup_seq].
    intros i j. apply chunkId_inj.
Qed.

(** X10: the units of a planned manifest have pairwise distinct ids, and so
    pairwise distinct clips in any clips directory: the zero padding of the
    ordinal to three digits identifies no two ordinals, also from a
    thousand units on, where the ordinal is longer than the padding. *)
Theorem planner_ids_distinct (chapterNum : nat) (lang : jsstring) (ch : chapter)
    (chunksDir : jsstring) :
  NoDup (map Chunk.id (Manifest.chunks (prepareChapterChunks chapterNum lang ch)))
  /\ NoDup (map (chunkPath chunksDir)
              (Manifest.chunks (prepareChapterChunks chapterNum lang ch))).
Proof.
  split; [| apply planner_paths_NoDup].
  rewrite planner_ids. apply NoDup_fmap_2; [| apply NoDup_seq].
  intros i j Hij. unfold chunkId, padStart in Hij.
  do 3 apply app_inv_head in Hij.
  apply (f_equal (digitsFrom 10 0)) in Hij.
  rewrite !digitsFrom_zeros in Hij.
  rewrite <- (app_nil_r (showNat i)), <- (app_nil_r (showNat j)) in Hij.
  rewrite !digitsFrom_showNat in Hij. cbn [digitsFrom] in Hij. lia.
Qed.

Ltac one_of_them := repeat (first [left; reflexivity | right]).

Ltac project_conjunct :=
  let c := fresh "c" in
  let H := fresh "H" in
  intros c H; cbv beta in H;
  repeat match type of H with
         | _ /\ _ => let H1 := fresh "H" in destruct H as [H1 H]
         end;
  repeat split; assumption.

Lemma pausePolicy_cases (p : placed) :
  In (pausePolicy p) [0.8; 1.5; 2.5; 3.0]%float.
Proof.
  unfold pausePolicy, basePause.
  destruct (isLastBlock p && isLastSection p); [cbn [In]; one_of_them |].
  destruct (isLastBlock p); [cbn [In]; one_of_them |].
  destruct (bool_decide _); cbn [In]; one_of_them.
Qed.

(** X11: every pause of a planned manifest is positive and is one of the
    five durations the runner provisions a silence for: the assembler
    needs a silence after every unit of a planned manifest and none that
    the runner does not make. *)
Theorem planner_pauses_are_provisioned (chapterNum : nat) (lang : jsstring)
    (ch : chapter) :
  Forall (fun c => In (Chunk.pauseAfter c) durations
                   /\ PrimFloat.ltb 0 (Chunk.pauseAfter c) = true)
    (Manifest.chunks (prepareChapterChunks chapterNum lang ch)).
Proof.
  rewrite prepareChapterChunks_chunks. apply Forall_cons. split.
  - split; [cbn [introChunk Chunk.pauseAfter durations In]; one_of_them | reflexivity].
  - assert (Himap : forall (ps : list placed) (f : nat -> placed -> Chunk.t)
                           (P : Chunk.t -> Prop),
               (forall k p, P (f k p)) -> Forall P (imap f ps)).
    { induction ps as [| p ps IH]; intros f P HP; cbn [imap].
      - apply Forall_nil. exact I.
      - apply Forall_cons. split; [apply HP |]. apply IH. intros k q. apply HP. }
    apply Himap. intros k p. cbn [unitOf Chunk.pauseAfter].
    pose proof (pausePolicy_cases p) as H. cbn [In] in H.
    destruct H as [<- | [<- | [<- | [<- | []]]]];
      (split; [cbn [durations In]; one_of_them | reflexivity]).
Qed.

(** *** Paths that are never confused *)

Lemma showNat_digit (n : nat) :
  exists d ds, showNat n = d :: ds /\ (48 <= d <= 57)%N.
Proof.
  rewrite showNat_NilEmpty.
  assert (Hn : Nat.to_uint n <> Decimal.Nil).
  { rewrite <- (DecimalNat.Unsigned.of_to n) at 1.
    rewrite DecimalNat.Unsigned.to_of. apply DecimalFacts.unorm_nonnil. }
  destruct (Nat.to_uint n) as [| d | d | d | d | d | d | d | d | d | d];
    [contradiction | ..];
    cbn [NilEmpty.string_of_uint]; rewrite u_cons;
    (eexists _, _; split; [reflexivity | vm_compute; split; discriminate]).
Qed.

Lemma clip_not_concatList (chapterNum : nat) (lang : jsstring) (chunk : Chunk.t) :
  chunkPath (join (audioDirOf chapterNum lang) (u "chunks")) chunk
  <> concatListPathOf chapterNum lang.
Proof.
  unfold chunkPath, concatListPathOf, join. rewrite <- !app_assoc. intros H.
  do 2 apply app_inv_head in H. discriminate H.
Qed.

Lemma clip_not_outputFile (chapterNum : nat) (lang : jsstring) (chunk : Chunk.t) :
  chunkPath (join (audioDirOf chapterNum lang) (u "chunks")) chunk
  <> outputFileOf chapterNum lang.
Proof.
  unfold chunkPath, outputFileOf, join. rewrite <- !app_assoc.
  intros H. do 2 apply app_inv_head in H.
  destruct (showNat_digit chapterNum) as (d & ds & Hshow & Hd).
  rewrite Hshow in H.
  change (u "chunks") with (99%N :: 104%N :: 117%N :: u "nks") in H.
  change (u "ch") with [99%N; 104%N] in H. cbn [app] in H.
  injection H as Hu _. lia.
Qed.

Lemma knownLang_cases (lang : jsstring) :
  knownLang lang = true -> lang = u "en" \/ lang = u "es".
Proof.
  unfold knownLang. intros H. apply orb_true_iff in H.
  destruct H as [H | H]; apply bool_decide_eq_true in H; auto.
Qed.

Lemma manifest_not_chunksDir (n : nat) (lang : jsstring) :
  join (audioDirOf n lang) (u "chunks.json") <> join (audioDirOf n lang) (u "chunks").
Proof.
  unfold join. intros H. do 2 apply app_inv_head in H. discriminate H.
Qed.

Lemma manifest_not_clip (n : nat) (lang : jsstring) (chunks : list Chunk.t) :
  join (audioDirOf n lang) (u "chunks.json")
  ∉ map (chunkPath (join (audioDirOf n lang) (u "chunks"))) chunks.
Proof.
  intros Hin. apply list_elem_of_fmap in Hin. destruct Hin as (c & H & _).
  unfold chunkPath, join in H. rewrite <- !app_assoc in H.
  do 2 apply app_inv_head in H. discriminate H.
Qed.

Lemma manifest_not_silences (n : nat) (lang : jsstring) :
  knownLang lang = true ->
  join (audioDirOf n lang) (u "chunks.json") <> silencesDirOf (join root (u "audio"))
  /\ join (audioDirOf n lang) (u "chunks.json")
     ∉ map (silencePath (silencesDirOf (join root (u "audio")))) durations.
Proof.
  intros Hlang. apply knownLang_cases in Hlang. split.
  - unfold silencesDirOf, audioDirOf, join. rewrite <- !app_assoc. intros H.
    do 3 apply app_inv_head in H. destruct Hlang as [-> | ->]; discriminate H.
  - intros Hin. apply list_elem_of_fmap in Hin. destruct Hin as (d & H & _).
    unfold silencePath, silencesDirOf, audioDirOf, join in H.
    rewrite <- !app_assoc in H.
    do 3 apply app_inv_head in H. destruct Hlang as [-> | ->]; discriminate H.
Qed.

(** The ids the planner gives hold no separator: they are made of [ch],
    [-chunk-] and digits. *)
Lemma plainName_app (s t : jsstring) :
  plainName (s ++ t) = plainName s && plainName t.
Proof. apply forallb_app. Qed.

Lemma showNat_plain (n : nat) : plainName (showNat n) = true.
Proof.
  rewrite showNat_NilEmpty.
  induction (Nat.to_uint n) as [| d IH | d IH | d IH | d IH | d IH | d IH | d IH
                                | d IH | d IH | d IH];
    [reflexivity | ..];
    cbn [NilEmpty.string_of_uint]; rewrite u_cons; exact IH.
Qed.

Lemma chunkId_plain (chapterNum chunkIndex : nat) :
  plainName (chunkId chapterNum chunkIndex) = true.
Proof.
  unfold chunkId, padStart. rewrite !plainName_app, !showNat_plain.
  assert (Hpad : forall k, plainName (replicate k 48%N) = true).
  { induction k as [| k IH]; [reflexivity | exact IH]. }
  rewrite Hpad. reflexivity.
Qed.

Lemma planner_ids_plain (chapterNum : nat) (lang : jsstring) (ch : chapter) :
  Forall (fun chunk => plainName (Chunk.id chunk) = true)
    (Manifest.chunks (prepareChapterChunks chapterNum lang ch)).
Proof.
  apply (Forall_fmap Chunk.id (fun id => plainName id = true)).
  rewrite planner_ids. apply Forall_fmap, Forall_forall.
  intros i _. apply chunkId_plain.
Qed.

Lemma outputFile_not_chunksDir (chapterNum : nat) (lang : jsstring) :
  outputFileOf chapterNum lang <> join (audioDirOf chapterNum lang) (u "chunks").
Proof.
  unfold outputFileOf, join.
  intros H. do 2 apply app_inv_head in H.
  destruct (showNat_digit chapterNum) as (d & ds & Hshow & Hd).
  rewrite Hshow in H.
  change (u "chunks") with (99%N :: 104%N :: 117%N :: u "nks") in H.
  change (u "ch") with [99%N; 104%N] in H. cbn [app] in H.
  injection H as Hu _. lia.
Qed.

Lemma outputFile_not_silences (chapterNum : nat) (lang : jsstring) :
  knownLang lang = true ->
  outputFileOf chapterNum lang <> silencesDirOf (join root (u "audio"))
  /\ outputFileOf chapterNum lang
     ∉ map (silencePath (silencesDirOf (join root (u "audio")))) durations.
Proof.
  intros Hlang. apply knownLang_cases in Hlang. split.
  - unfold outputFileOf, silencesDirOf, audioDirOf, join. rewrite <- !app_assoc.
    intros H. do 3 apply app_inv_head in H.
    destruct Hlang as [-> | ->]; discriminate H.
  - intros Hin. apply list_elem_of_fmap in Hin. destruct Hin as (d & H & _).
    unfold outputFileOf, silencePath, silencesDirOf, audioDirOf, join in H.
    rewrite <- !app_assoc in H.
    do 3 apply app_inv_head in H. destruct Hlang as [-> | ->]; discriminate H.
Qed.

(** X7: whatever way a run of the runner ends, nothing that was on the
    disk is gone after it.  For a language [main] lets through and a
    manifest whose ids hold no separator, where the paths of the model are
    the paths the script touches, every regular file other than the five
    silences and the clips of the units of the manifest is as it was, and
    so are the manifest and the final file of the chapter. *)
Theorem runner_touches_only_its_outputs (fuel chapterNum : nat) (lang : jsstring)
    (chunksData : Manifest.t) (w w' : world) (c : completion Result.t) :
  generateChapterAudio fuel chapterNum lang chunksData w = Some (c, w') ->
  (forall q, existsSync w q = true -> existsSync w' q = true)
  /\ (knownLang lang = true ->
      Forall (fun chunk => plainName (Chunk.id chunk) = true)
        (Manifest.chunks chunksData) ->
      (forall q data,
         q ∉ map (silencePath (silencesDirOf (join root (u "audio")))) durations ->
         q ∉ map (chunkPath (join (audioDirOf chapterNum lang) (u "chunks")))
               (Manifest.chunks chunksData) ->
         files w' !! q = Some (File data) <-> files w !! q = Some (File data))
      /\ files w' !! join (audioDirOf chapterNum lang) (u "chunks.json")
         = files w !! join (audioDirOf chapterNum lang) (u "chunks.json")
      /\ files w' !! outputFileOf chapterNum lang
         = files w !! outputFileOf chapterNum lang).
Proof.
  intros Hrun.
  pose proof (generateChapterAudio_effect _ _ _ _ _ _ _ Hrun) as [Hmono Hexact].
  split; [exact Hmono |]. intros Hlang _. repeat apply conj.
  - intros q data Hq Hc. unfold generateChapterAudio in Hrun.
    destruct (existsSync w (join (audioDirOf chapterNum lang) (u "chunks.json")));
      cbn [negb] in Hrun.
    2:{ injection Hrun as <- <-. reflexivity. }
    set (dir := join (audioDirOf chapterNum lang) (u "chunks")) in *.
    destruct (generateAllSilences _ _) as [c1 w1] eqn:Hsil.
    assert (Hprov : files w1 !! q = Some (File data)
                    <-> files w !! q = Some (File data)).
    { unfold generateAllSilences in Hsil.
      rewrite (generateSilences_frame _ _ q Hq _ _ _ Hsil).
      rewrite !ensureDir_keeps_files. reflexivity. }
    destruct c1 as [[] | m | k]; try (injection Hrun as <- <-; exact Hprov).
    destruct (forLoop fuel chunksData dir voiceIdOf (Loop.mk 0 0 0) w1)
      as [[c2 w2] |] eqn:Hloop; [| discriminate].
    apply forLoop_files in Hloop; [| cbn [Loop.i]; lia].
    destruct Hloop as [_ Hf2].
    assert (w' = w2) as -> by (destruct c2; injection Hrun as _ <-; reflexivity).
    rewrite (Hf2 q Hc). exact Hprov.
  - apply Hexact.
    + apply manifest_not_chunksDir.
    + apply manifest_not_silences, Hlang.
    + apply manifest_not_silences, Hlang.
    + apply manifest_not_clip.
  - apply Hexact.
    + apply outputFile_not_chunksDir.
    + apply outputFile_not_silences, Hlang.
    + apply outputFile_not_silences, Hlang.
    + intros Hin. apply list_elem_of_fmap in Hin. destruct Hin as (chunk & H & _).
      symmetry in H. exact (clip_not_outputFile _ _ _ H).
Qed.

(** X8: whatever way a run of the assembler ends, it has sent no request,
    nothing that was on the disk is gone after it, and every file other
    than the concat list and the final file of the chapter is as it was.
    For a language [main] lets through, the clip of a unit whose id holds
    no separator is neither of the two: the assembler writes no such
    clip. *)
Theorem assembler_touches_only_its_outputs (chapterNum : nat) (lang : jsstring)
    (chunksData : Manifest.t) (w w' : world) (c : completion jsstring) :
  concatChapterAudio chapterNum lang chunksData w = (c, w') ->
  requests w' = requests w
  /\ (forall q, existsSync w q = true -> existsSync w' q = true)
  /\ (forall q,
        q <> concatListPathOf chapterNum lang ->
        q <> outputFileOf chapterNum lang ->
        files w' !! q = files w !! q)
  /\ (knownLang lang = true ->
      forall chunk,
        plainName (Chunk.id chunk) = true ->
        files w' !! chunkPath (join (audioDirOf chapterNum lang) (u "chunks")) chunk
        = files w !! chunkPath (join (audioDirOf chapterNum lang) (u "chunks")) chunk).
Proof.
  intros Hrun. apply concatChapterAudio_effect in Hrun.
  destruct Hrun as (Hr & Hmono & Hframe).
  repeat apply conj; [exact Hr | exact Hmono | exact Hframe |].
  intros _ chunk _.
  apply Hframe; [apply clip_not_concatList | apply clip_not_outputFile].
Qed.

(** ** The cleaning of the text *)

Lemma span_spec (f : N -> bool) (s : jsstring) : forall ws rest,
  span f s = (ws, rest) ->
  s = ws ++ rest
  /\ Forall (fun c => f c = true) ws
  /\ (forall c, head rest = Some c -> f c = false).
Proof.
  induction s as [| c s IH]; intros ws rest H; cbn [span] in H.
  - injection H as <- <-. repeat split; [constructor | discriminate].
  - destruct (f c) eqn:Hc.
    + destruct (span f s) as [a b]. injection H as <- <-.
      destruct (IH a b eq_refl) as (-> & Ha & Hb).
      repeat split; [constructor; assumption | exact Hb].
    + injection H as <- <-. repeat split; [constructor |].
      intros d [= <-]. exact Hc.
Qed.

Lemma dropWhile_split (f : N -> bool) (s : jsstring) :
  exists pre, s = pre ++ dropWhile f s /\ Forall (fun c => f c = true) pre.
Proof.
  induction s as [| c s (pre & IH & Hpre)]; [exists []; split; [reflexivity | constructor] |].
  cbn [dropWhile]. destruct (f c) eqn:Hc.
  - exists (c :: pre). split; [cbn [app]; f_equal; exact IH | constructor; assumption].
  - exists []. split; [reflexivity | constructor].
Qed.

Lemma dropWhile_head (f : N -> bool) (s : jsstring) (c : N) :
  head (dropWhile f s) = Some c -> f c = false.
Proof.
  induction s as [| x s IH]; [discriminate |].
  cbn [dropWhile]. destruct (f x) eqn:Hx; [exact IH |]. intros [= <-]. exact Hx.
Qed.

(** What [trim] returns is a segment of its argument, between white
    space. *)
Lemma trim_segment (s : jsstring) :
  exists pre post,
    s = pre ++ trim s ++ post
    /\ dropWhile isSpace s = trim s ++ post
    /\ Forall (fun c => isSpace c = true) pre
    /\ Forall (fun c => isSpace c = true) post.
Proof.
  destruct (dropWhile_split isSpace s) as (pre & Hs & Hpre).
  destruct (dropWhile_split isSpace (reverse (dropWhile isSpace s)))
    as (rpost & Hr & Hpost).
  exists pre, (reverse rpost).
  assert (Ha : dropWhile isSpace s = trim s ++ reverse rpost).
  { unfold trim. rewrite <- reverse_app, <- Hr, reverse_involutive. reflexivity. }
  repeat split.
  - rewrite <- Ha. exact Hs.
  - exact Ha.
  - exact Hpre.
  - apply Forall_reverse. exact Hpost.
Qed.

Lemma trim_ends (s : jsstring) (c : N) :
  head (trim s) = Some c \/ last (trim s) = Some c -> isSpace c = false.
Proof.
  intros [H | H].
  - destruct (trim_segment s) as (pre & post & _ & Ha & _).
    apply (dropWhile_head isSpace s). rewrite Ha.
    destruct (trim s); [discriminate | exact H].
  - unfold trim in H. rewrite last_reverse in H.
    apply dropWhile_head in H. exact H.
Qed.

(** X12: what [cleanText] returns neither starts nor ends with white
    space. *)
Theorem cleanText_trimmed (text : jsstring) (c : N) :
  head (cleanText text) = Some c \/ last (cleanText text) = Some c ->
  isSpace c = false.
Proof.
  unfold cleanText. destruct text as [| x text].
  - intros [H | H]; discriminate.
  - apply trim_ends.
Qed.

Lemma spacesOk_lookup (r : jsstring) : forall (i : nat) (c : N),
  spacesOk r -> r !! i = Some c -> isSpace c = true ->
  c = 32%N /\ forall d, r !! S i = Some d -> isSpace d = false.
Proof.
  induction r as [| x r IH]; intros i c Hok Hi Hc; [discriminate |].
  destruct Hok as [Hx Hr]. destruct i as [| i].
  - injection Hi as ->. destruct (Hx Hc) as [-> Hnext]. split; [reflexivity |].
    intros d Hd. apply Hnext. rewrite head_lookup. exact Hd.
  - apply (IH i c Hr Hi Hc).
Qed.

Lemma replaceAll_matchSpaces (fuel : nat) : forall s : jsstring,
  length s < fuel ->
  spacesOk (replaceAll_fuel matchSpaces fuel s)
  /\ forall d, head (replaceAll_fuel matchSpaces fuel s) = Some d ->
       isSpace d = true -> exists c, head s = Some c /\ isSpace c = true.
Proof.
  induction fuel as [| fuel IH]; intros s Hlen; [lia |].
  cbn [replaceAll_fuel]. unfold matchSpaces.
  destruct (span isSpace s) as [ws rest] eqn:Hspan.
  destruct (span_spec _ _ _ _ Hspan) as (Hs & Hws & Hrest).
  destruct ws as [| x ws].
  - cbn [app] in Hs. subst rest. destruct s as [| c s].
    + split; [exact I | discriminate].
    + assert (Hc : isSpace c = false) by (apply Hrest; reflexivity).
      cbn [length] in Hlen. destruct (IH s) as [Hok _]; [lia |].
      split.
      * cbn [spacesOk]. split; [congruence | exact Hok].
      * intros d [= <-] Hd. congruence.
  - assert (Hlen' : length rest < fuel).
    { rewrite Hs in Hlen. rewrite length_app in Hlen. cbn [length] in Hlen. lia. }
    destruct (IH rest Hlen') as [Hok Hhead].
    change (u " " ++ replaceAll_fuel matchSpaces fuel rest)
      with (32%N :: replaceAll_fuel matchSpaces fuel rest).
    split.
    + cbn [spacesOk]. split; [| exact Hok].
      intros _. split; [reflexivity |].
      intros d Hd. destruct (isSpace d) eqn:Hsp; [| reflexivity].
      destruct (Hhead d Hd Hsp) as (c & Hc & Hcs).
      rewrite (Hrest c Hc) in Hcs. discriminate.
    + intros d _ _. exists x. rewrite Hs. split; [reflexivity |].
      apply Forall_cons in Hws. apply Hws.
Qed.

(** X13: white space inside what [cleanText] returns is single: a white
    space unit of the result is U+0020, and the unit after it is not white
    space. *)
Theorem cleanText_single_spaces (text : jsstring) (i : nat) (c : N) :
  cleanText text !! i = Some c ->
  isSpace c = true ->
  c = 32%N /\ forall d, cleanText text !! S i = Some d -> isSpace d = false.
Proof.
  unfold cleanText. destruct text as [| x text]; [discriminate |].
  set (s := replaceAll matchSpaces _).
  assert (Hok : spacesOk s).
  { apply replaceAll_matchSpaces. lia. }
  destruct (trim_segment s) as (pre & post & Hs & _ & _ & _).
  intros Hi Hc.
  assert (Hat : forall j y, trim s !! j = Some y -> s !! (length pre + j) = Some y).
  { intros j y Hj. rewrite Hs at 1.
    rewrite lookup_app_r by lia.
    replace (length pre + j - length pre) with j by lia.
    rewrite lookup_app_l by (apply lookup_lt_Some in Hj; exact Hj). exact Hj. }
  destruct (spacesOk_lookup s _ c Hok (Hat i c Hi) Hc) as [-> Hnext].
  split; [reflexivity |].
  intros d Hd. apply Hnext. rewrite <- Nat.add_succ_r. apply Hat. exact Hd.
Qed.

(** A matcher that fails on every text that starts with a unit of the
    text leaves the text as it is. *)
Lemma replaceAll_fuel_nomatch (m : jsstring -> option (jsstring * jsstring))
    (P : N -> Prop) :
  m [] = None ->
  (forall c t, P c -> m (c :: t) = None) ->
  forall (fuel : nat) (s : jsstring),
    Forall P s -> replaceAll_fuel m fuel s = s.
Proof.
  intros Hnil Hcons. induction fuel as [| fuel IH]; intros s Hs; [reflexivity |].
  cbn [replaceAll_fuel]. destruct s as [| c s]; [rewrite Hnil; reflexivity |].
  apply Forall_cons in Hs. destruct Hs as [Hc Hs].
  rewrite (Hcons c s Hc), (IH s Hs). reflexivity.
Qed.

Lemma stripPrefix_first (p : jsstring) (x c : N) (t : jsstring) :
  c <> x -> stripPrefix (x :: p) (c :: t) = None.
Proof.
  intros Hc. cbn [stripPrefix]. destruct (N.eqb_spec x c); [congruence | reflexivity].
Qed.

(** The six marker passes leave a text with no brace and no angle bracket
    as it is. *)
Lemma markers_nomatch (s : jsstring) :
  Forall (fun c => c <> 123%N /\ c <> 60%N) s ->
  replaceAll (matchLiteral (u "</strong>"))
    (replaceAll (matchLiteral (u "<strong>"))
       (replaceAll (matchLiteral (u "</em>"))
          (replaceAll (matchLiteral (u "<em>"))
             (replaceAll matchRef (replaceAll matchTerm s))))) = s.
Proof.
  intros Hs. unfold replaceAll.
  assert (Hterm : forall fuel, replaceAll_fuel matchTerm fuel s = s).
  { intros fuel.
    apply (replaceAll_fuel_nomatch matchTerm
             (fun c => c <> 123%N /\ c <> 60%N) eq_refl); [| exact Hs].
    intros c t [Hc _]. unfold matchTerm.
    change (u "{term:") with (123%N :: u "term:").
    rewrite stripPrefix_first by exact Hc. reflexivity. }
  assert (Href : forall fuel, replaceAll_fuel matchRef fuel s = s).
  { intros fuel.
    apply (replaceAll_fuel_nomatch matchRef
             (fun c => c <> 123%N /\ c <> 60%N) eq_refl); [| exact Hs].
    intros c t [Hc _]. unfold matchRef.
    change (u "{ref:") with (123%N :: u "ref:").
    rewrite stripPrefix_first by exact Hc. reflexivity. }
  assert (Hlit : forall p fuel, replaceAll_fuel (matchLiteral (60%N :: p)) fuel s = s).
  { intros p fuel.
    apply (replaceAll_fuel_nomatch (matchLiteral (60%N :: p))
             (fun c => c <> 123%N /\ c <> 60%N) eq_refl); [| exact Hs].
    intros c t [_ Hc]. unfold matchLiteral.
    rewrite stripPrefix_first by exact Hc. reflexivity. }
  rewrite Hterm, Href.
  change (u "<em>") with (60%N :: u "em>").
  change (u "</em>") with (60%N :: u "/em>").
  change (u "<strong>") with (60%N :: u "strong>").
  change (u "</strong>") with (60%N :: u "/strong>").
  rewrite !Hlit. reflexivity.
Qed.

Lemma isSpace_not_marker (c : N) :
  isSpace c = true -> c <> 123%N /\ c <> 60%N.
Proof. intros H. split; intros ->; discriminate H. Qed.

(** X14: a text of white space only is cleaned to the empty text, so a
    block that holds nothing else emits no unit. *)
Theorem cleanText_blank (text : jsstring) :
  Forall (fun c => isSpace c = true) text -> cleanText text = [].
Proof.
  intros Hblank. unfold cleanText. destruct text as [| x text]; [reflexivity |].
  rewrite markers_nomatch
    by (eapply Forall_impl; [exact Hblank | apply isSpace_not_marker]).
  unfold replaceAll. cbn [replaceAll_fuel length]. unfold matchSpaces.
  destruct (span isSpace (x :: text)) as [ws rest] eqn:Hspan.
  destruct (span_spec _ _ _ _ Hspan) as (Hs & Hws & Hrest).
  assert (rest = []) as ->.
  { destruct rest as [| c rest]; [reflexivity |].
    assert (Hc : isSpace c = true).
    { rewrite Hs in Hblank. apply Forall_app in Hblank. destruct Hblank as [_ Hb].
      apply Forall_cons in Hb. apply Hb. }
    rewrite (Hrest c eq_refl) in Hc. discriminate. }
  destruct ws as [| y ws]; [discriminate |].
  destruct (length text); reflexivity.
Qed.

Lemma span_none (f : N -> bool) (s : jsstring) :
  (forall c, head s = Some c -> f c = false) -> span f s = ([], s).
Proof.
  intros H. destruct s as [| c s]; [reflexivity |].
  cbn [span]. rewrite (H c eq_refl). reflexivity.
Qed.

Lemma replaceAll_matchSpaces_fixes (fuel : nat) : forall s : jsstring,
  spacesOk s -> replaceAll_fuel matchSpaces fuel s = s.
Proof.
  induction fuel as [| fuel IH]; intros s Hok; [reflexivity |].
  cbn [replaceAll_fuel]. destruct s as [| c s]; [reflexivity |].
  destruct Hok as [Hc Hok]. destruct (isSpace c) eqn:Hsp.
  - destruct (Hc eq_refl) as [-> Hnext].
    assert (Hm : matchSpaces (32%N :: s) = Some (u " ", s)).
    { unfold matchSpaces. cbn [span]. rewrite Hsp.
      rewrite (span_none isSpace s Hnext). reflexivity. }
    rewrite Hm, (IH s Hok). reflexivity.
  - assert (Hm : matchSpaces (c :: s) = None).
    { unfold matchSpaces. cbn [span]. rewrite Hsp. reflexivity. }
    rewrite Hm, (IH s Hok). reflexivity.
Qed.

Lemma trim_fixes (s : jsstring) :
  (forall c, head s = Some c \/ last s = Some c -> isSpace c = false) ->
  trim s = s.
Proof.
  intros Hends.
  assert (Hdrop : forall t : jsstring,
             (forall c, head t = Some c -> isSpace c = false) ->
             dropWhile isSpace t = t).
  { intros [| c t] Ht; [reflexivity |]. cbn [dropWhile].
    rewrite (Ht c eq_refl). reflexivity. }
  unfold trim. rewrite (Hdrop s) by (intros c Hc; apply Hends; left; exact Hc).
  rewrite Hdrop.
  - apply reverse_involutive.
  - intros c Hc. rewrite head_reverse in Hc. apply Hends. right. exact Hc.
Qed.

(** X15: a text that is clean already is returned as it is: one with no
    brace and no angle bracket, whose white space is single U+0020 units,
    none of them at an end. *)
Theorem cleanText_fixes_clean_text (text : jsstring) :
  Forall (fun c => c <> 123%N /\ c <> 60%N) text ->
  spacesOk text ->
  (forall c, head text = Some c \/ last text = Some c -> isSpace c = false) ->
  cleanText text = text.
Proof.
  intros Hplain Hok Hends. unfold cleanText.
  destruct text as [| x text]; [reflexivity |].
  rewrite (markers_nomatch _ Hplain). unfold replaceAll.
  rewrite (replaceAll_matchSpaces_fixes _ _ Hok).
  apply trim_fixes. exact Hends.
Qed.

(** *** Markers *)

Lemma replaceAll_fuel_enough (m : jsstring -> option (jsstring * jsstring)) :
  (forall s out rest, m s = Some (out, rest) -> length rest < length s) ->
  forall (fuel fuel' : nat) (s : jsstring),
    length s < fuel -> length s < fuel' ->
    replaceAll_fuel m fuel s = replaceAll_fuel m fuel' s.
Proof.
  intros Hm. induction fuel as [| fuel IH]; intros fuel' s H H'; [lia |].
  destruct fuel' as [| fuel']; [lia |]. cbn [replaceAll_fuel].
  destruct (m s) as [[out rest] |] eqn:E.
  - apply Hm in E. f_equal. apply IH; lia.
  - destruct s as [| c s]; [reflexivity |]. cbn [length] in H, H'.
    f_equal. apply IH; lia.
Qed.

Lemma replaceAll_match (m : jsstring -> option (jsstring * jsstring))
    (s out rest : jsstring) :
  (forall s out rest, m s = Some (out, rest) -> length rest < length s) ->
  m s = Some (out, rest) ->
  replaceAll m s = out ++ replaceAll m rest.
Proof.
  intros Hm E. unfold replaceAll at 1. cbn [replaceAll_fuel]. rewrite E. f_equal.
  apply (replaceAll_fuel_enough m Hm); [apply Hm in E; lia | lia].
Qed.

Lemma replaceAll_skip (m : jsstring -> option (jsstring * jsstring))
    (P : N -> Prop) (pre s : jsstring) :
  (forall c t, P c -> m (c :: t) = None) ->
  Forall P pre ->
  replaceAll m (pre ++ s) = pre ++ replaceAll m s.
Proof.
  intros Hnone Hpre. induction pre as [| c pre IH]; [reflexivity |].
  apply Forall_cons in Hpre. destruct Hpre as [Hc Hpre].
  unfold replaceAll. cbn [app length replaceAll_fuel].
  rewrite (Hnone c _ Hc). f_equal. apply (IH Hpre).
Qed.

Lemma stripPrefix_app (p s : jsstring) : stripPrefix p (p ++ s) = Some s.
Proof.
  induction p as [| x p IH]; [destruct s; reflexivity |].
  cbn [app stripPrefix]. rewrite N.eqb_refl. exact IH.
Qed.

Lemma stripPrefix_length (p : jsstring) : forall s rest : jsstring,
  stripPrefix p s = Some rest -> length s = length p + length rest.
Proof.
  induction p as [| x p IH]; intros s rest H.
  - destruct s; injection H as <-; reflexivity.
  - destruct s as [| c s]; [discriminate |]. cbn [stripPrefix] in H.
    destruct (x =? c)%N; [| discriminate]. cbn [length]. rewrite (IH s rest H).
    reflexivity.
Qed.

Lemma span_stop (f : N -> bool) (a : jsstring) (c : N) (rest : jsstring) :
  Forall (fun x => f x = true) a -> f c = false ->
  span f (a ++ c :: rest) = (a, c :: rest).
Proof.
  intros Ha Hc. induction a as [| x a IH]; cbn [app span].
  - rewrite Hc. reflexivity.
  - apply Forall_cons in Ha. destruct Ha as [Hx Ha].
    rewrite Hx, (IH Ha). reflexivity.
Qed.

Lemma matchTerm_consumes (s out rest : jsstring) :
  matchTerm s = Some (out, rest) -> length rest < length s.
Proof.
  unfold matchTerm. destruct (stripPrefix (u "{term:") s) as [s1 |] eqn:E1;
    [| discriminate].
  apply stripPrefix_length in E1.
  destruct (span _ s1) as [termId s2] eqn:E2.
  apply span_spec in E2. destruct E2 as (-> & _ & _).
  destruct termId as [| x termId]; [discriminate |].
  destruct s2 as [| c s3]; [discriminate |].
  rewrite length_app in E1. cbn [length] in E1.
  destruct (c =? rbrace)%N.
  - intros [= <- <-]. lia.
  - destruct (span _ s3) as [customText s4] eqn:E3.
    apply span_spec in E3. destruct E3 as (-> & _ & _).
    destruct customText as [| y customText]; [discriminate |].
    destruct s4 as [| z s5]; [discriminate |].
    intros [= <- <-]. rewrite length_app in E1. cbn [length] in E1. lia.
Qed.

Lemma matchRef_consumes (s out rest : jsstring) :
  matchRef s = Some (out, rest) -> length rest < length s.
Proof.
  unfold matchRef. destruct (stripPrefix (u "{ref:") s) as [s1 |] eqn:E1;
    [| discriminate].
  apply stripPrefix_length in E1.
  destruct (span _ s1) as [ref s2] eqn:E2.
  apply span_spec in E2. destruct E2 as (-> & _ & _).
  destruct ref as [| x ref]; [discriminate |].
  destruct s2 as [| c s3]; [discriminate |].
  intros [= <- <-]. rewrite length_app in E1. cbn [length] in E1. lia.
Qed.

Lemma matchTerm_id (termId post : jsstring) :
  termId <> [] ->
  Forall (fun c => c <> rbrace /\ c <> vbar) termId ->
  matchTerm (u "{term:" ++ termId ++ u "}" ++ post) = Some (termId, post).
Proof.
  intros Hne Hid. unfold matchTerm. rewrite stripPrefix_app.
  change (u "}" ++ post) with (rbrace :: post).
  rewrite span_stop.
  - destruct termId as [| x termId]; [contradiction |].
    rewrite N.eqb_refl. reflexivity.
  - eapply Forall_impl; [exact Hid |]. cbv beta. intros c [H1 H2].
    destruct (N.eqb_spec c rbrace); [contradiction |].
    destruct (N.eqb_spec c vbar); [contradiction | reflexivity].
  - reflexivity.
Qed.

Lemma matchTerm_custom (termId customText post : jsstring) :
  termId <> [] ->
  Forall (fun c => c <> rbrace /\ c <> vbar) termId ->
  customText <> [] ->
  Forall (fun c => c <> rbrace) customText ->
  matchTerm (u "{term:" ++ termId ++ u "|" ++ customText ++ u "}" ++ post)
  = Some (customText, post).
Proof.
  intros Hne Hid Hnc Hcustom. unfold matchTerm. rewrite stripPrefix_app.
  change (u "|" ++ customText ++ u "}" ++ post)
    with (vbar :: customText ++ rbrace :: post).
  rewrite span_stop.
  - destruct termId as [| x termId]; [contradiction |].
    change (vbar =? rbrace)%N with false. cbv iota.
    rewrite span_stop.
    + destruct customText as [| y customText]; [contradiction | reflexivity].
    + eapply Forall_impl; [exact Hcustom |]. cbv beta. intros c Hc.
      destruct (N.eqb_spec c rbrace); [contradiction | reflexivity].
    + reflexivity.
  - eapply Forall_impl; [exact Hid |]. cbv beta. intros c [H1 H2].
    destruct (N.eqb_spec c rbrace); [contradiction |].
    destruct (N.eqb_spec c vbar); [contradiction | reflexivity].
  - reflexivity.
Qed.

Lemma matchTerm_not_brace (c : N) (t : jsstring) :
  c <> 123%N -> matchTerm (c :: t) = None.
Proof.
  intros Hc. unfold matchTerm. change (u "{term:") with (123%N :: u "term:").
  rewrite stripPrefix_first by exact Hc. reflexivity.
Qed.

Lemma matchRef_not_brace (c : N) (t : jsstring) :
  c <> 123%N -> matchRef (c :: t) = None.
Proof.
  intros Hc. unfold matchRef. change (u "{ref:") with (123%N :: u "ref:").
  rewrite stripPrefix_first by exact Hc. reflexivity.
Qed.

Lemma cleanText_nonempty (text : jsstring) :
  text <> [] ->
  cleanText text
  = trim (replaceAll matchSpaces
       (replaceAll (matchLiteral (u "</strong>"))
          (replaceAll (matchLiteral (u "<strong>"))
             (replaceAll (matchLiteral (u "</em>"))
                (replaceAll (matchLiteral (u "<em>"))
                   (replaceAll matchRef (replaceAll matchTerm text))))))).
Proof. destruct text; [contradiction | reflexivity]. Qed.

Lemma app_nonempty (a b c : jsstring) : b <> [] -> a ++ b ++ c <> [].
Proof.
  intros Hb H. apply app_eq_nil in H. destruct H as [_ H].
  apply app_eq_nil in H. destruct H as [H _]. contradiction.
Qed.

(** X16: a term marker is read as the id of the term: after a text with
    no opening brace, [{term:id}] is cleaned as [id] is, whatever
    follows. *)
Theorem cleanText_term_marker (pre termId post : jsstring) :
  Forall (fun c => c <> 123%N) pre ->
  termId <> [] ->
  Forall (fun c => c <> 123%N /\ c <> rbrace /\ c <> vbar) termId ->
  cleanText (pre ++ (u "{term:" ++ termId ++ u "}") ++ post)
  = cleanText (pre ++ termId ++ post).
Proof.
  intros Hpre Hne Hid.
  rewrite !cleanText_nonempty by (apply app_nonempty; [discriminate || exact Hne]).
  do 7 f_equal.
  rewrite (replaceAll_skip matchTerm _ pre _ matchTerm_not_brace Hpre).
  rewrite <- !app_assoc.
  rewrite (replaceAll_match matchTerm _ termId post matchTerm_consumes).
  2:{ apply matchTerm_id; [exact Hne |].
      eapply Forall_impl; [exact Hid | project_conjunct]. }
  rewrite (app_assoc pre termId post).
  rewrite (replaceAll_skip matchTerm (fun c => c <> 123%N) (pre ++ termId) post
             matchTerm_not_brace).
  - rewrite <- app_assoc. reflexivity.
  - apply Forall_app. split; [exact Hpre |].
    eapply Forall_impl; [exact Hid | project_conjunct].
Qed.

(** X17: a term marker with a custom text is read as the custom text:
    after a text with no opening brace, for an id that is not empty and
    holds neither a closing brace nor a bar, and a custom text that is not
    empty and holds no brace, opening or closing, [{term:id|text}] is
    cleaned as [text] is, whatever follows. *)
Theorem cleanText_term_custom_text (pre termId customText post : jsstring) :
  Forall (fun c => c <> 123%N) pre ->
  termId <> [] ->
  Forall (fun c => c <> rbrace /\ c <> vbar) termId ->
  customText <> [] ->
  Forall (fun c => c <> 123%N /\ c <> rbrace) customText ->
  cleanText (pre ++ (u "{term:" ++ termId ++ u "|" ++ customText ++ u "}") ++ post)
  = cleanText (pre ++ customText ++ post).
Proof.
  intros Hpre Hne Hid Hnc Hcustom.
  rewrite !cleanText_nonempty by (apply app_nonempty; [discriminate || exact Hnc]).
  do 7 f_equal.
  rewrite (replaceAll_skip matchTerm _ pre _ matchTerm_not_brace Hpre).
  rewrite <- !app_assoc.
  rewrite (replaceAll_match matchTerm _ customText post matchTerm_consumes).
  2:{ apply matchTerm_custom; [exact Hne | exact Hid | exact Hnc |].
      eapply Forall_impl; [exact Hcustom | project_conjunct]. }
  rewrite (app_assoc pre customText post).
  rewrite (replaceAll_skip matchTerm (fun c => c <> 123%N) (pre ++ customText) post
             matchTerm_not_brace).
  - rewrite <- app_assoc. reflexivity.
  - apply Forall_app. split; [exact Hpre |].
    eapply Forall_impl; [exact Hcustom | project_conjunct].
Qed.

Lemma cleanText_passes (text : jsstring) :
  cleanText text
  = trim (replaceAll matchSpaces
       (replaceAll (matchLiteral (u "</strong>"))
          (replaceAll (matchLiteral (u "<strong>"))
             (replaceAll (matchLiteral (u "</em>"))
                (replaceAll (matchLiteral (u "<em>"))
                   (replaceAll matchRef (replaceAll matchTerm text))))))).
Proof. destruct text; reflexivity. Qed.

Lemma matchRef_ref (ref post : jsstring) :
  ref <> [] ->
  Forall (fun c => c <> rbrace) ref ->
  matchRef (u "{ref:" ++ ref ++ u "}" ++ post) = Some ([], post).
Proof.
  intros Hne Href. unfold matchRef. rewrite stripPrefix_app.
  change (u "}" ++ post) with (rbrace :: post).
  rewrite span_stop.
  - destruct ref as [| x ref]; [contradiction | reflexivity].
  - eapply Forall_impl; [exact Href |]. cbv beta. intros c Hc.
    destruct (N.eqb_spec c rbrace); [contradiction | reflexivity].
  - reflexivity.
Qed.

(** X18: a reference marker is dropped: after a text with no opening
    brace, [{ref:x}] is cleaned as if it were not there. *)
Theorem cleanText_ref_marker (pre ref post : jsstring) :
  Forall (fun c => c <> 123%N) pre ->
  ref <> [] ->
  Forall (fun c => c <> 123%N /\ c <> rbrace) ref ->
  cleanText (pre ++ (u "{ref:" ++ ref ++ u "}") ++ post) = cleanText (pre ++ post).
Proof.
  intros Hpre Hne Href. rewrite !cleanText_passes. do 5 f_equal.
  rewrite !(replaceAll_skip matchTerm _ pre _ matchTerm_not_brace Hpre).
  rewrite <- !app_assoc.
  replace (u "{ref:" ++ ref ++ u "}" ++ post)
    with (123%N :: (u "ref:" ++ ref ++ u "}") ++ post)
    by (rewrite <- !app_assoc; reflexivity).
  assert (Hstep : replaceAll matchTerm (123%N :: (u "ref:" ++ ref ++ u "}") ++ post)
                  = 123%N :: replaceAll matchTerm ((u "ref:" ++ ref ++ u "}") ++ post))
    by reflexivity.
  rewrite Hstep.
  rewrite (replaceAll_skip matchTerm (fun c => c <> 123%N) _ post matchTerm_not_brace).
  2:{ repeat (apply Forall_cons; split; [discriminate |]).
      apply Forall_app. split.
      - eapply Forall_impl; [exact Href | project_conjunct].
      - repeat constructor. discriminate. }
  rewrite !(replaceAll_skip matchRef _ pre _ matchRef_not_brace Hpre).
  f_equal.
  replace (123%N :: (u "ref:" ++ ref ++ u "}") ++ replaceAll matchTerm post)
    with (u "{ref:" ++ ref ++ u "}" ++ replaceAll matchTerm post)
    by (rewrite <- !app_assoc; reflexivity).
  rewrite (replaceAll_match matchRef _ [] (replaceAll matchTerm post)
             matchRef_consumes).
  - reflexivity.
  - apply matchRef_ref; [exact Hne |].
    eapply Forall_impl; [exact Href | project_conjunct].
Qed.

(** ** The command line *)

Lemma dropWhile_spaces (ws s : jsstring) :
  Forall (fun c => isSpace c = true) ws ->
  dropWhile isSpace (ws ++ s) = dropWhile isSpace s.
Proof.
  induction ws as [| c ws IH]; intros H; [reflexivity |].
  apply Forall_cons in H. destruct H as [Hc Hws].
  cbn [app dropWhile]. rewrite Hc. exact (IH Hws).
Qed.

Lemma parseInt_spaces (ws s : jsstring) :
  Forall (fun c => isSpace c = true) ws -> parseInt (ws ++ s) = parseInt s.
Proof. intros H. unfold parseInt. rewrite (dropWhile_spaces ws s H). reflexivity. Qed.

(** A text that starts with a digit from 1 to 9 is read in radix ten from
    its first unit. *)
Lemma parseInt_digit (d : N) (s : jsstring) :
  (49 <= d <= 57)%N -> parseInt (d :: s) = Some (digitsFrom 10 0 (d :: s)).
Proof.
  intros Hd.
  assert (H : d = 49%N \/ d = 50%N \/ d = 51%N \/ d = 52%N \/ d = 53%N
              \/ d = 54%N \/ d = 55%N \/ d = 56%N \/ d = 57%N) by lia.
  destruct H as [-> | [-> | [-> | [-> | [-> | [-> | [-> | [-> | ->]]]]]]]];
    unfold parseInt; cbn -[digitsFrom Z.mul]; rewrite Z.mul_1_l; reflexivity.
Qed.

Lemma digitsFrom_stop (acc : Z) (rest : jsstring) :
  (forall c, head rest = Some c -> digitOf 10 c = None) ->
  digitsFrom 10 acc rest = acc.
Proof.
  intros H. destruct rest as [| c rest]; [reflexivity |].
  cbn [digitsFrom]. rewrite (H c eq_refl). reflexivity.
Qed.

Lemma showNat_chapter (n : nat) :
  1 <= n <= 11 -> exists d ds, showNat n = d :: ds /\ (49 <= d <= 57)%N.
Proof.
  intros Hn.
  destruct n as [| n]; [lia |].
  do 11 (destruct n as [| n];
         [eexists _, _; split; [reflexivity | vm_compute; split; discriminate] |]).
  lia.
Qed.

Lemma parseInt_chapter_number (n : nat) (rest : jsstring) :
  1 <= n <= 11 ->
  (forall c, head rest = Some c -> digitOf 10 c = None) ->
  parseInt (showNat n ++ rest) = Some (Z.of_nat n).
Proof.
  intros Hn Hrest. destruct (showNat_chapter n Hn) as (d & ds & Hshow & Hd).
  rewrite <- (digitsFrom_stop (Z.of_nat n) rest Hrest).
  rewrite <- digitsFrom_showNat. rewrite Hshow. cbn [app].
  apply parseInt_digit. exact Hd.
Qed.

Lemma chapterOf_parsed (arg : jsstring) (n : nat) :
  1 <= n <= 11 -> parseInt arg = Some (Z.of_nat n) -> chapterOf arg = Some n.
Proof.
  intros Hn Hparse. unfold chapterOf. rewrite Hparse.
  destruct (Z.ltb_spec (Z.of_nat n) 1); [lia |].
  destruct (Z.gtb_spec (Z.of_nat n) 11); [lia |].
  cbn [orb]. rewrite Nat2Z.id. reflexivity.
Qed.

(** The chapter number as the orchestrator writes it on a command line is
    read back as that chapter. *)
Lemma chapterOf_showNat (n : nat) : 1 <= n <= 11 -> chapterOf (showNat n) = Some n.
Proof.
  intros Hn. apply (chapterOf_parsed _ n Hn).
  rewrite <- (app_nil_r (showNat n)). apply parseInt_chapter_number; [exact Hn |].
  discriminate.
Qed.

(** X19: the chapter argument is read by [parseInt], so the number of a
    chapter is accepted with white space before it and with anything that
    does not start with a digit after it: for every chapter from 1 to 11
    such an argument names that chapter. *)
Theorem chapter_argument_is_lenient (ws rest : jsstring) (n : nat) :
  Forall (fun c => isSpace c = true) ws ->
  1 <= n <= 11 ->
  (forall c, head rest = Some c -> digitOf 10 c = None) ->
  chapterOf (ws ++ showNat n ++ rest) = Some n.
Proof.
  intros Hws Hn Hrest. apply (chapterOf_parsed _ n Hn).
  rewrite (parseInt_spaces _ _ Hws). apply parseInt_chapter_number; assumption.
Qed.

Lemma chapterOf_range (arg : jsstring) (n : nat) :
  chapterOf arg = Some n -> 1 <= n <= 11 /\ parseInt arg = Some (Z.of_nat n).
Proof.
  unfold chapterOf. destruct (parseInt arg) as [z |]; [| discriminate].
  destruct (Z.ltb_spec z 1); [discriminate |].
  destruct (Z.gtb_spec z 11); [discriminate |].
  cbn [orb]. intros [= <-]. split; [lia |]. f_equal. lia.
Qed.

Lemma generateSilences_never_exits (silencesDir : jsstring) (ds : list float) :
  forall (w : world) c w' code,
    generateSilences silencesDir ds w = (c, w') -> c <> Exit code.
Proof.
  induction ds as [| d ds IH]; intros w c w' code H; cbn [generateSilences] in H.
  - injection H as <- <-. discriminate.
  - unfold generateSilence in H.
    destruct (existsSync w (silencePath silencesDir d)).
    + apply (IH _ _ _ code H).
    + destruct (execSync _ _ w) as [[stdout | message] w1].
      * apply (IH _ _ _ code H).
      * injection H as <- <-. discriminate.
Qed.

(** The runner ends with status zero only by returning with no error
    counted. *)
Lemma generateChapterAudio_status_zero (fuel chapterNum : nat) (lang : jsstring)
    (chunksData : Manifest.t) (w w' : world) (c : completion Result.t) :
  generateChapterAudio fuel chapterNum lang chunksData w = Some (c, w') ->
  generateExitStatus c = 0%Z ->
  exists r, c = Return r /\ Result.errorCount r = 0.
Proof.
  unfold generateChapterAudio. intros Hrun Hstatus.
  destruct (existsSync w (join (audioDirOf chapterNum lang) (u "chunks.json")));
    cbn [negb] in Hrun; [| injection Hrun as <- <-; discriminate].
  destruct (generateAllSilences _ _) as [c1 w1] eqn:Hsil.
  destruct c1 as [[] | m | code].
  - destruct (forLoop _ _ _ _ _ _) as [[c2 w2] |] eqn:Hloop; [| discriminate].
    eapply (forLoop_invariant chunksData _ voiceIdOf (fun _ _ => True)) in Hloop;
      [| auto | cbn [Loop.i]; lia | exact I].
    destruct Hloop as (st' & -> & _ & _). injection Hrun as <- <-.
    eexists. split; [reflexivity |].
    cbn [generateExitStatus Result.errorCount] in *.
    destruct (decide (Loop.errorCount st' = 0)) as [E | E]; [exact E |].
    rewrite bool_decide_eq_false_2 in Hstatus by exact E. discriminate.
  - injection Hrun as <- <-. discriminate.
  - exfalso. unfold generateAllSilences in Hsil.
    exact (generateSilences_never_exits _ _ _ _ _ code Hsil eq_refl).
Qed.

(** X20: the process of the runner ends with status zero only when its
    arguments name a chapter from 1 to 11 and the language en or es, and
    then the clip of every unit of the manifest is on the disk. *)
Theorem runner_status_zero_means_every_clip (fuel : nat) (args : list jsstring)
    (chunksData : Manifest.t) (w w' : world) (e : ending) :
  generateMain fuel args chunksData w = Some (e, w') ->
  statusOf e = 0%Z ->
  exists arg lang rest chapterNum,
    args = arg :: lang :: rest
    /\ parseInt arg = Some (Z.of_nat chapterNum)
    /\ 1 <= chapterNum <= 11
    /\ (lang = u "en" \/ lang = u "es")
    /\ forall chunk, chunk ∈ Manifest.chunks chunksData ->
         existsSync w'
           (chunkPath (join (audioDirOf chapterNum lang) (u "chunks")) chunk) = true.
Proof.
  unfold generateMain. intros Hmain Hstatus.
  destruct args as [| arg [| lang rest]];
    try (injection Hmain as <- <-; discriminate).
  destruct (chapterOf arg) as [chapterNum |] eqn:Hchapter;
    [| injection Hmain as <- <-; discriminate].
  destruct (knownLang lang) eqn:Hlang; cbn [negb] in Hmain;
    [| injection Hmain as <- <-; discriminate].
  destruct (generateChapterAudio fuel chapterNum lang chunksData w)
    as [[c w1] |] eqn:Hrun; [| discriminate].
  injection Hmain as <- <-. cbn [statusOf] in Hstatus.
  destruct (generateChapterAudio_status_zero _ _ _ _ _ _ _ Hrun Hstatus)
    as (r & -> & Hclean).
  destruct (chapterOf_range _ _ Hchapter) as [Hrange Hparse].
  exists arg, lang, rest, chapterNum.
  repeat apply conj;
    [reflexivity | exact Hparse | lia | lia | apply knownLang_cases, Hlang |].
  apply generateChapterAudio_returns in Hrun.
  destruct Hrun as (w0 & st & _ & _ & Hloop & ->).
  apply (forLoop_clean_clips _ _ _ _ _ _ _ Hloop Hclean).
Qed.

(** The assembler returns only after ffmpeg completed, with no clip
    missing, and the final file is there then. *)
Lemma concatChapterAudio_status_zero (chapterNum : nat) (lang : jsstring)
    (chunksData : Manifest.t) (w w' : world) (c : completion jsstring) :
  concatChapterAudio chapterNum lang chunksData w = (c, w') ->
  concatExitStatus c = 0%Z ->
  c = Return (outputFileOf chapterNum lang)
  /\ missingIds (join (audioDirOf chapterNum lang) (u "chunks")) w
       (Manifest.chunks chunksData) = []
  /\ existsSync w' (outputFileOf chapterNum lang) = true.
Proof.
  unfold concatChapterAudio. intros Hrun Hstatus.
  destruct (existsSync w (join (audioDirOf chapterNum lang) (u "chunks.json")));
    cbn [negb] in Hrun; [| injection Hrun as <- <-; discriminate].
  destruct (existsSync w (join (audioDirOf chapterNum lang) (u "chunks")));
    cbn [negb] in Hrun; [| injection Hrun as <- <-; discriminate].
  destruct (concatLoop_cases (join (audioDirOf chapterNum lang) (u "chunks"))
              (join (join root (u "audio")) (u "silences")) w
              (Manifest.chunks chunksData) [] [])
    as [[concatList Hloop] | [silenceFile Hloop]]; rewrite Hloop in Hrun.
  2:{ injection Hrun as <- <-. discriminate. }
  cbn [app] in Hrun.
  destruct (missingIds _ w (Manifest.chunks chunksData)) as [| id ids].
  - destruct (execSync _ _ _) as [[stdout | message] w2] eqn:Hexec;
      injection Hrun as <- <-; [| discriminate].
    repeat split.
    pose proof (execSync_effect _ _ _ _ _ Hexec) as (_ & _ & _ & Hout).
    apply (Hout stdout eq_refl).
  - injection Hrun as <- <-. discriminate.
Qed.

(** X21: the process of the assembler ends with status zero only when its
    arguments name a chapter from 1 to 11 and the language en or es, no
    clip of the manifest was missing, and the final file of the chapter is
    on the disk. *)
Theorem assembler_status_zero_means_final_file (args : list jsstring)
    (chunksData : Manifest.t) (w w' : world) (e : ending) :
  concatMain args chunksData w = (e, w') ->
  statusOf e = 0%Z ->
  exists arg lang rest chapterNum,
    args = arg :: lang :: rest
    /\ parseInt arg = Some (Z.of_nat chapterNum)
    /\ 1 <= chapterNum <= 11
    /\ (lang = u "en" \/ lang = u "es")
    /\ missingIds (join (audioDirOf chapterNum lang) (u "chunks")) w
         (Manifest.chunks chunksData) = []
    /\ existsSync w' (outputFileOf chapterNum lang) = true.
Proof.
  unfold concatMain. intros Hmain Hstatus.
  destruct args as [| arg [| lang rest]];
    try (injection Hmain as <- <-; discriminate).
  destruct (chapterOf arg) as [chapterNum |] eqn:Hchapter;
    [| injection Hmain as <- <-; discriminate].
  destruct (knownLang lang) eqn:Hlang; cbn [negb] in Hmain;
    [| injection Hmain as <- <-; discriminate].
  destruct (concatChapterAudio chapterNum lang chunksData w) as [c w1] eqn:Hrun.
  injection Hmain as <- <-. cbn [statusOf] in Hstatus.
  destruct (concatChapterAudio_status_zero _ _ _ _ _ _ Hrun Hstatus)
    as (_ & Hmissing & Hout).
  destruct (chapterOf_range _ _ Hchapter) as [Hrange Hparse].
  exists arg, lang, rest, chapterNum.
  repeat apply conj;
    [reflexivity | exact Hparse | lia | lia | apply knownLang_cases, Hlang
    | exact Hmissing | exact Hout].
Qed.

(** ** The planner as a process *)

Lemma chapterFile_not_manifest (i j : nat) (lang : jsstring) :
  chapterFileOf i lang <> join (audioDirOf j lang) (u "chunks.json").
Proof.
  unfold chapterFileOf, audioDirOf, join. rewrite <- !app_assoc. intros H.
  apply app_inv_head in H. discriminate H.
Qed.

(** What a call of the planner on one chapter does to the files. *)
Lemma prepareChapterChunks_files_effect (chapterNum : nat) (lang : jsstring)
    (w w' : world) (c : completion Manifest.t) :
  prepareChapterChunks_files chapterNum lang w = (c, w') ->
  requests w' = requests w
  /\ (forall q, existsSync w q = true -> existsSync w' q = true)
  /\ (forall q data,
        q <> join (audioDirOf chapterNum lang) (u "chunks.json") ->
        files w' !! q = Some (File data) <-> files w !! q = Some (File data))
  /\ (prepareExitStatus c = 0%Z ->
      exists text ch,
        files w !! chapterFileOf chapterNum lang = Some (File text)
        /\ parseChapter text = Some ch
        /\ c = Return (prepareChapterChunks chapterNum lang ch)
        /\ files w' !! join (audioDirOf chapterNum lang) (u "chunks.json")
           = Some (File (stringify (prepareChapterChunks chapterNum lang ch)))).
Proof.
  unfold prepareChapterChunks_files, readFileSync. intros H.
  destruct (existsSync w (chapterFileOf chapterNum lang));
    cbn [negb] in H; [| injection H as <- <-; repeat split; auto; discriminate].
  destruct (files w !! chapterFileOf chapterNum lang) as [[| text] |] eqn:Hread;
    try (injection H as <- <-; repeat split; auto; discriminate).
  destruct (parseChapter text) as [ch |] eqn:Hparse;
    [| injection H as <- <-; repeat split; auto; discriminate].
  change (join (join (join root (u "audio")) lang) (u "ch" ++ showNat chapterNum))
    with (audioDirOf chapterNum lang) in H.
  apply pair_equal_spec in H. destruct H as [<- <-]. repeat apply conj.
  - unfold ensureDir. destruct (existsSync w _); reflexivity.
  - intros q Hq.
    rewrite (existsSync_insert (ensureDir (audioDirOf chapterNum lang) w) _
               (join (audioDirOf chapterNum lang) (u "chunks.json")) q
               (File (stringify (prepareChapterChunks chapterNum lang ch))))
      by reflexivity.
    rewrite (existsSync_ensureDir _ _ _ Hq). apply orb_true_r.
  - intros q data Hne. cbn [writeFileSync emit files].
    rewrite lookup_insert_ne by congruence. apply ensureDir_keeps_files.
  - intros _. exists text, ch.
    repeat apply conj; [reflexivity | exact Hparse | reflexivity |].
    cbn [writeFileSync emit files]. apply lookup_insert_eq.
Qed.

(** X22: a call of the planner that returns has read and parsed the
    chapter file, and has saved the manifest it returns where the runner
    and the assembler look for it; no other file than the manifest is
    changed, and nothing that was on the disk is gone. *)
Theorem planner_saves_the_manifest (chapterNum : nat) (lang : jsstring)
    (w w' : world) (chunksData : Manifest.t) :
  prepareChapterChunks_files chapterNum lang w = (Return chunksData, w') ->
  (exists text ch,
     files w !! chapterFileOf chapterNum lang = Some (File text)
     /\ parseChapter text = Some ch
     /\ chunksData = prepareChapterChunks chapterNum lang ch)
  /\ files w' !! join (audioDirOf chapterNum lang) (u "chunks.json")
     = Some (File (stringify chunksData))
  /\ (forall q, existsSync w q = true -> existsSync w' q = true)
  /\ (forall q data,
        q <> join (audioDirOf chapterNum lang) (u "chunks.json") ->
        files w' !! q = Some (File data) <-> files w !! q = Some (File data)).
Proof.
  intros H. apply prepareChapterChunks_files_effect in H.
  destruct H as (_ & Hmono & Hframe & Hret).
  destruct (Hret eq_refl) as (text & ch & Hread & Hparse & [= ->] & Hsaved).
  repeat apply conj; [eauto | exact Hsaved | exact Hmono | exact Hframe].
Qed.

Lemma prepareAll_ok (lang : jsstring) (chapterNums : list nat) :
  forall (w w' : world) (e : ending),
    prepareAll lang chapterNums w = (e, w') ->
    statusOf e = 0%Z ->
    (forall q, existsSync w q = true -> existsSync w' q = true)
    /\ forall i, i ∈ chapterNums ->
         (exists text, files w !! chapterFileOf i lang = Some (File text))
         /\ existsSync w' (join (audioDirOf i lang) (u "chunks.json")) = true.
Proof.
  induction chapterNums as [| k rest IH]; intros w w' e H Hstatus.
  - injection H as <- <-. split; [auto |]. intros i Hi. inversion Hi.
  - cbn [prepareAll] in H.
    destruct (prepareChapterChunks_files k lang w) as [c w1] eqn:Hone.
    apply prepareChapterChunks_files_effect in Hone.
    destruct Hone as (_ & Hmono & Hframe & Hret).
    destruct c as [m | message | code];
      [| injection H as <- <-; cbn in Hstatus; discriminate
       | injection H as <- <-; cbn [statusOf prepareExitStatus] in Hstatus].
    + destruct (IH _ _ _ H Hstatus) as [Hmono' Hrest].
      destruct (Hret eq_refl) as (text & ch & Hread & _ & _ & Hsaved).
      split; [intros q Hq; apply Hmono', Hmono, Hq |].
      intros i Hi. apply elem_of_cons in Hi. destruct Hi as [-> | Hi].
      * split; [eauto |].
        apply Hmono'. unfold existsSync. rewrite Hsaved.
        apply bool_decide_eq_true. eauto.
      * destruct (Hrest i Hi) as [[text' Hfile] Hmanifest]. split; [| exact Hmanifest].
        exists text'. apply (Hframe _ _ (chapterFile_not_manifest i k lang)).
        exact Hfile.
    + subst code. destruct (Hret eq_refl) as (text & ch & _ & _ & Hc & _).
      discriminate Hc.
Qed.

(** X23: with [all] for the chapter the planner ends with status zero only
    when the language is one of the two and the chapter file of each of
    the eleven chapters was there, and then the manifest of each of them
    is saved. *)
Theorem planner_all_needs_every_chapter (lang : jsstring) (rest : list jsstring)
    (w w' : world) (e : ending) :
  prepareMain (u "all" :: lang :: rest) w = (e, w') ->
  statusOf e = 0%Z ->
  (lang = u "en" \/ lang = u "es")
  /\ forall i, 1 <= i <= 11 ->
       existsSync w (chapterFileOf i lang) = true
       /\ existsSync w' (join (audioDirOf i lang) (u "chunks.json")) = true.
Proof.
  unfold prepareMain. intros H Hstatus.
  destruct (knownLang lang) eqn:Hlang; cbn [negb] in H;
    [| injection H as <- <-; discriminate].
  rewrite bool_decide_eq_true_2 in H by reflexivity.
  split; [apply knownLang_cases, Hlang |].
  intros i Hi.
  destruct (prepareAll_ok lang (seq 1 11) w w' e H Hstatus) as [_ Hall].
  destruct (Hall i) as [[text Hread] Hsaved]; [apply elem_of_seq; lia |].
  split; [| exact Hsaved].
  unfold existsSync. rewrite Hread. apply bool_decide_eq_true. eauto.
Qed.

(** ** From the chapter file to the final file *)

Lemma planner_pause_provisioned (chapterNum : nat) (lang : jsstring) (ch : chapter)
    (chunk : Chunk.t) :
  chunk ∈ Manifest.chunks (prepareChapterChunks chapterNum lang ch) ->
  In (Chunk.pauseAfter chunk) durations.
Proof.
  rewrite prepareChapterChunks_chunks. intros Hin.
  apply elem_of_cons in Hin.
  destruct Hin as [-> | Hin];
    [cbn [introChunk Chunk.pauseAfter durations In]; one_of_them |].
  apply list_elem_of_lookup in Hin. destruct Hin as [k Hk].
  rewrite list_lookup_imap in Hk.
  destruct (survivors ch !! k) as [p |]; [| discriminate].
  injection Hk as <-. cbn [unitOf Chunk.pauseAfter].
  pose proof (pausePolicy_cases p) as H. cbn [In] in H.
  destruct H as [<- | [<- | [<- | [<- | []]]]]; cbn [durations In]; one_of_them.
Qed.

(** The three stages in a row.  When the planner returns for a chapter,
    there is an API key, the service answers every request with status 200
    and ffmpeg completes every command, then the runner run next returns
    with no error counted, and the assembler run after it returns the
    final file of the chapter, which is on the disk. *)
Lemma stages_in_a_row (fuel chapterNum : nat) (lang : jsstring)
    (w w0 : world) (chunksData : Manifest.t) :
  prepareChapterChunks_files chapterNum lang w = (Return chunksData, w0) ->
  hasKey = true ->
  (forall k text voiceId, exists body, fishAudio k text voiceId = Response 200 body) ->
  (forall command d, exists stdout output,
     ffmpeg command d = FfmpegDone stdout output) ->
  length (Manifest.chunks chunksData) < fuel ->
  exists r w1 w2,
    generateChapterAudio fuel chapterNum lang chunksData w0 = Some (Return r, w1)
    /\ Result.errorCount r = 0
    /\ concatChapterAudio chapterNum lang chunksData w1
       = (Return (outputFileOf chapterNum lang), w2)
    /\ existsSync w2 (outputFileOf chapterNum lang) = true.
Proof.
  intros Hplan Hkey Hok Hff Hfuel.
  apply prepareChapterChunks_files_effect in Hplan.
  destruct Hplan as (_ & _ & _ & Hret).
  destruct (Hret eq_refl) as (text & ch & _ & _ & [= ->] & Hsaved).
  set (chunksData := prepareChapterChunks chapterNum lang ch) in *.
  set (dir := join (audioDirOf chapterNum lang) (u "chunks")).
  assert (Hfile : existsSync w0 (join (audioDirOf chapterNum lang) (u "chunks.json"))
                  = true).
  { unfold existsSync. rewrite Hsaved. apply bool_decide_eq_true. eauto. }
  destruct (generateSilences_done (silencesDirOf (join root (u "audio"))) durations
              Hff (ensureDir (silencesDirOf (join root (u "audio")))
                     (ensureDir dir w0)))
    as [w1 Hsil].
  change (generateAllSilences (join root (u "audio")) (ensureDir dir w0)
          = (Return tt, w1)) in Hsil.
  destruct (forLoop_healthy chunksData dir fuel w1
              (planner_paths_NoDup chapterNum lang ch dir) Hkey Hok Hfuel)
    as (st & w2 & Hloop & Hec & _ & _ & Hclips).
  pose proof (generateAllSilences_effect _ _ _ _ Hsil) as [(_ & _ & Hm1) Hprov].
  specialize (Hprov eq_refl).
  pose proof Hloop as Hfiles. apply forLoop_files in Hfiles; [| cbn [Loop.i]; lia].
  destruct Hfiles as [Hm2 _].
  assert (Hrun : generateChapterAudio fuel chapterNum lang chunksData w0
                 = Some (Return (Result.mk (Loop.successCount st) (Loop.errorCount st)
                                   (Manifest.totalChunks chunksData)), w2)).
  { unfold generateChapterAudio. rewrite Hfile. cbn [negb].
    fold dir. rewrite Hsil, Hloop. reflexivity. }
  assert (Hconcat :
            concatChapterAudio chapterNum lang chunksData w2
            = match execSync
                      (concatCommand (concatListPathOf chapterNum lang)
                         (outputFileOf chapterNum lang))
                      (outputFileOf chapterNum lang)
                      (writeFileSync (concatListPathOf chapterNum lang)
                         (concat (map concatLine
                            (concatEntries dir
                               (join (join root (u "audio")) (u "silences"))
                               (Manifest.chunks chunksData))))
                         w2) with
              | (inl _, w3) => (Return (outputFileOf chapterNum lang), w3)
              | (inr message, w3) => (Exit 1, consoleError (FfmpegError message) w3)
              end).
  { apply concatChapterAudio_present.
    - apply Hm2, Hm1, existsSync_ensureDir, Hfile.
    - apply Hm2, Hm1, ensureDir_made.
    - exact Hclips.
    - intros chunk Hin _. apply Hm2.
      rewrite Forall_forall in Hprov. apply Hprov.
      apply list_elem_of_In. apply (planner_pause_provisioned chapterNum lang ch).
      exact Hin. }
  destruct (execSync _ _ _) as [[stdout | message] w3] eqn:Hexec in Hconcat.
  - exists (Result.mk (Loop.successCount st) (Loop.errorCount st)
              (Manifest.totalChunks chunksData)), w2, w3.
    repeat apply conj; [exact Hrun | exact Hec | exact Hconcat |].
    pose proof (execSync_effect _ _ _ _ _ Hexec) as (_ & _ & _ & Hout).
    apply (Hout stdout eq_refl).
  - exfalso. unfold execSync in Hexec.
    match type of Hexec with
    | context [ffmpeg ?command ?d] =>
        destruct (Hff command d) as (stdout & output & E); rewrite E in Hexec
    end.
    discriminate Hexec.
Qed.

(** ** More on the manifest and the runner *)

(** X25: a planned manifest is never empty, counts its own units in
    [totalChunks], starts with the intro unit, and has no unit with an
    empty text as long as the chapter has a number or a title. *)
Theorem planned_manifest_is_well_formed (chapterNum : nat) (lang : jsstring)
    (ch : chapter) :
  let chunksData := prepareChapterChunks chapterNum lang ch in
  Manifest.totalChunks chunksData = Z.of_nat (length (Manifest.chunks chunksData))
  /\ head (Manifest.chunks chunksData) = Some (introChunk chapterNum ch)
  /\ Forall (fun c => Chunk.text c <> []) (tail (Manifest.chunks chunksData))
  /\ Chunk.text (introChunk chapterNum ch) <> [].
Proof.
  cbv zeta. split; [apply prepareChapterChunks_total |].
  rewrite prepareChapterChunks_chunks. cbn [head tail].
  split; [reflexivity |]. split.
  - apply Forall_forall. intros c Hin.
    apply list_elem_of_lookup in Hin. destruct Hin as [k Hk].
    rewrite list_lookup_imap in Hk.
    destruct (survivors ch !! k) as [p |] eqn:Hp; [| discriminate].
    injection Hk as <-. cbn [unitOf Chunk.text].
    apply list_elem_of_lookup_2 in Hp. unfold survivors in Hp.
    apply list_elem_of_filter in Hp. destruct Hp as [Hs _].
    unfold survives in Hs. apply negb_true_iff in Hs.
    apply bool_decide_eq_false in Hs. exact Hs.
  - cbn [introChunk Chunk.text]. intros H.
    apply app_eq_nil in H. destruct H as [_ H]. discriminate H.
Qed.

(** X26: a run that returns with no error counted leaves a world in which
    the next run does nothing: it returns the same counts and leaves every
    file, the trace and the number of requests as they are. *)
Theorem clean_run_is_a_fixed_point (fuel fuel' chapterNum : nat) (lang : jsstring)
    (chunksData : Manifest.t) (w w' : world) (r : Result.t) :
  generateChapterAudio fuel chapterNum lang chunksData w = Some (Return r, w') ->
  Result.errorCount r = 0 ->
  length (Manifest.chunks chunksData) < fuel' ->
  generateChapterAudio fuel' chapterNum lang chunksData w' = Some (Return r, w').
Proof.
  intros Hrun Hclean Hfuel. apply generateChapterAudio_returns in Hrun.
  destruct Hrun as (w1 & st & Hfile & Hsil & Hloop & ->).
  cbn [Result.errorCount] in Hclean.
  set (dir := join (audioDirOf chapterNum lang) (u "chunks")) in *.
  pose proof (forLoop_clean_clips _ _ _ _ _ _ _ Hloop Hclean) as [Hsc Hclips].
  pose proof Hloop as Hfiles. apply forLoop_files in Hfiles; [| cbn [Loop.i]; lia].
  destruct Hfiles as [Hm2 _].
  pose proof (generateAllSilences_effect _ _ _ _ Hsil) as [(_ & _ & Hm1) Hprov].
  specialize (Hprov eq_refl).
  assert (Hsdir : existsSync w1 (silencesDirOf (join root (u "audio"))) = true).
  { unfold generateAllSilences in Hsil.
    apply generateSilences_effect in Hsil. destruct Hsil as [(_ & _ & Hm) _].
    apply Hm, ensureDir_made. }
  unfold generateChapterAudio.
  rewrite (Hm2 _ (Hm1 _ (existsSync_ensureDir dir w _ Hfile))). cbn [negb].
  fold dir. rewrite (ensureDir_exists dir w') by (apply Hm2, Hm1, ensureDir_made).
  rewrite generateAllSilences_noop.
  - pose proof (forLoop_skips chunksData dir voiceIdOf w' Hclips
                  (length (Manifest.chunks chunksData)) 0 0 0 fuel' eq_refl Hfuel)
      as Hskip.
    change (Z.of_nat 0) with 0%Z in Hskip. cbn [Nat.add] in Hskip. rewrite Hskip.
    cbn [Loop.successCount Loop.errorCount]. rewrite Hsc, Hclean. reflexivity.
  - apply Hm2, Hsdir.
  - eapply Forall_impl; [exact Hprov |]. cbv beta. intros d Hd. apply Hm2, Hd.
Qed.

Lemma generateSilences_fails (silencesDir : jsstring) (message : jsstring)
    (ds : list float) :
  (forall command d, exists partial, ffmpeg command d = FfmpegFailed message partial) ->
  forall w : world,
    Exists (fun d => existsSync w (silencePath silencesDir d) = false) ds ->
    exists d w',
      generateSilences silencesDir ds w = (Throw message, w')
      /\ requests w' = requests w
      /\ trace w' = trace w ++ [EvExec (silenceCommand d (silencePath silencesDir d));
                                EvConsoleError (SilenceFailed message)].
Proof.
  intros Hff. induction ds as [| d ds IH]; intros w Hex; [inversion Hex |].
  cbn [generateSilences]. unfold generateSilence.
  destruct (existsSync w (silencePath silencesDir d)) eqn:Hd.
  - apply IH. apply Exists_cons in Hex. destruct Hex as [Hex | Hex]; [congruence | exact Hex].
  - unfold execSync.
    destruct (Hff (silenceCommand d (silencePath silencesDir d))
                (files (emit (EvExec (silenceCommand d (silencePath silencesDir d))) w)))
      as (partial & ->).
    exists d. destruct partial as [output |]; eexists; split; try reflexivity;
      cbn [consoleError emit requests trace]; rewrite <- app_assoc; split; reflexivity.
Qed.

(** X27: a silence that cannot be made stops the run before any synthesis:
    when a silence is missing once the directories are there and ffmpeg
    fails, the run throws the error of ffmpeg after that one command, no
    request has been sent, and the process ends with status one. *)
Theorem silence_failure_stops_the_run (fuel chapterNum : nat) (lang : jsstring)
    (chunksData : Manifest.t) (w : world) (message : jsstring) :
  existsSync w (join (audioDirOf chapterNum lang) (u "chunks.json")) = true ->
  (forall command d, exists partial, ffmpeg command d = FfmpegFailed message partial) ->
  Exists (fun d =>
            existsSync
              (ensureDir (silencesDirOf (join root (u "audio")))
                 (ensureDir (join (audioDirOf chapterNum lang) (u "chunks")) w))
              (silencePath (silencesDirOf (join root (u "audio"))) d) = false)
    durations ->
  exists d w',
    generateChapterAudio fuel chapterNum lang chunksData w = Some (Throw message, w')
    /\ generateExitStatus (@Throw Result.t message) = 1%Z
    /\ requests w' = requests w
    /\ trace w'
       = trace w
         ++ [EvExec (silenceCommand d
                       (silencePath (silencesDirOf (join root (u "audio"))) d));
             EvConsoleError (SilenceFailed message)].
Proof.
  intros Hfile Hff Hmissing.
  destruct (generateSilences_fails _ message durations Hff _ Hmissing)
    as (d & w' & Hsil & Hr & Ht).
  exists d, w'. unfold generateChapterAudio. rewrite Hfile. cbn [negb].
  unfold generateAllSilences. rewrite Hsil.
  repeat apply conj; [reflexivity | reflexivity | |].
  - rewrite Hr. unfold ensureDir.
    repeat match goal with |- context [existsSync ?a ?b] => destruct (existsSync a b) end;
      reflexivity.
  - rewrite Ht. f_equal. unfold ensureDir.
    repeat match goal with |- context [existsSync ?a ?b] => destruct (existsSync a b) end;
      reflexivity.
Qed.

(** ** The script that runs the three *)

Lemma showNat_not_all (n : nat) : 1 <= n <= 11 -> showNat n <> u "all".
Proof.
  intros Hn. destruct (showNat_chapter n Hn) as (d & ds & -> & Hd).
  intros [= -> _]. lia.
Qed.

Lemma succeeded_zero (e : ending) : succeeded e = true -> statusOf e = 0%Z.
Proof. unfold succeeded. intros H. apply Z.eqb_eq in H. exact H. Qed.

Lemma prepareAll_keeps (lang : jsstring) (chapterNums : list nat) :
  forall (w w' : world) (e : ending),
    prepareAll lang chapterNums w = (e, w') ->
    requests w' = requests w
    /\ forall q, existsSync w q = true -> existsSync w' q = true.
Proof.
  induction chapterNums as [| k rest IH]; intros w w' e H.
  - injection H as <- <-. split; auto.
  - cbn [prepareAll] in H.
    destruct (prepareChapterChunks_files k lang w) as [c w1] eqn:Hone.
    apply prepareChapterChunks_files_effect in Hone.
    destruct Hone as (Hr & Hmono & _ & _).
    destruct c as [m | message | code]; try (injection H as <- <-; split; assumption).
    destruct (IH _ _ _ H) as [Hr' Hmono']. split; [congruence |].
    intros q Hq. apply Hmono', Hmono, Hq.
Qed.

Lemma prepareMain_keeps (args : list jsstring) (w w' : world) (e : ending) :
  prepareMain args w = (e, w') ->
  requests w' = requests w
  /\ forall q, existsSync w q = true -> existsSync w' q = true.
Proof.
  unfold prepareMain. intros H.
  destruct args as [| chapterArg [| lang rest]];
    try (injection H as <- <-; split; auto).
  destruct (knownLang lang); cbn [negb] in H; [| injection H as <- <-; split; auto].
  destruct (bool_decide (chapterArg = u "all")); [exact (prepareAll_keeps _ _ _ _ _ H) |].
  destruct (chapterOf chapterArg) as [n |]; [| injection H as <- <-; split; auto].
  destruct (prepareChapterChunks_files n lang w) as [c w1] eqn:Hone.
  injection H as <- <-. apply prepareChapterChunks_files_effect in Hone.
  destruct Hone as (Hr & Hmono & _ & _). split; assumption.
Qed.

(** The planner on the arguments of the orchestrator ends with status zero
    only when it has read the chapter file and saved the manifest. *)
Lemma prepareMain_single (n : nat) (lang : jsstring) (w w' : world) (e : ending) :
  1 <= n <= 11 ->
  prepareMain [showNat n; lang] w = (e, w') ->
  succeeded e = true ->
  knownLang lang = true
  /\ exists text ch,
       files w !! chapterFileOf n lang = Some (File text)
       /\ parseChapter text = Some ch
       /\ files w' !! join (audioDirOf n lang) (u "chunks.json")
          = Some (File (stringify (prepareChapterChunks n lang ch))).
Proof.
  intros Hn H Hok. apply succeeded_zero in Hok. unfold prepareMain in H.
  destruct (knownLang lang); cbn [negb] in H; [| injection H as <- <-; discriminate].
  split; [reflexivity |].
  rewrite bool_decide_eq_false_2 in H by (apply showNat_not_all, Hn).
  rewrite (chapterOf_showNat n Hn) in H.
  destruct (prepareChapterChunks_files n lang w) as [c w1] eqn:Hone.
  injection H as <- <-. cbn [statusOf] in Hok.
  apply prepareChapterChunks_files_effect in Hone.
  destruct Hone as (_ & _ & _ & Hret).
  destruct (Hret Hok) as (text & ch & Hread & Hparse & _ & Hsaved). eauto.
Qed.

Lemma generateChapterAudio_files_keeps (fuel chapterNum : nat) (lang : jsstring)
    (w w' : world) (c : completion Result.t) :
  generateChapterAudio_files fuel chapterNum lang w = Some (c, w') ->
  forall q, existsSync w q = true -> existsSync w' q = true.
Proof.
  unfold generateChapterAudio_files. intros H.
  destruct (existsSync w (join (audioDirOf chapterNum lang) (u "chunks.json")));
    cbn [negb] in H; [| injection H as <- <-; auto].
  destruct (readFileSync w _) as [text | message]; [| injection H as <- <-; auto].
  destruct (parseManifest text) as [chunksData |]; [| injection H as <- <-; auto].
  apply generateChapterAudio_effect in H. apply H.
Qed.

Lemma generateMain_files_keeps (fuel : nat) (args : list jsstring) (w w' : world)
    (e : ending) :
  generateMain_files fuel args w = Some (e, w') ->
  forall q, existsSync w q = true -> existsSync w' q = true.
Proof.
  unfold generateMain_files. intros H.
  destruct args as [| arg [| lang rest]]; try (injection H as <- <-; auto).
  destruct (chapterOf arg) as [n |]; [| injection H as <- <-; auto].
  destruct (knownLang lang); cbn [negb] in H; [| injection H as <- <-; auto].
  destruct (generateChapterAudio_files fuel n lang w) as [[c w1] |] eqn:Hrun;
    [| discriminate].
  injection H as <- <-. exact (generateChapterAudio_files_keeps _ _ _ _ _ _ Hrun).
Qed.

Lemma concatChapterAudio_files_keeps (chapterNum : nat) (lang : jsstring)
    (w w' : world) (c : completion jsstring) :
  concatChapterAudio_files chapterNum lang w = (c, w') ->
  forall q, existsSync w q = true -> existsSync w' q = true.
Proof.
  unfold concatChapterAudio_files. intros H.
  destruct (existsSync w (join (audioDirOf chapterNum lang) (u "chunks.json")));
    cbn [negb] in H; [| injection H as <- <-; auto].
  destruct (existsSync w (join (audioDirOf chapterNum lang) (u "chunks")));
    cbn [negb] in H; [| injection H as <- <-; auto].
  destruct (readFileSync w _) as [text | message]; [| injection H as <- <-; auto].
  destruct (parseManifest text) as [chunksData |]; [| injection H as <- <-; auto].
  apply concatChapterAudio_effect in H. apply H.
Qed.

Lemma concatMain_files_keeps (args : list jsstring) (w w' : world) (e : ending) :
  concatMain_files args w = (e, w') ->
  forall q, existsSync w q = true -> existsSync w' q = true.
Proof.
  unfold concatMain_files. intros H.
  destruct args as [| arg [| lang rest]]; try (injection H as <- <-; auto).
  destruct (chapterOf arg) as [n |]; [| injection H as <- <-; auto].
  destruct (knownLang lang); cbn [negb] in H; [| injection H as <- <-; auto].
  destruct (concatChapterAudio_files n lang w) as [c w1] eqn:Hrun.
  injection H as <- <-. exact (concatChapterAudio_files_keeps _ _ _ _ _ Hrun).
Qed.

(** The assembler on the arguments of the orchestrator ends with status
    zero only when the final file is there. *)
Lemma concatMain_files_single (n : nat) (lang : jsstring) (w w' : world)
    (e : ending) :
  1 <= n <= 11 ->
  concatMain_files [showNat n; lang] w = (e, w') ->
  succeeded e = true ->
  existsSync w' (outputFileOf n lang) = true.
Proof.
  intros Hn H Hok. apply succeeded_zero in Hok. unfold concatMain_files in H.
  rewrite (chapterOf_showNat n Hn) in H.
  destruct (knownLang lang); cbn [negb] in H; [| injection H as <- <-; discriminate].
  destruct (concatChapterAudio_files n lang w) as [c w1] eqn:Hrun.
  injection H as <- <-. cbn [statusOf] in Hok.
  unfold concatChapterAudio_files in Hrun.
  destruct (existsSync w (join (audioDirOf n lang) (u "chunks.json")));
    cbn [negb] in Hrun; [| injection Hrun as <- <-; discriminate].
  destruct (existsSync w (join (audioDirOf n lang) (u "chunks")));
    cbn [negb] in Hrun; [| injection Hrun as <- <-; discriminate].
  destruct (readFileSync w _) as [text | message];
    [| injection Hrun as <- <-; discriminate].
  destruct (parseManifest text) as [chunksData |];
    [| injection Hrun as <- <-; discriminate].
  apply (concatChapterAudio_status_zero _ _ _ _ _ _ Hrun Hok).
Qed.

Lemma buildChapter_keeps (fuel n : nat) (lang : jsstring) (w w' : world) (ok : bool) :
  buildChapter fuel n lang w = Some (ok, w') ->
  forall q, existsSync w q = true -> existsSync w' q = true.
Proof.
  unfold buildChapter. intros H q Hq.
  destruct (prepareMain [showNat n; lang] w) as [e1 w1] eqn:H1.
  apply prepareMain_keeps in H1. destruct H1 as [_ Hm1].
  destruct (succeeded e1); cbn [negb] in H; [| injection H as <- <-; auto].
  destruct (generateMain_files fuel [showNat n; lang] w1) as [[e2 w2] |] eqn:H2;
    [| discriminate].
  pose proof (generateMain_files_keeps _ _ _ _ _ H2) as Hm2.
  destruct (succeeded e2); cbn [negb] in H; [| injection H as <- <-; auto].
  destruct (concatMain_files [showNat n; lang] w2) as [e3 w3] eqn:H3.
  pose proof (concatMain_files_keeps _ _ _ _ H3) as Hm3.
  destruct (succeeded e3); cbn [negb] in H; injection H as <- <-; auto.
Qed.

(** A chapter reported as built has its final file. *)
Lemma built_chapter_files (fuel n : nat) (lang : jsstring) (w w' : world) :
  1 <= n <= 11 ->
  buildChapter fuel n lang w = Some (true, w') ->
  existsSync w' (outputFileOf n lang) = true.
Proof.
  unfold buildChapter. intros Hn H.
  destruct (prepareMain [showNat n; lang] w) as [e1 w1].
  destruct (succeeded e1); cbn [negb] in H; [| discriminate].
  destruct (generateMain_files fuel [showNat n; lang] w1) as [[e2 w2] |];
    [| discriminate].
  destruct (succeeded e2); cbn [negb] in H; [| discriminate].
  destruct (concatMain_files [showNat n; lang] w2) as [e3 w3] eqn:H3.
  destruct (succeeded e3) eqn:Hok3; cbn [negb] in H; [| discriminate].
  injection H as <-. apply (concatMain_files_single _ _ _ _ _ Hn H3 Hok3).
Qed.

(** X28: the orchestrator reports a chapter as built only when each of the
    three scripts ended with status zero, and then the chapter file was
    there at the start, the manifest of the chapter was saved by the
    planner run first, and the final file of the chapter is there at the
    end. *)
Theorem built_chapter_has_its_final_file (fuel n : nat) (lang : jsstring)
    (w w' : world) :
  1 <= n <= 11 ->
  buildChapter fuel n lang w = Some (true, w') ->
  (lang = u "en" \/ lang = u "es")
  /\ existsSync w (chapterFileOf n lang) = true
  /\ existsSync w' (join (audioDirOf n lang) (u "chunks.json")) = true
  /\ existsSync w' (outputFileOf n lang) = true.
Proof.
  unfold buildChapter. intros Hn H.
  destruct (prepareMain [showNat n; lang] w) as [e1 w1] eqn:H1.
  destruct (succeeded e1) eqn:Hok1; cbn [negb] in H; [| discriminate].
  destruct (prepareMain_single _ _ _ _ _ Hn H1 Hok1)
    as (Hlang & text & ch & Hread & _ & Hsaved).
  destruct (generateMain_files fuel [showNat n; lang] w1) as [[e2 w2] |] eqn:H2;
    [| discriminate].
  pose proof (generateMain_files_keeps _ _ _ _ _ H2) as Hm2.
  destruct (succeeded e2); cbn [negb] in H; [| discriminate].
  destruct (concatMain_files [showNat n; lang] w2) as [e3 w3] eqn:H3.
  pose proof (concatMain_files_keeps _ _ _ _ H3) as Hm3.
  destruct (succeeded e3) eqn:Hok3; cbn [negb] in H; [| discriminate].
  injection H as <-.
  repeat apply conj.
  - apply knownLang_cases, Hlang.
  - unfold existsSync. rewrite Hread. apply bool_decide_eq_true. eauto.
  - apply Hm3, Hm2. unfold existsSync. rewrite Hsaved.
    apply bool_decide_eq_true. eauto.
  - apply (concatMain_files_single _ _ _ _ _ Hn H3 Hok3).
Qed.

Lemma buildAll_no_failure (fuel : nat) (lang : jsstring) (chapterNums : list nat) :
  forall (successCount failCount : nat) (w w' : world) (sc' fc' : nat),
    (forall i, i ∈ chapterNums -> 1 <= i <= 11) ->
    buildAll fuel lang chapterNums successCount failCount w = Some (sc', fc', w') ->
    failCount <= fc'
    /\ (forall q, existsSync w q = true -> existsSync w' q = true)
    /\ (fc' = 0 ->
        forall i, i ∈ chapterNums -> existsSync w' (outputFileOf i lang) = true).
Proof.
  induction chapterNums as [| k rest IH];
    intros successCount failCount w w' sc' fc' Hrange H.
  - injection H as <- <- <-. repeat split; auto. intros _ i Hi. inversion Hi.
  - cbn [buildAll] in H.
    destruct (buildChapter fuel k lang w) as [[ok w1] |] eqn:Hone; [| discriminate].
    pose proof (buildChapter_keeps _ _ _ _ _ _ Hone) as Hm1.
    assert (Hrest : forall i, i ∈ rest -> 1 <= i <= 11)
      by (intros i Hi; apply Hrange; right; exact Hi).
    destruct ok.
    + destruct (IH _ _ _ _ _ _ Hrest H) as (Hle & Hm2 & Hall).
      repeat split; [exact Hle | intros q Hq; apply Hm2, Hm1, Hq |].
      intros Hzero i Hi. apply elem_of_cons in Hi. destruct Hi as [-> | Hi].
      * apply Hm2.
        apply (built_chapter_files fuel k lang w w1); [apply Hrange; left | exact Hone].
      * apply (Hall Hzero i Hi).
    + destruct (IH _ _ _ _ _ _ Hrest H) as (Hle & Hm2 & Hall).
      repeat split; [lia | intros q Hq; apply Hm2, Hm1, Hq |].
      intros Hzero. lia.
Qed.

(** X29: run for all the chapters, the orchestrator goes on after a chapter
    that failed and ends with status one; when it ends with status zero the
    final file of each of the eleven chapters is there. *)
Theorem build_all_status_zero_means_eleven_files (fuel : nat) (lang : jsstring)
    (rest : list jsstring) (w w' : world) (e : ending) :
  buildMain fuel (u "all" :: lang :: rest) w = Some (e, w') ->
  statusOf e = 0%Z ->
  (lang = u "en" \/ lang = u "es")
  /\ forall i, 1 <= i <= 11 -> existsSync w' (outputFileOf i lang) = true.
Proof.
  unfold buildMain. intros H Hstatus.
  destruct (knownLang lang) eqn:Hlang; cbn [negb] in H;
    [| injection H as <- <-; discriminate].
  rewrite bool_decide_eq_true_2 in H by reflexivity.
  destruct (buildAll fuel lang (seq 1 11) 0 0 w) as [[[sc fc] w1] |] eqn:Hall;
    [| discriminate].
  injection H as <- <-. cbn [statusOf] in Hstatus.
  split; [apply knownLang_cases, Hlang |].
  apply buildAll_no_failure in Hall.
  - destruct Hall as (_ & _ & Hfiles). intros i Hi. apply Hfiles.
    + destruct (decide (fc = 0)) as [E | E]; [exact E |].
      rewrite bool_decide_eq_false_2 in Hstatus by exact E. discriminate.
    + apply elem_of_seq. lia.
  - intros i Hi. apply elem_of_seq in Hi. lia.
Qed.

Lemma readFileSync_lookup (w : world) (p text : jsstring) :
  files w !! p = Some (File text) ->
  existsSync w p = true /\ readFileSync w p = inl text.
Proof.
  intros H. unfold existsSync, readFileSync. rewrite H.
  split; [apply bool_decide_eq_true; eauto | reflexivity].
Qed.

(** X24: the whole pipeline on a good day.  When the manifest of the
    chapter, as it is saved, parses back to itself, the chapter file is there and parses,
    there is an API key, the service answers every request with status 200
    and ffmpeg completes every command, the orchestrator builds the
    chapter: each script ends with status zero and the final file of the
    chapter is on the disk. *)
Theorem chapter_file_to_final_file (fuel n : nat) (lang : jsstring) (w : world)
    (text : jsstring) (ch : chapter) :
  parseManifest (stringify (prepareChapterChunks n lang ch))
  = Some (prepareChapterChunks n lang ch) ->
  1 <= n <= 11 ->
  lang = u "en" \/ lang = u "es" ->
  files w !! chapterFileOf n lang = Some (File text) ->
  parseChapter text = Some ch ->
  hasKey = true ->
  (forall k text voiceId, exists body, fishAudio k text voiceId = Response 200 body) ->
  (forall command d, exists stdout output,
     ffmpeg command d = FfmpegDone stdout output) ->
  length (Manifest.chunks (prepareChapterChunks n lang ch)) < fuel ->
  exists w',
    buildChapter fuel n lang w = Some (true, w')
    /\ existsSync w' (outputFileOf n lang) = true.
Proof.
  intros Hjson Hn Hlang Hread Hparse Hkey Hok Hff Hfuel.
  assert (Hknown : knownLang lang = true)
    by (destruct Hlang as [-> | ->]; reflexivity).
  set (chunksData := prepareChapterChunks n lang ch) in *.
  destruct (readFileSync_lookup _ _ _ Hread) as [Hex Hrd].
  destruct (prepareChapterChunks_files n lang w) as [c w0] eqn:Hplan.
  assert (Hc : c = Return chunksData).
  { unfold prepareChapterChunks_files in Hplan.
    rewrite Hex, Hrd, Hparse in Hplan. cbn [negb] in Hplan.
    apply pair_equal_spec in Hplan. destruct Hplan as [<- _]. reflexivity. }
  subst c.
  pose proof (prepareChapterChunks_files_effect _ _ _ _ _ Hplan)
    as (_ & _ & _ & Hret).
  destruct (Hret eq_refl) as (text' & ch' & _ & _ & Hsame & Hsaved).
  injection Hsame as Hsame. rewrite <- Hsame in Hsaved. clear Hret Hsame text' ch'.
  destruct (stages_in_a_row fuel n lang w w0 chunksData Hplan Hkey Hok Hff Hfuel)
    as (r & w1 & w2 & Hrun & Hclean & Hconcat & Hout).
  destruct (readFileSync_lookup _ _ _ Hsaved) as [Hex0 Hrd0].
  assert (Hsaved1 : files w1 !! join (audioDirOf n lang) (u "chunks.json")
                    = Some (File (stringify chunksData))).
  { rewrite <- Hsaved.
    apply (generateChapterAudio_effect _ _ _ _ _ _ _ Hrun).
    - apply manifest_not_chunksDir.
    - apply manifest_not_silences, Hknown.
    - apply manifest_not_silences, Hknown.
    - apply manifest_not_clip. }
  destruct (readFileSync_lookup _ _ _ Hsaved1) as [Hex1 Hrd1].
  exists w2. split; [| exact Hout].
  unfold buildChapter, prepareMain.
  rewrite Hknown. cbn [negb].
  rewrite bool_decide_eq_false_2 by (apply showNat_not_all, Hn).
  rewrite (chapterOf_showNat n Hn), Hplan.
  cbn [prepareExitStatus succeeded statusOf Z.eqb negb].
  unfold generateMain_files, generateChapterAudio_files.
  rewrite (chapterOf_showNat n Hn), Hknown. cbn [negb].
  rewrite Hex0, Hrd0, Hjson, Hrun. cbn [negb generateExitStatus].
  rewrite Hclean.
  rewrite bool_decide_eq_true_2 by reflexivity.
  cbn [succeeded statusOf Z.eqb negb].
  unfold concatMain_files, concatChapterAudio_files.
  rewrite (chapterOf_showNat n Hn), Hknown. cbn [negb].
  rewrite Hex1. cbn [negb].
  assert (Hdir : existsSync w1 (join (audioDirOf n lang) (u "chunks")) = true).
  { unfold concatChapterAudio in Hconcat. rewrite Hex1 in Hconcat.
    cbn [negb] in Hconcat.
    destruct (existsSync w1 (join (audioDirOf n lang) (u "chunks")));
      [reflexivity | discriminate Hconcat]. }
  rewrite Hdir. cbn [negb]. rewrite Hrd1, Hjson, Hconcat. reflexivity.
Qed.

End Scripts.

(** ** Concrete runs *)

Ltac by_computation := vm_compute; reflexivity.

(** Discharge a statement about every unit of a concrete manifest. *)
Ltac for_each_chunk :=
  let chunk := fresh "chunk" in
  let Hin := fresh "Hin" in
  intros chunk Hin; vm_compute in Hin;
  repeat (apply elem_of_cons in Hin; destruct Hin as [-> | Hin]);
  [.. | apply elem_of_nil in Hin; destruct Hin].

(** In the sample worlds that have the silences, provisioning does
    nothing. *)
Ltac silences_present :=
  rewrite ensureDir_exists by by_computation;
  apply generateAllSilences_noop;
  [by_computation | repeat constructor; by_computation].

Lemma run_worldAfter {A : Type} (run : option (completion A * world))
    (r : completion A) :
  fst <$> run = Some r -> run = Some (r, worldAfter run).
Proof.
  destruct run as [[r' w] |]; [| discriminate].
  cbn. intros H. injection H as ->. reflexivity.
Qed.

Example cleanText_markers :
  cleanText (u "  The {term:ki|life  force} and <em>the</em> {term:reiki}{ref:a1} way. ")
  = u "The life force and the reiki way.".
Proof. by_computation. Qed.

Example cleanText_only_markup : cleanText (u " {ref:x} <em></em> ") = [].
Proof. by_computation. Qed.

Example cleanText_unmatched :
  cleanText (u "{term:a|} {term:|b} {ref:}") = u "{term:a|} {term:|b} {ref:}".
Proof. by_computation. Qed.

Example chunkId_padded : chunkId 3 12 = u "ch3-chunk-012".
Proof. by_computation. Qed.

Example twoSections_units :
  map (fun c => (Chunk.id c, Chunk.text c, Chunk.pauseAfter c))
    (Manifest.chunks sampleManifest)
  = [(u "ch1-chunk-000", u "One. Origins", 2.0%float);
     (u "ch1-chunk-001", u "Reiki is a practice.", 0.8%float);
     (u "ch1-chunk-002", u "It is old.", 2.5%float);
     (u "ch1-chunk-003", u "It is simple.", 3.0%float)].
Proof. by_computation. Qed.

Example emptyTail_units :
  map (fun c => (Chunk.id c, Chunk.text c, Chunk.pauseAfter c))
    (Manifest.chunks (prepareChapterChunks 2 (u "en") emptyTail))
  = [(u "ch2-chunk-000", u "Two. Practice", 2.0%float);
     (u "ch2-chunk-001", u "Sit.", 0.8%float);
     (u "ch2-chunk-002", u "Breathe.", 2.5%float);
     (u "ch2-chunk-003", u "Rest.", 0.8%float)].
Proof. by_computation. Qed.

Example sample_paths :
  join (audioDirOf sampleRoot 1 (u "en")) (u "chunks.json") = sampleChunksFile
  /\ join (audioDirOf sampleRoot 1 (u "en")) (u "chunks") = sampleChunksDir
  /\ outputFileOf sampleRoot 1 (u "en") = sampleOutputFile
  /\ concatListPathOf sampleRoot 1 (u "en") = sampleConcatList
  /\ map (chunkPath sampleChunksDir) (Manifest.chunks sampleManifest)
     = [clipOf "ch1-chunk-000"; clipOf "ch1-chunk-001"; clipOf "ch1-chunk-002";
        clipOf "ch1-chunk-003"]
  /\ map (silencePath sampleNumberToString sampleSilencesDir) durations = allSilences.
Proof. repeat apply conj; by_computation. Qed.

Lemma skipped_final_block_no_chapter_end_witness :
  let chunks := Manifest.chunks (prepareChapterChunks 2 (u "en") emptyTail) in
  Forall (fun c => Chunk.pauseAfter c <> 3.0%float) chunks
  /\ map Chunk.pauseAfter chunks
     = 2.0%float ::
       map (fun p =>
              if isLastBlock p then 2.5%float
              else if bool_decide (Block.type (block p) = u "quote") then 1.5%float
              else 0.8%float)
         (survivors emptyTail).
Proof.
  apply (skipped_final_block_no_chapter_end 2 (u "en") emptyTail
           [ {| content := [paragraph "Sit."; paragraph " "; quote "Breathe."] |} ]
           {| content := [paragraph "Rest."; paragraph "{ref:n1}"] |}
           [paragraph "Rest."] (paragraph "{ref:n1}")).
  - reflexivity.
  - reflexivity.
  - by_computation.
Defined.

Lemma rerun_with_all_clips_witness :
  exists r,
    generateChapterAudio sampleRoot sampleNumberToString sampleKey sampleVoice
      alwaysThrottled ffmpegBroken 5 1 (u "en") sampleManifest sampleReady
    = Some (Return r, sampleReady)
    /\ noRequest sampleReady sampleReady
    /\ Z.of_nat (Result.successCount r) = Manifest.totalChunks sampleManifest
    /\ Result.errorCount r = 0
    /\ Result.total r = Manifest.totalChunks sampleManifest
    /\ generateExitStatus (Return r) = 0%Z.
Proof.
  apply (rerun_with_all_clips sampleRoot sampleNumberToString sampleKey sampleVoice
           alwaysThrottled ffmpegBroken 5 1 (u "en") sampleManifest sampleReady
           sampleReady).
  - by_computation.
  - for_each_chunk; by_computation.
  - silences_present.
  - by_computation.
  - vm_compute. lia.
Defined.

Lemma silence_provisioning_once_witness :
  generateSilence sampleNumberToString ffmpegDone 2.0%float (silenceOf "2") sampleReady
  = (Return tt, sampleReady)
  /\ (exists w',
        generateSilence sampleNumberToString ffmpegDone 2.0%float (silenceOf "2")
          sampleEmpty = (Return tt, w')
        /\ files w' = <[silenceOf "2" := File [255; 251]%N]> (files sampleEmpty)
        /\ trace w'
           = trace sampleEmpty ++
             [EvExec (silenceCommand sampleNumberToString 2.0%float (silenceOf "2"))]
        /\ generateSilence sampleNumberToString ffmpegDone 2.0%float (silenceOf "2") w'
           = (Return tt, w'))
  /\ (exists w1 r w',
        generateAllSilences sampleNumberToString ffmpegDone
          (join sampleRoot (u "audio"))
          (ensureDir (join (audioDirOf sampleRoot 1 (u "en")) (u "chunks"))
             sampleNoSilences)
        = (Return tt, w1)
        /\ requests w1 = requests sampleNoSilences
        /\ Forall (fun d =>
                     existsSync w1
                       (silencePath sampleNumberToString
                          (join (join sampleRoot (u "audio")) (u "silences")) d)
                     = true)
             [0.8; 1.5; 2.0; 2.5; 3.0]%float
        /\ generateChapterAudio sampleRoot sampleNumberToString sampleKey sampleVoice
             alwaysAudio ffmpegDone 5 1 (u "en") sampleManifest sampleNoSilences
           = Some (Return r, w')
        /\ Forall (fun d =>
                     existsSync w'
                       (silencePath sampleNumberToString
                          (join (join sampleRoot (u "audio")) (u "silences")) d)
                     = true)
             [0.8; 1.5; 2.0; 2.5; 3.0]%float)
  /\ (exists w1,
        noRequest sampleNoSilences w1
        /\ forall fuel : nat,
             generateChapterAudio sampleRoot sampleNumberToString sampleKey
               sampleVoice alwaysAudio ffmpegBroken fuel 1 (u "en") sampleManifest
               sampleNoSilences
             = Some (Throw (u "Command failed: ffmpeg"), w1)).
Proof.
  destruct (silence_provisioning_once sampleRoot sampleNumberToString sampleKey
              sampleVoice alwaysAudio ffmpegDone) as (Hnoop & Hcreate & _ & Hrun).
  destruct (silence_provisioning_once sampleRoot sampleNumberToString sampleKey
              sampleVoice alwaysAudio ffmpegBroken) as (_ & _ & Hprov & _).
  repeat apply conj.
  - apply Hnoop. by_computation.
  - apply (Hcreate 2.0%float (silenceOf "2") sampleEmpty []).
    + by_computation.
    + reflexivity.
  - apply (Hrun 5 1 (u "en") sampleManifest sampleNoSilences).
    + by_computation.
    + intros command d. exists [], [255; 251]%N. reflexivity.
    + intros n text voiceId message H. vm_compute in H. discriminate H.
    + vm_compute. lia.
  - destruct (Hprov 1 (u "en") sampleManifest sampleNoSilences)
      as (c & w1 & Hsil & Hn & Hc); [by_computation |].
    assert (Hfst : fst (generateAllSilences sampleNumberToString ffmpegBroken
                          (join sampleRoot (u "audio"))
                          (ensureDir
                             (join (audioDirOf sampleRoot 1 (u "en")) (u "chunks"))
                             sampleNoSilences))
                   = Throw (u "Command failed: ffmpeg")) by by_computation.
    rewrite Hsil in Hfst. cbn [fst] in Hfst. subst c.
    exists w1. split; [exact Hn | exact Hc].
Defined.

Example silences_provisioned_before_the_loop :
  let run :=
    generateChapterAudio sampleRoot sampleNumberToString sampleKey sampleVoice
      alwaysAudio ffmpegDone 5 1 (u "en") sampleManifest sampleNoSilences in
  fst <$> run = Some (Return (Result.mk 4 0 4))
  /\ map (existsSync sampleNoSilences) allSilences
     = [false; false; false; false; false]
  /\ map (existsSync (worldAfter run)) allSilences = [true; true; true; true; true]
  /\ take 5 (trace (worldAfter run))
     = map (fun d => EvExec (silenceCommand sampleNumberToString d
                               (silencePath sampleNumberToString sampleSilencesDir d)))
         durations
  /\ filter (fun e => isRequest e = true) (take 5 (trace (worldAfter run))) = [].
Proof. repeat apply conj; by_computation. Qed.

Example sampleReady_concat_list :
  fst (concatChapterAudio sampleRoot sampleNumberToString ffmpegDone 1 (u "en")
         sampleManifest sampleReady)
  = Return sampleOutputFile
  /\ trace (snd (concatChapterAudio sampleRoot sampleNumberToString ffmpegDone 1
                   (u "en") sampleManifest sampleReady))
     = [EvWrite sampleConcatList
          (concat (map concatLine
             [clipOf "ch1-chunk-000"; silenceOf "2";
              clipOf "ch1-chunk-001"; silenceOf "0.8";
              clipOf "ch1-chunk-002"; silenceOf "2.5";
              clipOf "ch1-chunk-003"; silenceOf "3"]));
        EvExec (concatCommand sampleConcatList sampleOutputFile)].
Proof. split; by_computation. Qed.

Lemma concat_list_follows_manifest_witness :
  let chunks := Manifest.chunks sampleManifest in
  let entries :=
    flat_map (fun chunk =>
                chunkPath (join (audioDirOf sampleRoot 1 (u "en")) (u "chunks")) chunk ::
                if PrimFloat.ltb 0 (Chunk.pauseAfter chunk)
                then [silencePath sampleNumberToString
                        (join (join sampleRoot (u "audio")) (u "silences"))
                        (Chunk.pauseAfter chunk)]
                else [])
      chunks in
  (exists r w' t,
     concatChapterAudio sampleRoot sampleNumberToString ffmpegDone 1 (u "en")
       sampleManifest sampleReady = (r, w')
     /\ trace w' = trace sampleReady ++
                   EvWrite (concatListPathOf sampleRoot 1 (u "en"))
                     (concat (map concatLine entries)) ::
                   EvExec (concatCommand (concatListPathOf sampleRoot 1 (u "en"))
                             (outputFileOf sampleRoot 1 (u "en"))) :: t
     /\ Forall (fun e => match e with EvConsoleError _ => True | _ => False end) t
     /\ r = Return (outputFileOf sampleRoot 1 (u "en")))
  /\ length entries = 8
  /\ length entries
     + length (filter (fun chunk => PrimFloat.eqb (Chunk.pauseAfter chunk) 0 = true)
                 chunks)
     = 2 * length chunks.
Proof.
  intros chunks entries.
  destruct (concat_list_follows_manifest sampleRoot sampleNumberToString ffmpegDone
              1 (u "en") sampleManifest sampleReady) as (Hrun & Hlen & Hzero).
  - by_computation.
  - by_computation.
  - for_each_chunk; by_computation.
  - for_each_chunk; intros _; by_computation.
  - split; [exact Hrun |]. split; [by_computation |].
    apply Hzero. apply Forall_forall. for_each_chunk; by_computation.
Defined.

Lemma throttled_unit_retried_while_throttled_witness :
  (exists body w',
     loopBody sampleKey alwaysThrottled sampleManifest sampleChunksDir
       (voiceIdOf sampleVoice) (Loop.mk 0 0 0) sampleNoClips
     = (Return (Loop.mk 0 0 1), w')
     /\ trace w' = trace sampleNoClips ++
                   [EvRequest (u "One. Origins") (voiceIdOf sampleVoice)
                      (Response 429 body);
                    EvConsoleError (SynthesisError (u "API Error 429: " ++ body));
                    EvSleep 5000]
     /\ files w' = files sampleNoClips
     /\ requests w' = S (requests sampleNoClips))
  /\ (DELAY_BETWEEN_REQUESTS < 5000)%Z
  /\ forLoop sampleKey alwaysThrottled 1000 sampleManifest sampleChunksDir
       (voiceIdOf sampleVoice) (Loop.mk 0 0 0) sampleNoClips = None.
Proof.
  apply (throttled_unit_retried_while_throttled sampleKey alwaysThrottled
           sampleManifest sampleChunksDir (voiceIdOf sampleVoice) 0%Z 0 0
           sampleNoClips (introChunk 1 twoSections) 115%N (u "ecret") 999).
  - by_computation.
  - by_computation.
  - by_computation.
  - intros j _. exists (u "Too Many Requests"). reflexivity.
Defined.

(** C4, against the claim: on a manifest whose first unit has no clip, with
    a service that answers every request with the status 429, there is no
    number of turns after which the run has ended, with a fatal error or
    otherwise: the retries are not bounded. *)
Lemma throttled_retries_unbounded :
  ~ exists fuel outcome,
      generateChapterAudio sampleRoot sampleNumberToString sampleKey sampleVoice
        alwaysThrottled ffmpegDone fuel 1 (u "en") sampleManifest sampleNoClips
      = Some outcome.
Proof.
  intros (fuel & outcome & Hrun).
  rewrite (generateChapterAudio_throttled_forever sampleRoot sampleNumberToString
             sampleKey sampleVoice alwaysThrottled ffmpegDone 1 (u "en")
             sampleManifest sampleNoClips sampleNoClips (introChunk 1 twoSections)
             115%N (u "ecret")) in Hrun.
  - discriminate.
  - by_computation.
  - silences_present.
  - by_computation.
  - by_computation.
  - by_computation.
  - intros k text voiceId. exists (u "Too Many Requests"). reflexivity.
Qed.

(** A run in which the request for the last unit is answered 429 once and
    then with audio: the clip is written, and the run still ends with
    status one. *)
Example retried_run_result :
  let run :=
    generateChapterAudio sampleRoot sampleNumberToString sampleKey sampleVoice
      throttledOnce ffmpegDone 10 1 (u "en") sampleManifest sampleLastMissing in
  fst <$> run = Some (Return (Result.mk 4 1 4))
  /\ generateExitStatus (Return (Result.mk 4 1 4)) = 1%Z
  /\ existsSync (worldAfter run) (clipOf "ch1-chunk-003") = true
  /\ trace (worldAfter run)
     = [EvRequest (u "It is simple.") (u "f53102becdf94a51af6d64010bc658f2")
          (Response 429 (u "Too Many Requests"));
        EvConsoleError (SynthesisError (u "API Error 429: Too Many Requests"));
        EvSleep 5000;
        EvRequest (u "It is simple.") (u "f53102becdf94a51af6d64010bc658f2")
          (Response 200 [73; 68; 51]%N);
        EvWrite (clipOf "ch1-chunk-003") [73; 68; 51]%N].
Proof. repeat apply conj; by_computation. Qed.

(** Running again after that run: every clip is there, nothing is sent, and
    the status is zero. *)
Example rerun_after_retry :
  let first :=
    generateChapterAudio sampleRoot sampleNumberToString sampleKey sampleVoice
      throttledOnce ffmpegDone 10 1 (u "en") sampleManifest sampleLastMissing in
  let second :=
    generateChapterAudio sampleRoot sampleNumberToString sampleKey sampleVoice
      alwaysThrottled ffmpegBroken 10 1 (u "en") sampleManifest (worldAfter first) in
  fst <$> second = Some (Return (Result.mk 4 0 4))
  /\ generateExitStatus (Return (Result.mk 4 0 4)) = 0%Z
  /\ requests (worldAfter second) = requests (worldAfter first)
  /\ trace (worldAfter second) = trace (worldAfter first).
Proof. repeat apply conj; by_computation. Qed.

Lemma throttled_run_exits_nonzero_witness :
  let run :=
    generateChapterAudio sampleRoot sampleNumberToString sampleKey sampleVoice
      throttledOnce ffmpegDone 10 1 (u "en") sampleManifest sampleLastMissing in
  let r := Result.mk 4 1 4 in
  run = Some (Return r, worldAfter run)
  /\ 1 <= Result.errorCount r
  /\ (Manifest.totalChunks sampleManifest
        + Z.of_nat (count429 (trace (worldAfter run))
                    - count429 (trace sampleLastMissing))
      <= Z.of_nat (Result.successCount r + Result.errorCount r))%Z
  /\ (Manifest.totalChunks sampleManifest
      < Z.of_nat (Result.successCount r + Result.errorCount r))%Z
  /\ generateExitStatus (Return r) = 1%Z.
Proof.
  intros run r.
  assert (Hrun : run = Some (Return r, worldAfter run))
    by (apply run_worldAfter; by_computation).
  split; [exact Hrun |].
  apply (throttled_run_exits_nonzero sampleRoot sampleNumberToString sampleKey
           sampleVoice throttledOnce ffmpegDone 10 1 (u "en") sampleManifest
           sampleLastMissing (worldAfter run) r).
  - exact Hrun.
  - assert (H : count429 (trace sampleLastMissing) = 0) by by_computation.
    assert (H' : count429 (trace (worldAfter run)) = 1) by by_computation.
    rewrite H, H'. lia.
  - by_computation.
Defined.

Lemma missing_clip_aborts_witness :
  exists w',
    concatChapterAudio sampleRoot sampleNumberToString ffmpegDone 1 (u "en")
      sampleManifest sampleLastMissing = (Exit 1, w')
    /\ trace w' = [EvConsoleError (MissingChunks 1);
                   EvConsoleError (MissingChunk (u "ch1-chunk-003"))].
Proof.
  destruct (missing_clip_aborts sampleRoot sampleNumberToString ffmpegDone 1 (u "en")
              sampleManifest sampleLastMissing
              (Chunk.mk (u "ch1-chunk-003") (u "paragraph") (u "It is simple.")
                 3.0%float)) as [_ Hlist].
  - apply (list_elem_of_lookup_2 _ 3). by_computation.
  - by_computation.
  - destruct Hlist as (w' & Hrun & Htrace).
    + by_computation.
    + by_computation.
    + for_each_chunk; intros _ _; by_computation.
    + exists w'. split; [exact Hrun |]. rewrite Htrace. by_computation.
Defined.

(** C5, against the claim: the clips of three units are missing, and so is
    the silence of the intro, whose clip is there; the run exits on the
    missing silence and reports the id of no missing clip. *)
Lemma missing_ids_not_reported :
  let run :=
    concatChapterAudio sampleRoot sampleNumberToString ffmpegDone 1 (u "en")
      sampleManifest sampleNoSilences in
  missingIds sampleChunksDir sampleNoSilences (Manifest.chunks sampleManifest)
  = [u "ch1-chunk-001"; u "ch1-chunk-002"; u "ch1-chunk-003"]
  /\ fst run = Exit 1
  /\ trace (snd run) = [EvConsoleError (SilenceFileNotFound (silenceOf "2"))]
  /\ ~ In (EvConsoleError (MissingChunk (u "ch1-chunk-001"))) (trace (snd run)).
Proof.
  intros run.
  assert (Htrace : trace (snd run)
                   = [EvConsoleError (SilenceFileNotFound (silenceOf "2"))])
    by by_computation.
  split; [by_computation |]. split; [by_computation |]. split; [exact Htrace |].
  rewrite Htrace. intros [H | []]. discriminate H.
Qed.

Lemma concat_failure_is_fatal_witness :
  exists w',
    concatChapterAudio sampleRoot sampleNumberToString ffmpegBroken 1 (u "en")
      sampleManifest sampleReady = (Exit 1, w')
    /\ concatExitStatus (Exit 1) = 1%Z
    /\ files w' !! outputFileOf sampleRoot 1 (u "en") = Some (File [255]%N).
Proof.
  apply (concat_failure_is_fatal sampleRoot sampleNumberToString ffmpegBroken 1
           (u "en") sampleManifest sampleReady (u "Command failed: ffmpeg")
           (Some [255]%N)).
  - by_computation.
  - by_computation.
  - for_each_chunk; by_computation.
  - for_each_chunk; intros _; by_computation.
  - reflexivity.
Defined.

(** C8, against the claim: the final file of an earlier run is there; ffmpeg
    is given that very path as its output and fails after it has started to
    write; the run exits with status one and the partly written file is in
    the place of the earlier one. *)
Lemma concat_failure_clobbers_prior :
  let run :=
    concatChapterAudio sampleRoot sampleNumberToString ffmpegBroken 1 (u "en")
      sampleManifest samplePrior in
  files samplePrior !! sampleOutputFile = Some (File [73; 68; 51; 4; 0]%N)
  /\ fst run = Exit 1
  /\ In (EvExec (concatCommand sampleConcatList sampleOutputFile)) (trace (snd run))
  /\ files (snd run) !! sampleOutputFile = Some (File [255]%N)
  /\ files (snd run) !! sampleOutputFile <> files samplePrior !! sampleOutputFile.
Proof.
  intros run.
  assert (Hbefore : files samplePrior !! sampleOutputFile
                    = Some (File [73; 68; 51; 4; 0]%N)) by by_computation.
  assert (Hafter : files (snd run) !! sampleOutputFile = Some (File [255]%N))
    by by_computation.
  assert (Htrace : trace (snd run)
                   = [EvWrite sampleConcatList
                        (concat (map concatLine
                           [clipOf "ch1-chunk-000"; silenceOf "2";
                            clipOf "ch1-chunk-001"; silenceOf "0.8";
                            clipOf "ch1-chunk-002"; silenceOf "2.5";
                            clipOf "ch1-chunk-003"; silenceOf "3"]));
                      EvExec (concatCommand sampleConcatList sampleOutputFile);
                      EvConsoleError (FfmpegError (u "Command failed: ffmpeg"))])
    by by_computation.
  split; [exact Hbefore |]. split; [by_computation |].
  split; [rewrite Htrace; right; left; reflexivity |].
  split; [exact Hafter |]. rewrite Hafter, Hbefore. discriminate.
Qed.

(** ** Concrete runs of the further properties *)

Lemma run_pair {A B : Type} (x : A * B) (a : A) : fst x = a -> x = (a, snd x).
Proof. destruct x as [a' b]. cbn. intros ->. reflexivity. Qed.

(** Discharge a statement about every unit of a concrete text. *)
Ltac units_by_reflexivity :=
  repeat (apply Forall_cons; split; [reflexivity |]); apply Forall_nil; exact I.

Ltac units_distinct :=
  repeat (apply Forall_cons; split; [repeat split; discriminate |]);
  apply Forall_nil; exact I.

Lemma run_counts_units_and_retries_witness :
  let run :=
    generateChapterAudio sampleRoot sampleNumberToString sampleKey sampleVoice
      throttledOnce ffmpegDone 10 1 (u "en") sampleManifest sampleLastMissing in
  let r := Result.mk 4 1 4 in
  Result.successCount r + Result.errorCount r + retrySleeps (trace sampleLastMissing)
  = length (Manifest.chunks sampleManifest) + retrySleeps (trace (worldAfter run)).
Proof.
  intros run r.
  apply (run_counts_units_and_retries sampleRoot sampleNumberToString sampleKey
           sampleVoice throttledOnce ffmpegDone 10 1 (u "en") sampleManifest
           sampleLastMissing (worldAfter run) r).
  apply run_worldAfter. by_computation.
Defined.

Lemma clean_run_leaves_every_clip_witness :
  let run :=
    generateChapterAudio sampleRoot sampleNumberToString sampleKey sampleVoice
      alwaysAudio ffmpegDone 10 1 (u "en") sampleManifest sampleNoClips in
  let r := Result.mk 4 0 4 in
  Result.successCount r = length (Manifest.chunks sampleManifest)
  /\ forall chunk, chunk ∈ Manifest.chunks sampleManifest ->
       existsSync (worldAfter run)
         (chunkPath (join (audioDirOf sampleRoot 1 (u "en")) (u "chunks")) chunk)
       = true.
Proof.
  intros run r.
  apply (clean_run_leaves_every_clip sampleRoot sampleNumberToString sampleKey
           sampleVoice alwaysAudio ffmpegDone 10 1 (u "en") sampleManifest
           sampleNoClips (worldAfter run) r).
  - apply run_worldAfter. by_computation.
  - reflexivity.
Defined.

Lemma run_ends_when_never_throttled_witness :
  exists c w',
    generateChapterAudio sampleRoot sampleNumberToString sampleKey sampleVoice
      serverError ffmpegDone 5 1 (u "en") sampleManifest sampleNoClips
    = Some (c, w')
    /\ requests w' <= requests sampleNoClips + length (Manifest.chunks sampleManifest)
    /\ forall r, c = Return r ->
         Result.successCount r + Result.errorCount r
         = length (Manifest.chunks sampleManifest).
Proof.
  apply (run_ends_when_never_throttled sampleRoot sampleNumberToString sampleKey
           sampleVoice serverError ffmpegDone 5 1 (u "en") sampleManifest
           sampleNoClips).
  - intros n text voiceId message H. vm_compute in H. injection H as <-.
    by_computation.
  - vm_compute. lia.
Defined.

Lemma run_without_key_fails_missing_units_witness :
  exists r w',
    generateChapterAudio sampleRoot sampleNumberToString None sampleVoice
      alwaysAudio ffmpegDone 5 1 (u "en") sampleManifest sampleLastMissing
    = Some (Return r, w')
    /\ requests w' = requests sampleLastMissing
    /\ files w' = files sampleLastMissing
    /\ Result.errorCount r
       = length (missingIds (join (audioDirOf sampleRoot 1 (u "en")) (u "chunks")) w'
                   (Manifest.chunks sampleManifest))
    /\ Result.successCount r + Result.errorCount r
       = length (Manifest.chunks sampleManifest)
    /\ generateExitStatus (Return r)
       = match missingIds (join (audioDirOf sampleRoot 1 (u "en")) (u "chunks")) w'
                 (Manifest.chunks sampleManifest) with
         | [] => 0%Z
         | _ :: _ => 1%Z
         end.
Proof.
  apply (run_without_key_fails_missing_units sampleRoot sampleNumberToString None
           sampleVoice alwaysAudio ffmpegDone 5 1 (u "en") sampleManifest
           sampleLastMissing sampleLastMissing).
  - reflexivity.
  - by_computation.
  - silences_present.
  - vm_compute. lia.
Defined.

Example run_without_key_counts :
  let run :=
    generateChapterAudio sampleRoot sampleNumberToString None sampleVoice
      alwaysAudio ffmpegDone 5 1 (u "en") sampleManifest sampleLastMissing in
  fst <$> run = Some (Return (Result.mk 3 1 4))
  /\ requests (worldAfter run) = 0
  /\ missingIds sampleChunksDir (worldAfter run) (Manifest.chunks sampleManifest)
     = [u "ch1-chunk-003"]
  /\ generateExitStatus (Return (Result.mk 3 1 4)) = 1%Z.
Proof. repeat apply conj; by_computation. Qed.

Lemma error_text_with_429_is_retried_witness :
  exists w',
    loopBody sampleKey gatewayBusy sampleManifest sampleChunksDir
      (voiceIdOf sampleVoice) (Loop.mk 0 0 0) sampleNoClips
    = (Return (Loop.mk 0 0 1), w')
    /\ files w' = files sampleNoClips
    /\ requests w' = S (requests sampleNoClips)
    /\ last (trace w') = Some (EvSleep 5000).
Proof.
  apply (error_text_with_429_is_retried sampleKey gatewayBusy sampleManifest
           sampleChunksDir (voiceIdOf sampleVoice) 0%Z 0 0 sampleNoClips
           (introChunk 1 twoSections)).
  - by_computation.
  - by_computation.
  - reflexivity.
  - unfold gatewayBusy. split; [lia | by_computation].
Defined.


Lemma runner_touches_only_its_outputs_witness :
  let run :=
    generateChapterAudio sampleRoot sampleNumberToString sampleKey sampleVoice
      throttledOnce ffmpegDone 10 1 (u "en") sampleManifest sampleLastMissing in
  (forall q, existsSync sampleLastMissing q = true ->
             existsSync (worldAfter run) q = true)
  /\ (forall q data,
        q ∉ map (silencePath sampleNumberToString
                   (silencesDirOf (join sampleRoot (u "audio")))) durations ->
        q ∉ map (chunkPath (join (audioDirOf sampleRoot 1 (u "en")) (u "chunks")))
              (Manifest.chunks sampleManifest) ->
        files (worldAfter run) !! q = Some (File data)
        <-> files sampleLastMissing !! q = Some (File data))
  /\ files (worldAfter run) !! join (audioDirOf sampleRoot 1 (u "en")) (u "chunks.json")
     = files sampleLastMissing
         !! join (audioDirOf sampleRoot 1 (u "en")) (u "chunks.json")
  /\ files (worldAfter run) !! outputFileOf sampleRoot 1 (u "en")
     = files sampleLastMissing !! outputFileOf sampleRoot 1 (u "en").
Proof.
  intros run.
  destruct (runner_touches_only_its_outputs sampleRoot sampleNumberToString
              sampleKey sampleVoice throttledOnce ffmpegDone 10 1 (u "en")
              sampleManifest sampleLastMissing (worldAfter run)
              (Return (Result.mk 4 1 4))) as [Hmono Hrest].
  { apply run_worldAfter. by_computation. }
  split; [exact Hmono |]. apply Hrest.
  - by_computation.
  - apply (planner_ids_plain 1 (u "en") twoSections).
Defined.

Lemma assembler_touches_only_its_outputs_witness :
  let run :=
    concatChapterAudio sampleRoot sampleNumberToString ffmpegDone 1 (u "en")
      sampleManifest sampleReady in
  requests (snd run) = requests sampleReady
  /\ (forall q, existsSync sampleReady q = true -> existsSync (snd run) q = true)
  /\ (forall q,
        q <> concatListPathOf sampleRoot 1 (u "en") ->
        q <> outputFileOf sampleRoot 1 (u "en") ->
        files (snd run) !! q = files sampleReady !! q)
  /\ (forall chunk,
        plainName (Chunk.id chunk) = true ->
        files (snd run)
          !! chunkPath (join (audioDirOf sampleRoot 1 (u "en")) (u "chunks")) chunk
        = files sampleReady
            !! chunkPath (join (audioDirOf sampleRoot 1 (u "en")) (u "chunks")) chunk).
Proof.
  intros run.
  destruct (assembler_touches_only_its_outputs sampleRoot sampleNumberToString
              ffmpegDone 1 (u "en") sampleManifest sampleReady (snd run)
              (Return sampleOutputFile)) as (Hr & Hmono & Hframe & Hclips).
  { apply run_pair. by_computation. }
  repeat apply conj; [exact Hr | exact Hmono | exact Hframe |].
  apply Hclips. by_computation.
Defined.

Lemma clean_synthesis_feeds_assembler_witness :
  let run :=
    generateChapterAudio sampleRoot sampleNumberToString sampleKey sampleVoice
      alwaysAudio ffmpegDone 10 1 (u "en") sampleManifest sampleNoClips in
  concatChapterAudio sampleRoot sampleNumberToString ffmpegDone 1 (u "en")
    sampleManifest (worldAfter run)
  = match execSync ffmpegDone
            (concatCommand (concatListPathOf sampleRoot 1 (u "en"))
               (outputFileOf sampleRoot 1 (u "en")))
            (outputFileOf sampleRoot 1 (u "en"))
            (writeFileSync (concatListPathOf sampleRoot 1 (u "en"))
               (concat (map concatLine
                  (concatEntries sampleNumberToString
                     (join (audioDirOf sampleRoot 1 (u "en")) (u "chunks"))
                     (join (join sampleRoot (u "audio")) (u "silences"))
                     (Manifest.chunks sampleManifest))))
               (worldAfter run)) with
    | (inl _, w2) => (Return (outputFileOf sampleRoot 1 (u "en")), w2)
    | (inr message, w2) => (Exit 1, consoleError (FfmpegError message) w2)
    end.
Proof.
  intros run.
  apply (clean_synthesis_feeds_assembler sampleRoot sampleNumberToString sampleKey
           sampleVoice alwaysAudio ffmpegDone 10 1 (u "en") sampleManifest
           sampleNoClips (worldAfter run) (Result.mk 4 0 4)).
  - apply run_worldAfter. by_computation.
  - reflexivity.
  - intros chunk Hin _. apply (planner_pause_provisioned 1 (u "en") twoSections).
    exact Hin.
Defined.

Lemma cleanText_trimmed_witness :
  head (cleanText (u "  hi  ")) = Some 104%N /\ isSpace 104%N = false.
Proof.
  split; [by_computation |].
  apply (cleanText_trimmed (u "  hi  ") 104%N). left. by_computation.
Defined.

Lemma cleanText_single_spaces_witness :
  32%N = 32%N
  /\ forall d, cleanText (u "a   b") !! 2 = Some d -> isSpace d = false.
Proof.
  apply (cleanText_single_spaces (u "a   b") 1 32%N).
  - by_computation.
  - reflexivity.
Defined.

Lemma cleanText_blank_witness : cleanText [32; 9; 10; 160]%N = [].
Proof.
  apply (cleanText_blank [32; 9; 10; 160]%N). units_by_reflexivity.
Defined.

Lemma cleanText_fixes_clean_text_witness : cleanText (u "a b") = u "a b".
Proof.
  apply (cleanText_fixes_clean_text (u "a b")).
  - units_distinct.
  - cbn. repeat split; try discriminate. intros d [= <-]. reflexivity.
  - intros c [[= <-] | [= <-]]; reflexivity.
Defined.

Lemma cleanText_term_marker_witness :
  cleanText (u "The " ++ (u "{term:" ++ u "ki" ++ u "}") ++ u " flows.")
  = cleanText (u "The " ++ u "ki" ++ u " flows.").
Proof.
  apply (cleanText_term_marker (u "The ") (u "ki") (u " flows.")).
  - units_distinct.
  - discriminate.
  - units_distinct.
Defined.

Lemma cleanText_term_custom_text_witness :
  cleanText (u "The " ++ (u "{term:" ++ u "ki" ++ u "|" ++ u "life force" ++ u "}")
               ++ u " flows.")
  = cleanText (u "The " ++ u "life force" ++ u " flows.").
Proof.
  apply (cleanText_term_custom_text (u "The ") (u "ki") (u "life force") (u " flows.")).
  - units_distinct.
  - discriminate.
  - units_distinct.
  - discriminate.
  - units_distinct.
Defined.

Lemma cleanText_ref_marker_witness :
  cleanText (u "Rest" ++ (u "{ref:" ++ u "n1" ++ u "}") ++ u ".")
  = cleanText (u "Rest" ++ u ".").
Proof.
  apply (cleanText_ref_marker (u "Rest") (u "n1") (u ".")).
  - units_distinct.
  - discriminate.
  - units_distinct.
Defined.

Lemma chapter_argument_is_lenient_witness :
  chapterOf (u " " ++ showNat 7 ++ u "th") = Some 7.
Proof.
  apply (chapter_argument_is_lenient (u " ") (u "th") 7).
  - units_by_reflexivity.
  - lia.
  - intros c [= <-]. reflexivity.
Defined.

Lemma runner_status_zero_means_every_clip_witness :
  exists arg lang rest chapterNum,
    [u "1"; u "en"] = arg :: lang :: rest
    /\ parseInt arg = Some (Z.of_nat chapterNum)
    /\ 1 <= chapterNum <= 11
    /\ (lang = u "en" \/ lang = u "es")
    /\ forall chunk, chunk ∈ Manifest.chunks sampleManifest ->
         existsSync sampleReady
           (chunkPath (join (audioDirOf sampleRoot chapterNum lang) (u "chunks")) chunk)
         = true.
Proof.
  apply (runner_status_zero_means_every_clip sampleRoot sampleNumberToString
           sampleKey sampleVoice alwaysThrottled ffmpegBroken 10 [u "1"; u "en"]
           sampleManifest sampleReady sampleReady (Ended 0)).
  - by_computation.
  - reflexivity.
Defined.

Lemma assembler_status_zero_means_final_file_witness :
  let run :=
    concatMain sampleRoot sampleNumberToString ffmpegDone [u "1"; u "en"]
      sampleManifest sampleReady in
  exists arg lang rest chapterNum,
    [u "1"; u "en"] = arg :: lang :: rest
    /\ parseInt arg = Some (Z.of_nat chapterNum)
    /\ 1 <= chapterNum <= 11
    /\ (lang = u "en" \/ lang = u "es")
    /\ missingIds (join (audioDirOf sampleRoot chapterNum lang) (u "chunks"))
         sampleReady (Manifest.chunks sampleManifest) = []
    /\ existsSync (snd run) (outputFileOf sampleRoot chapterNum lang) = true.
Proof.
  intros run.
  apply (assembler_status_zero_means_final_file sampleRoot sampleNumberToString
           ffmpegDone [u "1"; u "en"] sampleManifest sampleReady (snd run)
           (Ended 0)).
  - apply run_pair. by_computation.
  - reflexivity.
Defined.

Lemma planner_saves_the_manifest_witness :
  let run :=
    prepareChapterChunks_files sampleRoot sampleParse sampleStringify 1 (u "en")
      sampleSource in
  (exists text ch,
     files sampleSource !! chapterFileOf sampleRoot 1 (u "en") = Some (File text)
     /\ sampleParse text = Some ch
     /\ sampleManifest = prepareChapterChunks 1 (u "en") ch)
  /\ files (snd run) !! join (audioDirOf sampleRoot 1 (u "en")) (u "chunks.json")
     = Some (File (sampleStringify sampleManifest))
  /\ (forall q, existsSync sampleSource q = true -> existsSync (snd run) q = true)
  /\ (forall q data,
        q <> join (audioDirOf sampleRoot 1 (u "en")) (u "chunks.json") ->
        files (snd run) !! q = Some (File data)
        <-> files sampleSource !! q = Some (File data)).
Proof.
  intros run.
  apply (planner_saves_the_manifest sampleRoot sampleParse sampleStringify 1 (u "en")
           sampleSource (snd run) sampleManifest).
  apply run_pair. by_computation.
Defined.

Lemma planner_all_needs_every_chapter_witness :
  let run :=
    prepareMain sampleRoot sampleParse sampleStringify [u "all"; u "en"]
      sampleLibrary in
  (u "en" = u "en" \/ u "en" = u "es")
  /\ forall i, 1 <= i <= 11 ->
       existsSync sampleLibrary (chapterFileOf sampleRoot i (u "en")) = true
       /\ existsSync (snd run) (join (audioDirOf sampleRoot i (u "en")) (u "chunks.json"))
          = true.
Proof.
  intros run.
  apply (planner_all_needs_every_chapter sampleRoot sampleParse sampleStringify
           (u "en") [] sampleLibrary (snd run) (Ended 0)).
  - apply run_pair. by_computation.
  - reflexivity.
Defined.

Lemma clean_run_is_a_fixed_point_witness :
  let run :=
    generateChapterAudio sampleRoot sampleNumberToString sampleKey sampleVoice
      alwaysAudio ffmpegDone 10 1 (u "en") sampleManifest sampleNoClips in
  generateChapterAudio sampleRoot sampleNumberToString sampleKey sampleVoice
    alwaysAudio ffmpegDone 5 1 (u "en") sampleManifest (worldAfter run)
  = Some (Return (Result.mk 4 0 4), worldAfter run).
Proof.
  intros run.
  apply (clean_run_is_a_fixed_point sampleRoot sampleNumberToString sampleKey
           sampleVoice alwaysAudio ffmpegDone 10 5 1 (u "en") sampleManifest
           sampleNoClips (worldAfter run) (Result.mk 4 0 4)).
  - apply run_worldAfter. by_computation.
  - reflexivity.
  - vm_compute. lia.
Defined.

Lemma silence_failure_stops_the_run_witness :
  exists d w',
    generateChapterAudio sampleRoot sampleNumberToString sampleKey sampleVoice
      alwaysAudio ffmpegBroken 10 1 (u "en") sampleManifest sampleNoSilences
    = Some (Throw (u "Command failed: ffmpeg"), w')
    /\ generateExitStatus (@Throw Result.t (u "Command failed: ffmpeg")) = 1%Z
    /\ requests w' = requests sampleNoSilences
    /\ trace w'
       = trace sampleNoSilences
         ++ [EvExec (silenceCommand sampleNumberToString d
                       (silencePath sampleNumberToString
                          (silencesDirOf (join sampleRoot (u "audio"))) d));
             EvConsoleError (SilenceFailed (u "Command failed: ffmpeg"))].
Proof.
  apply (silence_failure_stops_the_run sampleRoot sampleNumberToString sampleKey
           sampleVoice alwaysAudio ffmpegBroken 10 1 (u "en") sampleManifest
           sampleNoSilences (u "Command failed: ffmpeg")).
  - by_computation.
  - intros command d. eexists. reflexivity.
  - apply Exists_cons_hd. by_computation.
Defined.

Lemma run_worldAt {A : Type} (run : option (A * world)) (a : A) :
  fst <$> run = Some a -> run = Some (a, worldAt run).
Proof.
  destruct run as [[a' w] |]; [| discriminate].
  cbn. intros H. injection H as ->. reflexivity.
Qed.

Lemma chapter_file_to_final_file_witness :
  exists w',
    buildChapter sampleRoot sampleNumberToString sampleKey sampleVoice alwaysAudio
      ffmpegDone sampleParse sampleStringify sampleParseManifest 10 1 (u "en")
      sampleSource = Some (true, w')
    /\ existsSync w' (outputFileOf sampleRoot 1 (u "en")) = true.
Proof.
  apply (chapter_file_to_final_file sampleRoot sampleNumberToString sampleKey
           sampleVoice alwaysAudio ffmpegDone sampleParse sampleStringify
           sampleParseManifest 10 1 (u "en") sampleSource [123%N] twoSections).
  - by_computation.
  - lia.
  - left. reflexivity.
  - by_computation.
  - reflexivity.
  - reflexivity.
  - intros k text voiceId. eexists. reflexivity.
  - intros command d. eexists _, _. reflexivity.
  - vm_compute. lia.
Defined.

Lemma built_chapter_has_its_final_file_witness :
  let run :=
    buildChapter sampleRoot sampleNumberToString sampleKey sampleVoice alwaysAudio
      ffmpegDone sampleParse sampleStringify sampleParseManifest 10 1 (u "en")
      sampleSource in
  (u "en" = u "en" \/ u "en" = u "es")
  /\ existsSync sampleSource (chapterFileOf sampleRoot 1 (u "en")) = true
  /\ existsSync (worldAt run) (join (audioDirOf sampleRoot 1 (u "en")) (u "chunks.json"))
     = true
  /\ existsSync (worldAt run) (outputFileOf sampleRoot 1 (u "en")) = true.
Proof.
  intros run.
  apply (built_chapter_has_its_final_file sampleRoot sampleNumberToString sampleKey
           sampleVoice alwaysAudio ffmpegDone sampleParse sampleStringify
           sampleParseManifest 10 1 (u "en") sampleSource (worldAt run)).
  - lia.
  - apply run_worldAt. by_computation.
Defined.

Lemma build_all_status_zero_means_eleven_files_witness :
  let run :=
    buildMain sampleRoot sampleNumberToString sampleKey sampleVoice alwaysAudio
      ffmpegDone sampleParse sampleStringify sampleParseManifest 10
      [u "all"; u "en"] sampleLibrary in
  (u "en" = u "en" \/ u "en" = u "es")
  /\ forall i, 1 <= i <= 11 ->
       existsSync (worldAt run) (outputFileOf sampleRoot i (u "en")) = true.
Proof.
  intros run.
  apply (build_all_status_zero_means_eleven_files sampleRoot sampleNumberToString
           sampleKey sampleVoice alwaysAudio ffmpegDone sampleParse sampleStringify
           sampleParseManifest 10 (u "en") [] sampleLibrary (worldAt run) (Ended 0)).
  - apply run_worldAt. by_computation.
  - reflexivity.
Defined.
